(** * trace.c: environment-configured tracing and nanosecond timing

    A shallow embedding of git's [trace.c].  The C functions become state
    passing functions over a [world] that holds the process environment, the
    file system, the descriptor table, the clock readings still to come and
    the file's [static] variables.  Names follow the C source. *)

From Stdlib Require Import ZArith String Ascii List Lia DecimalString.
From Stdlib Require Import Floats.SpecFloat.
From stdpp Require Import gmap strings list.

Local Open Scope Z_scope.

(** ** The C library functions trace.c calls on strings *)

Module CLib.

Definition NUL : ascii := "000"%char.
Definition LF : ascii := "010"%char.
Definition CR : ascii := "013"%char.
Definition BACKSLASH : ascii := "092"%char.

(** The one-character string holding a newline. *)
Definition nl : string := String LF EmptyString.

Definition code (c : ascii) : Z := Z.of_nat (nat_of_ascii c).

Definition isdigit (c : ascii) : bool := (48 <=? code c) && (code c <=? 57).

Definition isspace (c : ascii) : bool :=
  (code c =? 32) || ((9 <=? code c) && (code c <=? 13)).

Definition tolower (c : ascii) : ascii :=
  if (65 <=? code c) && (code c <=? 90)
  then ascii_of_nat (nat_of_ascii c + 32) else c.

(** [strcmp]: the difference of the first pair of bytes that differ, the
    terminator counting as byte 0. *)
Fixpoint strcmp (a b : string) : Z :=
  match a, b with
  | EmptyString, EmptyString => 0
  | EmptyString, String d _ => 0 - code d
  | String c _, EmptyString => code c
  | String c a', String d b' =>
      if code c =? code d then strcmp a' b' else code c - code d
  end.

(** [strcasecmp]: [strcmp] on the lower-cased bytes. *)
Fixpoint strcasecmp (a b : string) : Z :=
  match a, b with
  | EmptyString, EmptyString => 0
  | EmptyString, String d _ => 0 - code (tolower d)
  | String c _, EmptyString => code (tolower c)
  | String c a', String d b' =>
      if code (tolower c) =? code (tolower d)
      then strcasecmp a' b' else code (tolower c) - code (tolower d)
  end.

Definition strlen (s : string) : Z := Z.of_nat (String.length s).

(** [*s]: the first byte of a C string, the terminator for the empty one. *)
Definition deref (s : string) : ascii :=
  match s with
  | EmptyString => NUL
  | String c _ => c
  end.

Fixpoint atoi_digits (acc : Z) (s : string) : Z :=
  match s with
  | String c r =>
      if isdigit c then atoi_digits (acc * 10 + (code c - 48)) r else acc
  | EmptyString => acc
  end.

Fixpoint atoi_skip (s : string) : string :=
  match s with
  | String c r => if isspace c then atoi_skip r else s
  | EmptyString => s
  end.

(** [atoi]: leading white space, an optional sign, then decimal digits. *)
Definition atoi (s : string) : Z :=
  match atoi_skip s with
  | String "-" r => - atoi_digits 0 r
  | String "+" r => atoi_digits 0 r
  | r => atoi_digits 0 r
  end.

(** Decimal rendering of an integer, as [%d] prints it. *)
Definition dec (z : Z) : string := NilZero.string_of_int (Z.to_int z).

Fixpoint zeros (n : nat) : string :=
  match n with
  | O => EmptyString
  | S k => String "0" (zeros k)
  end.

Definition pad0 (width : nat) (digits : string) : string :=
  zeros (width - String.length digits) +:+ digits.

(** [%0<width>d]: zero padding to [width] columns, the sign included. *)
Definition fmt_0d (width : nat) (z : Z) : string :=
  if z <? 0 then String "-" (pad0 (width - 1) (dec (- z)))
  else pad0 width (dec z).

Definition digit (z : Z) : ascii := ascii_of_nat (48 + Z.to_nat (z mod 10)).

(** The last [k] decimal digits of [z], most significant first. *)
Fixpoint digits_fixed (k : nat) (z : Z) : string :=
  match k with
  | O => EmptyString
  | S k' => digits_fixed k' (z / 10) +:+ String (digit z) EmptyString
  end.

(** The last byte of a string, if it has one: [buf[len - 1]]. *)
Fixpoint last_char (s : string) : option ascii :=
  match s with
  | EmptyString => None
  | String c EmptyString => Some c
  | String _ r => last_char r
  end.

(** Number of newline bytes in a text. *)
Fixpoint count_nl (s : string) : nat :=
  match s with
  | EmptyString => O
  | String c r => ((if Ascii.eqb c LF then 1 else 0) + count_nl r)%nat
  end.

(** Number of newline bytes a text starts with. *)
Fixpoint leading_nl (l : list ascii) : nat :=
  match l with
  | c :: r => if Ascii.eqb c LF then S (leading_nl r) else O
  | [] => O
  end.

(** Number of newline bytes a text ends with. *)
Definition trailing_nl (s : string) : nat :=
  leading_nl (rev (list_ascii_of_string s)).

Definition wrap64 (z : Z) : Z := z mod 2 ^ 64.

End CLib.
Import CLib.

(** ** What the build and the rest of git supply *)

(** Arguments of a caller's printf-style message. *)
Inductive fmt_arg :=
  | ArgStr (s : option string)
  | ArgInt (z : Z).

Record tm := { tm_hour : Z; tm_min : Z; tm_sec : Z }.
Record timeval := { tv_sec : Z; tv_usec : Z }.
Record timespec := { ts_sec : Z; ts_nsec : Z }.

(** The preprocessor switches and the functions of other git files
    ([cache.h], [quote.c], [strbuf.c]) and of libc that trace.c uses and
    that take no part in its own logic. *)
Class Platform := {
  HAVE_VARIADIC_MACROS : bool;
  HAVE_CLOCK_GETTIME : bool;
  PATH_MAX : nat;
  is_absolute_path : string -> bool;
  (** the text [sq_quote_argv(&buf, argv, 0)] appends to [buf] *)
  sq_quote_argv : list string -> string;
  (** the text [strbuf_vaddf(&buf, format, ap)] appends to [buf] *)
  strbuf_vaddf : string -> list fmt_arg -> string;
  strerror : Z -> string;
  localtime_r : Z -> tm;
}.

Definition STDERR_FILENO : Z := 2.
Definition EBADF : Z := 9.
Definition ENOENT : Z := 2.

Inductive open_flag := O_WRONLY | O_APPEND | O_CREAT.

Global Instance open_flag_eq_dec : EqDecision open_flag.
Proof. solve_decision. Defined.

(** An entry of the descriptor table. *)
Inductive fdesc :=
  | FdStream                                     (* inherited: terminal, pipe *)
  | FdFile (path : string) (append : bool) (pos : nat).

Inductive hook := print_command_performance_atexit_hook.

(** The calls that leave the process, in the order they happen. *)
Inductive syscall :=
  | Getenv (key : string)
  | Gettimeofday
  | ClockGettime
  | OpenFile (path : string) (flags : list open_flag) (mode : Z)
  | WriteFd (fd : Z) (data : string)
  | CloseFd (fd : Z)
  | Fprintf (text : string)
  | Atexit (h : hook)
  | Getcwd.

(** What the process cannot influence: the clocks, which files refuse to
    open, which descriptors refuse writes, and what git's path discovery
    answers. *)
Record oracle := {
  o_wall : nat -> timeval;                 (* n-th gettimeofday reading *)
  o_mono : nat -> option timespec;         (* n-th clock_gettime; None: error *)
  o_noopen : gmap string Z;                (* path |-> errno of a failing open *)
  o_wfault : gmap Z (nat * Z);             (* fd |-> bytes taken, then errno *)
  o_cwd : option string;
  o_git_dir : option string;
  o_git_common_dir : option string;
  o_git_work_tree : option string;
}.

Record world := {
  w_orc : oracle;
  w_env : gmap string string;
  w_files : gmap string string;
  w_fdt : gmap Z fdesc;
  w_out : list (Z * string);                (* writes to streams, oldest first *)
  w_log : list syscall;                     (* oldest first *)
  w_wall_n : nat;
  w_mono_n : nat;
  w_errno : Z;
  (* the static variables of trace.c *)
  g_offset : Z;
  g_command_start_time : Z;
  g_command_line : string;
  g_atexit : list hook;
  g_new_path : list ascii;
}.

Definition set_files (f : gmap string string -> gmap string string) (w : world) : world :=
  let 'Build_world a b c d e g h i j k l m n o := w in
  Build_world a b (f c) d e g h i j k l m n o.
Definition set_fdt (f : gmap Z fdesc -> gmap Z fdesc) (w : world) : world :=
  let 'Build_world a b c d e g h i j k l m n o := w in
  Build_world a b c (f d) e g h i j k l m n o.
Definition set_out (f : list (Z * string) -> list (Z * string)) (w : world) : world :=
  let 'Build_world a b c d e g h i j k l m n o := w in
  Build_world a b c d (f e) g h i j k l m n o.
Definition set_log (f : list syscall -> list syscall) (w : world) : world :=
  let 'Build_world a b c d e g h i j k l m n o := w in
  Build_world a b c d e (f g) h i j k l m n o.
Definition set_wall_n (f : nat -> nat) (w : world) : world :=
  let 'Build_world a b c d e g h i j k l m n o := w in
  Build_world a b c d e g (f h) i j k l m n o.
Definition set_mono_n (f : nat -> nat) (w : world) : world :=
  let 'Build_world a b c d e g h i j k l m n o := w in
  Build_world a b c d e g h (f i) j k l m n o.
Definition set_errno (f : Z -> Z) (w : world) : world :=
  let 'Build_world a b c d e g h i j k l m n o := w in
  Build_world a b c d e g h i (f j) k l m n o.
Definition set_offset (f : Z -> Z) (w : world) : world :=
  let 'Build_world a b c d e g h i j k l m n o := w in
  Build_world a b c d e g h i j (f k) l m n o.
Definition set_command_start_time (f : Z -> Z) (w : world) : world :=
  let 'Build_world a b c d e g h i j k l m n o := w in
  Build_world a b c d e g h i j k (f l) m n o.
Definition set_command_line (f : string -> string) (w : world) : world :=
  let 'Build_world a b c d e g h i j k l m n o := w in
  Build_world a b c d e g h i j k l (f m) n o.
Definition set_atexit (f : list hook -> list hook) (w : world) : world :=
  let 'Build_world a b c d e g h i j k l m n o := w in
  Build_world a b c d e g h i j k l m (f n) o.
Definition set_new_path (f : list ascii -> list ascii) (w : world) : world :=
  let 'Build_world a b c d e g h i j k l m n o := w in
  Build_world a b c d e g h i j k l m n (f o).

(** ** State passing *)

Definition M (A : Type) : Type := world -> A * world.

Definition ret {A} (a : A) : M A := fun w => (a, w).
Definition bind {A B} (c : M A) (k : A -> M B) : M B :=
  fun w => let (a, w') := c w in k a w'.
Definition modify (f : world -> world) : M unit := fun w => (tt, f w).
Definition gets {A} (f : world -> A) : M A := fun w => (f w, w).

Declare Scope trace_scope.
Delimit Scope trace_scope with trace.
Notation "x <- c ;; k" := (bind c (fun x => k))
  (at level 100, c at next level, right associativity) : trace_scope.
Notation "c ;; k" := (bind c (fun _ => k))
  (at level 100, right associativity) : trace_scope.
Local Open Scope trace_scope.

Definition logcall (s : syscall) : M unit := modify (set_log (fun l => l ++ [s])).

(** ** The system calls *)

Definition getenv (key : string) : M (option string) :=
  logcall (Getenv key) ;; gets (fun w => w_env w !! key).

Definition gettimeofday : M timeval :=
  logcall Gettimeofday ;;
  tv <- gets (fun w => o_wall (w_orc w) (w_wall_n w)) ;;
  modify (set_wall_n S) ;;
  ret tv.

(** [clock_gettime(CLOCK_MONOTONIC, &ts)] *)
Definition clock_gettime : M (option timespec) :=
  logcall ClockGettime ;;
  ts <- gets (fun w => o_mono (w_orc w) (w_mono_n w)) ;;
  modify (set_mono_n S) ;;
  ret ts.

(** The lowest descriptor number that is not in use. *)
Fixpoint lowest_free (t : gmap Z fdesc) (fuel : nat) (n : Z) : Z :=
  match fuel with
  | O => n
  | S fuel' =>
      match t !! n with
      | None => n
      | Some _ => lowest_free t fuel' (n + 1)
      end
  end.

Definition fresh_fd (t : gmap Z fdesc) : Z := lowest_free t (size t) 0.

(** [open(path, flags, mode)] for the flags trace.c passes: no truncation,
    creation of a missing file only under [O_CREAT], the lowest free
    descriptor on success and -1 with [errno] set on failure. *)
Definition sys_open (path : string) (flags : list open_flag) (mode : Z) : M Z :=
  logcall (OpenFile path flags mode) ;;
  orc <- gets w_orc ;;
  files <- gets w_files ;;
  match o_noopen orc !! path with
  | Some e => modify (set_errno (fun _ => e)) ;; ret (-1)
  | None =>
      if bool_decide (files !! path = None) && negb (bool_decide (O_CREAT ∈ flags))
      then modify (set_errno (fun _ => ENOENT)) ;; ret (-1)
      else
        fd <- gets (fun w => fresh_fd (w_fdt w)) ;;
        modify (set_files (fun fs =>
                  match fs !! path with
                  | None => <[path := EmptyString]> fs
                  | Some _ => fs
                  end)) ;;
        modify (set_fdt <[fd := FdFile path (bool_decide (O_APPEND ∈ flags)) 0]>) ;;
        ret fd
  end.

Definition take_str (n : nat) (s : string) : string := String.substring 0 n s.
Definition drop_str (n : nat) (s : string) : string :=
  String.substring n (String.length s - n) s.

(** The bytes of [data] land at the end of the file under [O_APPEND], at the
    descriptor's position otherwise. *)
Definition file_put (append : bool) (pos : nat) (old data : string) : string :=
  if append then old +:+ data
  else take_str pos old +:+ data +:+ drop_str (pos + String.length data) old.

(** Modelled from the spec: [write_in_full] of wrapper.c, the write of the
    whole buffer that retries until all is written or a write fails for
    good: 0 or more on success, -1 with [errno] set on failure, the bytes
    taken before the failure staying written. *)
Definition write_in_full (fd : Z) (data : string) : M Z :=
  logcall (WriteFd fd data) ;;
  orc <- gets w_orc ;;
  t <- gets w_fdt ;;
  match t !! fd with
  | None => modify (set_errno (fun _ => EBADF)) ;; ret (-1)
  | Some d =>
      let (taken, failure) :=
        match o_wfault orc !! fd with
        | Some (k, e) => (take_str k data, Some e)
        | None => (data, None)
        end in
      match d with
      | FdStream => modify (set_out (fun o => o ++ [(fd, taken)]))
      | FdFile path app pos =>
          modify (set_files (fun fs =>
                    <[path := file_put app pos (default EmptyString (fs !! path)) taken]> fs)) ;;
          modify (set_fdt <[fd := FdFile path app (pos + String.length taken)]>)
      end ;;
      match failure with
      | Some e => modify (set_errno (fun _ => e)) ;; ret (-1)
      | None => ret (strlen data)
      end
  end.

Definition sys_close (fd : Z) : M unit :=
  logcall (CloseFd fd) ;; modify (set_fdt (delete fd)).

(** [fprintf(stderr, ...)] with the text already formatted.  [stderr] is
    not buffered: stdio hands the text to descriptor 2 as a write does, to
    whatever descriptor 2 is at that moment: a stream, a file, or nothing
    when it is closed.  trace.c ignores the result of the call. *)
Definition fprintf_stderr (text : string) : M unit :=
  logcall (Fprintf text) ;;
  orc <- gets w_orc ;;
  t <- gets w_fdt ;;
  match t !! STDERR_FILENO with
  | None => modify (set_errno (fun _ => EBADF))
  | Some d =>
      let (taken, failure) :=
        match o_wfault orc !! STDERR_FILENO with
        | Some (k, e) => (take_str k text, Some e)
        | None => (text, None)
        end in
      match d with
      | FdStream => modify (set_out (fun o => o ++ [(STDERR_FILENO, taken)]))
      | FdFile path app pos =>
          modify (set_files (fun fs =>
                    <[path := file_put app pos (default EmptyString (fs !! path)) taken]> fs)) ;;
          modify (set_fdt <[STDERR_FILENO := FdFile path app (pos + String.length taken)]>)
      end ;;
      match failure with
      | Some e => modify (set_errno (fun _ => e))
      | None => ret tt
      end
  end.

Definition atexit (h : hook) : M unit :=
  logcall (Atexit h) ;; modify (set_atexit (fun l => l ++ [h])).

(** ** trace.c *)

Section Trace.
Context {P : Platform}.

(** Modelled from the spec: [write_or_whine_pipe] of write_or_die.c, which
    is not part of this file.  It writes the whole buffer and, on a write
    error, produces a single diagnostic naming the failure; it never ends
    the process. *)
Definition write_or_whine_pipe (fd : Z) (buf : string) (msg : string) : M Z :=
  r <- write_in_full fd buf ;;
  if r <? 0 then
    e <- gets w_errno ;;
    fprintf_stderr (msg +:+ ": write error (" +:+ strerror e +:+ ")" +:+ nl) ;;
    ret 0
  else ret 1.

(** Get a trace file descriptor from "key" env variable.  The second
    component is [*need_close] after the call. *)
Definition get_trace_fd (key : string) (need_close : bool) : M (Z * bool) :=
  trace <- getenv key ;;
  match trace with
  | None => ret (0, need_close)
  | Some trace =>
      if (strcmp trace EmptyString =? 0) || (strcmp trace "0" =? 0)
         || (strcasecmp trace "false" =? 0)
      then ret (0, need_close)
      else if (strcmp trace "1" =? 0) || (strcasecmp trace "true" =? 0)
      then ret (STDERR_FILENO, need_close)
      else if (strlen trace =? 1) && isdigit (deref trace)
      then ret (atoi trace, need_close)
      else if is_absolute_path trace then
        fd <- sys_open trace [O_WRONLY; O_APPEND; O_CREAT] 438 ;;
        if fd =? -1 then
          e <- gets w_errno ;;
          fprintf_stderr
            ("Could not open '" +:+ trace +:+ "' for tracing: "
             +:+ strerror e +:+ nl
             +:+ "Defaulting to tracing on stderr..." +:+ nl) ;;
          ret (STDERR_FILENO, need_close)
        else ret (fd, true)
      else
        fprintf_stderr
          ("What does '" +:+ trace +:+ "' for " +:+ key +:+ " mean?" +:+ nl) ;;
        fprintf_stderr
          ("If you want to trace into a file, then please set " +:+ key
           +:+ " to an absolute pathname (starting with /)." +:+ nl) ;;
        fprintf_stderr ("Defaulting to tracing on stderr..." +:+ nl) ;;
        ret (STDERR_FILENO, need_close)
  end.

Definition err_msg : string :=
  "Could not trace into fd given by GIT_TRACE environment variable".

(** Print 'buf' verbatim to trace file designated by env var 'key' *)
Definition do_trace_print (key : string) (buf : string) : M unit :=
  r <- get_trace_fd key false ;;
  let (fd, need_close) := (r : Z * bool) in
  if fd =? 0 then ret tt
  else
    write_or_whine_pipe fd buf err_msg ;;
    if need_close then sys_close fd else ret tt.

(** The test both [trace_want] and [get_trace_fd] make on the value of the
    key: unset, empty, "0" or "false" in any case. *)
Definition trace_want (key : string) : M bool :=
  trace <- getenv key ;;
  match trace with
  | None => ret false
  | Some trace =>
      if (strcmp trace EmptyString =? 0) || (strcmp trace "0" =? 0)
         || (strcasecmp trace "false" =? 0)
      then ret false
      else ret true
  end.

(** [%s] of a pointer that may be NULL, as the C library prints it. *)
Definition str_arg (s : option string) : string := default "(null)" s.

(** Returns whether the key is active together with the buffer: untouched
    when inactive, holding the time stamp (and the file:line tag) otherwise.
    [set_try_to_free_routine(NULL)] only clears a callback of git's
    allocation wrappers and has no counterpart here. *)
Definition prepare_trace_line (file : option string) (line : Z) (key : string)
    (buf : string) : M (bool * string) :=
  want <- trace_want key ;;
  if negb want then ret (false, buf)
  else
    (* print current timestamp *)
    tv <- gettimeofday ;;
    let secs := tv_sec tv in
    let t := localtime_r secs in
    let buf := buf +:+ fmt_0d 2 (tm_hour t) +:+ ":" +:+ fmt_0d 2 (tm_min t)
                   +:+ ":" +:+ fmt_0d 2 (tm_sec t) +:+ "."
                   +:+ fmt_0d 6 (tv_usec tv) +:+ " " in
    (* print file:line *)
    let buf := if HAVE_VARIADIC_MACROS
               then buf +:+ str_arg file +:+ ":" +:+ dec line +:+ " "
               else buf in
    ret (true, buf).

(** The buffer [print_trace_line] hands on: a newline is appended if
    missing. *)
Definition terminate_line (buf : string) : string :=
  if (0 <? strlen buf) && negb (bool_decide (last_char buf = Some LF))
  then buf +:+ nl else buf.

Definition print_trace_line (key : string) (buf : string) : M unit :=
  do_trace_print key (terminate_line buf).

Definition trace_vprintf_fl (file : option string) (line : Z) (key : string)
    (format : string) (ap : list fmt_arg) : M unit :=
  r <- prepare_trace_line file line key EmptyString ;;
  let (active, buf) := (r : bool * string) in
  if negb active then ret tt
  else print_trace_line key (buf +:+ strbuf_vaddf format ap).

Definition trace_argv_vprintf_fl (file : option string) (line : Z)
    (argv : list string) (format : string) (ap : list fmt_arg) : M unit :=
  r <- prepare_trace_line file line "GIT_TRACE" EmptyString ;;
  let (active, buf) := (r : bool * string) in
  if negb active then ret tt
  else
    print_trace_line "GIT_TRACE"
      (buf +:+ strbuf_vaddf format ap +:+ sq_quote_argv argv).

Definition trace_strbuf_fl (file : option string) (line : Z) (key : string)
    (data : string) : M unit :=
  r <- prepare_trace_line file line key EmptyString ;;
  let (active, buf) := (r : bool * string) in
  if negb active then ret tt
  else print_trace_line key (buf +:+ data).

Definition GIT_TRACE_PERFORMANCE : string := "GIT_TRACE_PERFORMANCE".

(** *** The double arithmetic of the performance line *)

Definition binary64_of_Z (n : Z) : spec_float := binary_normalize 53 1024 n 0 false.

(** [(double) nanos / 1000000000] *)
Definition nanos_to_seconds (nanos : Z) : spec_float :=
  SFdiv 53 1024 (binary64_of_Z nanos) (binary64_of_Z 1000000000).

(** [num / den] rounded to the nearest integer, ties to even. *)
Definition round_half_even (num den : Z) : Z :=
  let q := num / den in
  let r := num mod den in
  match 2 * r ?= den with
  | Lt => q
  | Gt => q + 1
  | Eq => if Z.even q then q else q + 1
  end.

(** The value of a finite double in units of 10^-9, rounded to nearest. *)
Definition billionths (m : positive) (e : Z) : Z :=
  if 0 <=? e then Z.pos m * 2 ^ e * 10 ^ 9
  else round_half_even (Z.pos m * 10 ^ 9) (2 ^ (- e)).

Definition sign_str (s : bool) : string := if s then "-" else EmptyString.

(** [%.9f] *)
Definition fmt_9f (x : spec_float) : string :=
  match x with
  | S754_zero s => sign_str s +:+ "0.000000000"
  | S754_infinity s => sign_str s +:+ "inf"
  | S754_nan => "nan"
  | S754_finite s m e =>
      let b := billionths m e in
      sign_str s +:+ dec (b / 10 ^ 9) +:+ "." +:+ digits_fixed 9 b
  end.

Definition trace_performance_vfl (file : option string) (line : Z) (nanos : Z)
    (format : option string) (ap : list fmt_arg) : M unit :=
  r <- prepare_trace_line file line GIT_TRACE_PERFORMANCE EmptyString ;;
  let (active, buf) := (r : bool * string) in
  if negb active then ret tt
  else
    let buf := buf +:+ "performance: " +:+ fmt_9f (nanos_to_seconds nanos)
                   +:+ " s" in
    let buf :=
      match format with
      | Some f =>
          if negb (Ascii.eqb (deref f) NUL)
          then buf +:+ ": " +:+ strbuf_vaddf f ap else buf
      | None => buf
      end in
    print_trace_line GIT_TRACE_PERFORMANCE buf.

(** *** The clock *)

(** [highres_nanos] where [clock_gettime] exists, the constant 0 elsewhere
    (the build for native Windows is not covered). *)
Definition highres_nanos : M Z :=
  if HAVE_CLOCK_GETTIME then
    r <- clock_gettime ;;
    match r with
    | None => ret 0
    | Some ts => ret (wrap64 (wrap64 (ts_sec ts) * 1000000000 + ts_nsec ts))
    end
  else ret 0.

Definition gettimeofday_nanos : M Z :=
  tv <- gettimeofday ;;
  ret (wrap64 (wrap64 (tv_sec tv) * 1000000000 + tv_usec tv * 1000)).

(** Returns nanoseconds since the epoch (01/01/1970), for performance
    tracing (i.e. favoring high precision over wall clock time accuracy). *)
Definition getnanotime : M Z :=
  offset <- gets g_offset ;;
  if 1 <? offset then
    (* initialization succeeded, return offset + high res time *)
    h <- highres_nanos ;;
    ret (wrap64 (offset + h))
  else if offset =? 1 then
    (* initialization failed, fall back to gettimeofday *)
    gettimeofday_nanos
  else
    (* initialize offset if high resolution timer works *)
    now <- gettimeofday_nanos ;;
    highres <- highres_nanos ;;
    (if negb (highres =? 0)
     then modify (set_offset (fun _ => wrap64 (now - highres)))
     else modify (set_offset (fun _ => 1))) ;;
    ret now.

(** *** The entry points *)

(** Without variadic macros. *)
Definition trace_printf (format : string) (ap : list fmt_arg) : M unit :=
  trace_vprintf_fl None 0 "GIT_TRACE" format ap.

Definition trace_printf_key (key : string) (format : string)
    (ap : list fmt_arg) : M unit :=
  trace_vprintf_fl None 0 key format ap.




Definition trace_performance_since (start : Z) (format : option string)
    (ap : list fmt_arg) : M Z :=
  now <- getnanotime ;;
  trace_performance_vfl None 0 (wrap64 (now - start)) format ap ;;
  getnanotime.

(** With variadic macros. *)
Definition trace_printf_key_fl (file : option string) (line : Z) (key : string)
    (format : string) (ap : list fmt_arg) : M unit :=
  trace_vprintf_fl file line key format ap.


Definition trace_performance_fl (file : option string) (line : Z) (nanos : Z)
    (format : option string) (ap : list fmt_arg) : M Z :=
  trace_performance_vfl file line nanos format ap ;;
  getnanotime.

(** Modelled from the spec: the macros of trace.h, which is not part of
    this file.  With variadic macros [trace_printf_key] and
    [trace_performance_since] are macros that pass the place of the call on
    to the [_fl] functions; the latter computes the time elapsed since
    [start], reports it and returns the current time stamp. *)
Definition call_trace_printf_key (line : Z) (key : string) (format : string)
    (ap : list fmt_arg) : M unit :=
  if HAVE_VARIADIC_MACROS
  then trace_printf_key_fl (Some "trace.c") line key format ap
  else trace_printf_key key format ap.

Definition call_trace_performance_since (line : Z) (start : Z)
    (format : option string) (ap : list fmt_arg) : M Z :=
  if HAVE_VARIADIC_MACROS
  then now <- getnanotime ;;
       trace_performance_fl (Some "trace.c") line (wrap64 (now - start)) format ap
  else trace_performance_since start format ap.

(** *** Timing of the whole command *)

(** [print_command_performance_atexit], called at line 405 of trace.c. *)
Definition print_command_performance_atexit : M unit :=
  start <- gets g_command_start_time ;;
  command_line <- gets g_command_line ;;
  call_trace_performance_since 405 start (Some "git command:%s")
    [ArgStr (Some command_line)] ;;
  ret tt.

Definition trace_command_performance (argv : list string) : M unit :=
  want <- trace_want GIT_TRACE_PERFORMANCE ;;
  if negb want then ret tt
  else
    start <- gets g_command_start_time ;;
    (if start =? 0 then atexit print_command_performance_atexit_hook
     else ret tt) ;;
    (* strbuf_reset, then sq_quote_argv into the emptied buffer *)
    modify (set_command_line (fun _ => EmptyString)) ;;
    modify (set_command_line (fun b => b +:+ sq_quote_argv argv)) ;;
    t <- getnanotime ;;
    modify (set_command_start_time (fun _ => t)).

Definition run_hook (h : hook) : M unit :=
  match h with
  | print_command_performance_atexit_hook => print_command_performance_atexit
  end.

Fixpoint run_hooks (hs : list hook) : M unit :=
  match hs with
  | [] => ret tt
  | h :: rest => run_hook h ;; run_hooks rest
  end.

(** Normal process exit: the registered functions run, last registered
    first. *)
Definition process_exit : M unit :=
  hs <- gets g_atexit ;;
  run_hooks (rev hs).

(** *** Reporting the repository setup *)

(** How a C function that can end the process or leave its buffer ends. *)
Inductive outcome (A : Type) :=
  | Done (a : A)
  | Died (msg : string)
  | Overrun.
Arguments Done {A} a.
Arguments Died {A} msg.
Arguments Overrun {A}.

(** [*p1++ = c] into [new_path]: [None] when [p1] is outside the array. *)
Definition store (buf : list ascii) (p1 : nat) (c : ascii) : option (list ascii * nat) :=
  if (p1 <? length buf)%nat then Some (<[p1 := c]> buf, S p1) else None.

(** The [while ( *p2 )] loop of [quote_crnl]. *)
Fixpoint quote_crnl_loop (p2 : string) (buf : list ascii) (p1 : nat)
    : option (list ascii * nat) :=
  match p2 with
  | EmptyString => Some (buf, p1)
  | String c rest =>
      if Ascii.eqb c NUL then Some (buf, p1)
      else
        let stored :=
          if Ascii.eqb c BACKSLASH then
            match store buf p1 BACKSLASH with
            | Some (b, p) => store b p BACKSLASH
            | None => None
            end
          else if Ascii.eqb c LF then
            match store buf p1 BACKSLASH with
            | Some (b, p) => store b p "n"%char
            | None => None
            end
          else if Ascii.eqb c CR then
            match store buf p1 BACKSLASH with
            | Some (b, p) => store b p "r"%char
            | None => None
            end
          else store buf p1 c in
        match stored with
        | Some (b, p) => quote_crnl_loop rest b p
        | None => None
        end
  end.

(** The C string an array holds: its bytes up to the first NUL. *)
Fixpoint cstring (buf : list ascii) : string :=
  match buf with
  | [] => EmptyString
  | c :: r => if Ascii.eqb c NUL then EmptyString else String c (cstring r)
  end.

(** [quote_crnl]: [Done None] is the NULL pointer, [Done (Some s)] the
    pointer to [new_path], which then holds the C string [s]; [Overrun] is
    a store outside [new_path]. *)
Definition quote_crnl (path : option string) : M (outcome (option string)) :=
  match path with
  | None => ret (Done None)
  | Some p =>
      buf <- gets g_new_path ;;
      match quote_crnl_loop p buf 0 with
      | None => ret Overrun
      | Some (b, p1) =>
          match store b p1 NUL with
          | None => ret Overrun
          | Some (b', _) =>
              modify (set_new_path (fun _ => b')) ;;
              ret (Done (Some (cstring b')))
          end
      end
  end.

(** [getcwd(cwd, size)]: NULL unless the directory and its terminator fit. *)
Definition getcwd (size : nat) : M (option string) :=
  logcall Getcwd ;;
  cwd <- gets (fun w => o_cwd (w_orc w)) ;;
  match cwd with
  | Some d => if (String.length d <? size)%nat then ret (Some d) else ret None
  | None => ret None
  end.

(** One line of [trace_repo_setup]: the value is quoted, then printed. *)
Definition setup_line (line : Z) (key : string) (format : string)
    (value : option string) (rest : M (outcome unit)) : M (outcome unit) :=
  q <- quote_crnl value ;;
  match q with
  | Done s => call_trace_printf_key line key format [ArgStr s] ;; rest
  | Died msg => ret (Died msg)
  | Overrun => ret Overrun
  end.

Definition trace_repo_setup (prefix : option string) : M (outcome unit) :=
  let key := "GIT_TRACE_SETUP" in
  want <- trace_want key ;;
  if negb want then ret (Done tt)
  else
    cwd <- getcwd PATH_MAX ;;
    match cwd with
    | None => ret (Died "Unable to get current working directory")
    | Some cwd =>
        orc <- gets w_orc ;;
        let git_work_tree :=
          match o_git_work_tree orc with
          | None => Some "(null)"
          | Some t => Some t
          end in
        let prefix :=
          match prefix with
          | None => Some "(null)"
          | Some p => Some p
          end in
        setup_line 301 key ("setup: git_dir: %s" +:+ nl) (o_git_dir orc)
        (setup_line 302 key ("setup: git_common_dir: %s" +:+ nl) (o_git_common_dir orc)
        (setup_line 303 key ("setup: worktree: %s" +:+ nl) git_work_tree
        (setup_line 304 key ("setup: cwd: %s" +:+ nl) (Some cwd)
        (setup_line 305 key ("setup: prefix: %s" +:+ nl) prefix
        (ret (Done tt))))))
    end.

End Trace.

Arguments Done {A} a.
Arguments Died {A} msg.
Arguments Overrun {A}.

(** ** The destinations of the specification *)

(** The sum type of the specification; [get_trace_fd] encodes it in its
    result and in [*need_close]. *)
Inductive Destination :=
  | Disabled
  | InheritedDescriptor (fd : Z)
  | OwnedFile (fd : Z).

Definition destination (r : Z * bool) : Destination :=
  let (fd, need_close) := r in
  if fd =? 0 then Disabled
  else if need_close then OwnedFile fd
  else InheritedDescriptor fd.

(** The tests [get_trace_fd] makes on the value of a key, in its order. *)
Definition is_disabling (v : string) : bool :=
  (strcmp v EmptyString =? 0) || (strcmp v "0" =? 0) || (strcasecmp v "false" =? 0).

Definition is_stderr_word (v : string) : bool :=
  (strcmp v "1" =? 0) || (strcasecmp v "true" =? 0).

Definition is_single_digit (v : string) : bool :=
  (strlen v =? 1) && isdigit (deref v).

(** The string made of the decimal digit [d]. *)
Definition digit_string (d : Z) : string := String (digit d) EmptyString.

(** ** A sample platform and sample worlds *)

Module Sample.

(** Modelled from the spec: [is_absolute_path] of cache.h on a POSIX system,
    an absolute pathname being one that starts with a slash. *)
Definition is_absolute_path (s : string) : bool :=
  match s with
  | String "/" _ => true
  | _ => false
  end.

Fixpoint sq_quote_body (s : string) : string :=
  match s with
  | EmptyString => EmptyString
  | String c r =>
      if Ascii.eqb c "'" || Ascii.eqb c "!"
      then "'\" +:+ String c ("'" +:+ sq_quote_body r)
      else String c (sq_quote_body r)
  end.

(** Modelled from the spec: [sq_quote_argv] of quote.c, the shell-quoted
    rendering of an argument vector: every argument preceded by a space and
    wrapped in single quotes. *)
Fixpoint sq_quote_argv (argv : list string) : string :=
  match argv with
  | [] => EmptyString
  | a :: r => " '" +:+ sq_quote_body a +:+ "'" +:+ sq_quote_argv r
  end.

(** Modelled from the spec: [strbuf_vaddf] of strbuf.c, printf-style
    formatting, here with the conversions %s, %d and %%. *)
Fixpoint strbuf_vaddf (format : string) (ap : list fmt_arg) : string :=
  match format with
  | String "%" (String "s" r) =>
      match ap with
      | ArgStr s :: ap' => str_arg s +:+ strbuf_vaddf r ap'
      | _ => strbuf_vaddf r (tail ap)
      end
  | String "%" (String "d" r) =>
      match ap with
      | ArgInt z :: ap' => dec z +:+ strbuf_vaddf r ap'
      | _ => strbuf_vaddf r (tail ap)
      end
  | String "%" (String "%" r) => String "%" (strbuf_vaddf r ap)
  | String c r => String c (strbuf_vaddf r ap)
  | EmptyString => EmptyString
  end.

Definition strerror (e : Z) : string :=
  if e =? 2 then "No such file or directory"
  else if e =? 9 then "Bad file descriptor"
  else if e =? 13 then "Permission denied"
  else if e =? 28 then "No space left on device"
  else "Unknown error " +:+ dec e.

(** Local time in the UTC zone. *)
Definition localtime_r (secs : Z) : tm :=
  {| tm_hour := (secs / 3600) mod 24;
     tm_min := (secs / 60) mod 60;
     tm_sec := secs mod 60 |}.

Definition platform (variadic : bool) : Platform :=
  Build_Platform variadic true 4096%nat is_absolute_path sq_quote_argv
    strbuf_vaddf strerror localtime_r.

(** Noon and later for the wall clock, one reading per second; a machine
    that has been up for 1000 seconds for the monotonic clock. *)
Definition clocks : oracle :=
  {| o_wall := fun n => {| tv_sec := 43200 + Z.of_nat n; tv_usec := 0 |};
     o_mono := fun n => Some {| ts_sec := 1000 + Z.of_nat n; ts_nsec := 0 |};
     o_noopen := ∅;
     o_wfault := ∅;
     o_cwd := Some "/work";
     o_git_dir := Some ".git";
     o_git_common_dir := Some ".git";
     o_git_work_tree := None |}.

(** Standard input, output and error are open. *)
Definition std_fdt : gmap Z fdesc :=
  <[0 := FdStream]> (<[1 := FdStream]> (<[2 := FdStream]> ∅)).

(** A process that has just started. *)
Definition start (orc : oracle) (env : gmap string string)
    (fdt : gmap Z fdesc) : world :=
  {| w_orc := orc; w_env := env; w_files := ∅; w_fdt := fdt; w_out := [];
     w_log := []; w_wall_n := 0; w_mono_n := 0; w_errno := 0;
     g_offset := 0; g_command_start_time := 0;
     g_command_line := EmptyString; g_atexit := [];
     g_new_path := replicate 4096 NUL |}.

(** The sample process with one variable in its environment. *)
Definition with_var (key value : string) : world :=
  start clocks (<[key := value]> ∅) std_fdt.

End Sample.

(** ** Reading the outcome of a run *)

(** All the bytes written to the stream [fd], in order. *)
Fixpoint written_to (fd : Z) (out : list (Z * string)) : string :=
  match out with
  | [] => EmptyString
  | (f, data) :: rest =>
      if f =? fd then data +:+ written_to fd rest else written_to fd rest
  end.

(** The three lines [get_trace_fd] prints for a value it cannot read. *)
Definition malformed_diagnostic (key v : string) : list string :=
  [ "What does '" +:+ v +:+ "' for " +:+ key +:+ " mean?" +:+ nl;
    "If you want to trace into a file, then please set " +:+ key
      +:+ " to an absolute pathname (starting with /)." +:+ nl;
    "Defaulting to tracing on stderr..." +:+ nl ].

(** The flags [get_trace_fd] opens a trace file with. *)
Definition trace_open_flags : list open_flag := [O_WRONLY; O_APPEND; O_CREAT].

(** The diagnostic of a failed write. *)
Definition write_error_text `{Platform} (e : Z) : string :=
  err_msg +:+ ": write error (" +:+ strerror e +:+ ")" +:+ nl.

(** What a trace call leaves in the file [path]: the bytes [data] after what
    the file held, the file being created when missing. *)
Definition appended (path data : string) (fs : gmap string string)
    : gmap string string :=
  <[path := default EmptyString (fs !! path) +:+ data]> fs.

(** Standard input closed, standard output and error open. *)
Definition no_stdin_fdt : gmap Z fdesc :=
  <[1 := FdStream]> (<[2 := FdStream]> ∅).

(** ** The values that switch a key off, in the words of the specification *)

Fixpoint lower (s : string) : string :=
  match s with
  | EmptyString => EmptyString
  | String c r => String (tolower c) (lower r)
  end.


(** ** The parts of a trace line *)

Section LineParts.
Context {P : Platform}.

(** The time stamp [prepare_trace_line] prints. *)
Definition time_stamp (tv : timeval) : string :=
  let t := localtime_r (tv_sec tv) in
  fmt_0d 2 (tm_hour t) +:+ ":" +:+ fmt_0d 2 (tm_min t) +:+ ":"
  +:+ fmt_0d 2 (tm_sec t) +:+ "." +:+ fmt_0d 6 (tv_usec tv) +:+ " ".

(** The file:line tag, printed only with variadic macros. *)
Definition location_tag (file : option string) (line : Z) : string :=
  if HAVE_VARIADIC_MACROS
  then str_arg file +:+ ":" +:+ dec line +:+ " "
  else EmptyString.

(** What an active [prepare_trace_line] leaves in an empty buffer. *)
Definition line_prefix (file : option string) (line : Z) (tv : timeval) : string :=
  time_stamp tv +:+ location_tag file line.

(** The world after an active [prepare_trace_line]. *)
Definition prepared (key : string) (w : world) : world :=
  set_wall_n S (set_log (fun l => l ++ [Getenv key; Gettimeofday]) w).

(** What [trace_performance_vfl] prints after the prefix. *)
Definition performance_payload (nanos : Z) (format : option string)
    (ap : list fmt_arg) : string :=
  "performance: " +:+ fmt_9f (nanos_to_seconds nanos) +:+ " s"
  +:+ match format with
      | Some f =>
          if negb (Ascii.eqb (deref f) NUL)
          then ": " +:+ strbuf_vaddf f ap else EmptyString
      | None => EmptyString
      end.

End LineParts.

(** ** The clock, as the specification speaks of it *)

(** The three states of the specification, read off the [static] offset:
    0 is "not yet calibrated", 1 is "calibration failed", anything above is
    the offset of a successful calibration. *)
Inductive clock_state :=
  | Uninitialized
  | Calibrated (offset : Z)
  | Failed.

Definition clock_state_of (w : world) : clock_state :=
  if 1 <? g_offset w then Calibrated (g_offset w)
  else if g_offset w =? 1 then Failed
  else Uninitialized.

Section ClockReadings.
Context {P : Platform}.

(** What the next [gettimeofday_nanos] returns, and the world after it. *)
Definition next_wall (w : world) : Z :=
  let tv := o_wall (w_orc w) (w_wall_n w) in
  wrap64 (wrap64 (tv_sec tv) * 1000000000 + tv_usec tv * 1000).

Definition tick_wall (w : world) : world :=
  set_wall_n S (set_log (fun l => l ++ [Gettimeofday]) w).

(** What the next [highres_nanos] returns, and the world after it. *)
Definition next_highres (w : world) : Z :=
  if HAVE_CLOCK_GETTIME then
    match o_mono (w_orc w) (w_mono_n w) with
    | None => 0
    | Some ts => wrap64 (wrap64 (ts_sec ts) * 1000000000 + ts_nsec ts)
    end
  else 0.

Definition tick_mono (w : world) : world :=
  if HAVE_CLOCK_GETTIME
  then set_mono_n S (set_log (fun l => l ++ [ClockGettime]) w)
  else w.

(** The world after [n] calls of [getnanotime]. *)
Fixpoint after_calls (n : nat) (w : world) : world :=
  match n with
  | O => w
  | S k => after_calls k (snd (getnanotime w))
  end.

End ClockReadings.

Module Drift.

(** A machine whose wall clock and monotonic clock both read 5 seconds at
    the first call, as one without a battery-backed clock does shortly
    after it starts; the wall clock then advances by 2 seconds a reading,
    the monotonic clock by 1. *)
Definition clocks : oracle :=
  {| o_wall := fun n => {| tv_sec := 5 + 2 * Z.of_nat n; tv_usec := 0 |};
     o_mono := fun n => Some {| ts_sec := 5 + Z.of_nat n; ts_nsec := 0 |};
     o_noopen := ∅;
     o_wfault := ∅;
     o_cwd := None;
     o_git_dir := None;
     o_git_common_dir := None;
     o_git_work_tree := None |}.

(** A machine whose wall clock is 1 ns ahead of its monotonic clock at
    every reading: 5 s and 1 us against 5 s and 999 ns. *)
Definition clocks_one_apart : oracle :=
  {| o_wall := fun n => {| tv_sec := 5 + Z.of_nat n; tv_usec := 1 |};
     o_mono := fun n => Some {| ts_sec := 5 + Z.of_nat n; ts_nsec := 999 |};
     o_noopen := ∅;
     o_wfault := ∅;
     o_cwd := None;
     o_git_dir := None;
     o_git_common_dir := None;
     o_git_work_tree := None |}.

End Drift.

(** ** The command timer *)

Section CommandTimer.
Context {P : Platform}.

(** The world in which an active [trace_command_performance] reads the
    clock: the key looked up, the exit hook registered if the start time
    was 0, the command line replaced by the quoted [argv]. *)
Definition command_line_recorded (argv : list string) (w : world) : world :=
  let w1 := set_log (fun l => l ++ [Getenv GIT_TRACE_PERFORMANCE]) w in
  let w2 := if g_command_start_time w =? 0
            then snd (atexit print_command_performance_atexit_hook w1)
            else w1 in
  set_command_line (fun _ => sq_quote_argv argv) w2.

End CommandTimer.

(** ** Escaping, in the words of the specification *)

(** A backslash becomes two backslashes, a newline backslash-n, a carriage
    return backslash-r; every other byte stays. *)
Definition escape_char (c : ascii) : string :=
  if Ascii.eqb c BACKSLASH then String BACKSLASH (String BACKSLASH EmptyString)
  else if Ascii.eqb c LF then String BACKSLASH (String "n" EmptyString)
  else if Ascii.eqb c CR then String BACKSLASH (String "r" EmptyString)
  else String c EmptyString.

(** The escaped form of a C string (which ends at its first NUL). *)
Fixpoint escape (s : string) : string :=
  match s with
  | EmptyString => EmptyString
  | String c r =>
      if Ascii.eqb c NUL then EmptyString else escape_char c +:+ escape r
  end.

(** Storing the bytes [cs] one after the other from index [p1] on. *)
Fixpoint store_all (buf : list ascii) (p1 : nat) (cs : list ascii)
    : option (list ascii * nat) :=
  match cs with
  | [] => Some (buf, p1)
  | c :: r =>
      match store buf p1 c with
      | Some (b, p) => store_all b p r
      | None => None
      end
  end.

(** ** The seconds of a duration, in the words of the specification *)

(** [D / 10^9] written out: the whole seconds, a point, and the nine digits
    of the billionths. *)
Definition seconds_text (D : Z) : string :=
  dec (D / 10 ^ 9) +:+ "." +:+ digits_fixed 9 (D mod 10 ^ 9).

(** The mantissa of the double 10^9. *)
Definition ten9_mantissa : positive := 8388608000000000.

(** The longest whole number of nanoseconds below 2^23 seconds, where the
    spacing of doubles grows from 2^-30 to 2^-29 seconds. *)
Definition exact_below : Z := 8388608 * 10 ^ 9.

(** ** Reading quoted paths *)

(** The C string a [const char *] denotes: the bytes before the first NUL. *)
Fixpoint until_nul (s : string) : string :=
  match s with
  | EmptyString => EmptyString
  | String c r => if Ascii.eqb c NUL then EmptyString else String c (until_nul r)
  end.

(** Reading the escapes of [quote_crnl] back: a backslash stands with the
    byte after it for one byte. *)
Fixpoint unescape (s : string) : string :=
  match s with
  | EmptyString => EmptyString
  | String c r =>
      if Ascii.eqb c BACKSLASH then
        match r with
        | String d r' =>
            String (if Ascii.eqb d "n" then LF
                    else if Ascii.eqb d "r" then CR else d) (unescape r')
        | EmptyString => String c EmptyString
        end
      else String c (unescape r)
  end.

(** A byte [quote_crnl] copies as it is. *)
Definition plain (c : ascii) : bool :=
  negb (Ascii.eqb c BACKSLASH || Ascii.eqb c LF || Ascii.eqb c CR).

(** ** The report of the repository setup *)

Section SetupReport.
Context {P : Platform}.





End SetupReport.

(** ** The clock of native Windows *)

(** The variant of [highres_nanos] for [GIT_WINDOWS_NATIVE], which the
    platform switch of the embedding above leaves out; it is modelled on
    its own, over its three [static] variables. *)

Module Windows.

(** The halves of a [LARGE_INTEGER] whose [QuadPart] is the signed 64-bit
    [q]: [LowPart] is a [DWORD], [HighPart] a [LONG]. *)
Definition LowPart (q : Z) : Z := q mod 2 ^ 32.
Definition HighPart (q : Z) : Z := q / 2 ^ 32.

(** The [static] variables of [highres_nanos], zero when the program
    starts. *)
Record statics := {
  high_ns : Z;
  scaled_low_ns : Z;
  scale : Z;
}.

Definition zeroed : statics := {| high_ns := 0; scaled_low_ns := 0; scale := 0 |}.

(** How a call ends: with a value, in a division by zero, or with the loop
    still running when the fuel is used up. *)
Inductive result (A : Type) :=
  | Returns (a : A)
  | DivisionByZero
  | Unfinished.
Arguments Returns {A} a.
Arguments DivisionByZero {A}.
Arguments Unfinished {A}.

(** [while (scaled_low_ns >= 0x100000000LL) { scaled_low_ns >>= 1; scale--; }] *)
Fixpoint scale_down (fuel : nat) (scaled_low_ns scale : Z) : option (Z * Z) :=
  if 4294967296 <=? scaled_low_ns then
    match fuel with
    | O => None
    | S fuel => scale_down fuel (Z.shiftr scaled_low_ns 1) (scale - 1)
    end
  else Some (scaled_low_ns, scale).

(** [(high_ns * cnt.HighPart) + ((scaled_low_ns * cnt.LowPart) >> scale)]
    in [uint64_t]. *)
Definition scaled_count (st : statics) (cnt : Z) : Z :=
  wrap64 (wrap64 (high_ns st * wrap64 (HighPart cnt))
          + Z.shiftr (wrap64 (scaled_low_ns st * LowPart cnt)) (scale st)).

(** [highres_nanos] of the build for native Windows.  [frequency] is what
    [QueryPerformanceFrequency] stores, [None] when it fails; [cnt] is what
    [QueryPerformanceCounter] stores, the call the code expects to work. *)
Definition highres_nanos (frequency : option Z) (cnt : Z) (st : statics)
    : result (Z * statics) :=
  if scale st =? 0 then
    match frequency with
    | None => Returns (0, st)
    | Some f =>
        if wrap64 f =? 0 then DivisionByZero
        else
          (* high_ns = number of ns per cnt.HighPart *)
          let high := Z.shiftl 1000000000 32 / wrap64 f in
          match scale_down 64 high 32 with
          | None => Unfinished
          | Some (low, sc) =>
              let st' := {| high_ns := high; scaled_low_ns := low; scale := sc |} in
              Returns (scaled_count st' cnt, st')
          end
    end
  else Returns (scaled_count st cnt, st).

End Windows.

(** ** A sample process whose trace file cannot be opened *)

Module Unwritable.

(** The clocks of [Sample], in a place where "/nowhere/t.log" cannot be
    opened (ENOENT) and no working directory can be had. *)
Definition places : oracle :=
  {| o_wall := o_wall Sample.clocks;
     o_mono := o_mono Sample.clocks;
     o_noopen := <["/nowhere/t.log" := 2]> ∅;
     o_wfault := ∅;
     o_cwd := None;
     o_git_dir := None;
     o_git_common_dir := None;
     o_git_work_tree := None |}.

Definition with_var (key value : string) : world :=
  Sample.start places (<[key := value]> ∅) Sample.std_fdt.

End Unwritable.

(** ** Running the definitions *)

(** Naming the world a [fprintf] leaves, innermost call first. *)
Ltac step_fprintf :=
  match goal with
  | |- context [fprintf_stderr ?t ?w] =>
      first [is_var w
            | match w with Build_world _ _ _ _ _ _ _ _ _ _ _ _ _ _ => idtac end];
      destruct (fprintf_stderr t w) as [[] ?]; cbn [snd]
  end.

Ltac run :=
  cbv beta iota delta
    [bind ret gets modify logcall getenv gettimeofday clock_gettime
     atexit sys_close];
  cbn beta iota.

Section Resolution.
Context {P : Platform}.

Lemma digit_string_cases (d : Z) :
  0 <= d <= 9 ->
  d = 0 \/ d = 1 \/ d = 2 \/ d = 3 \/ d = 4 \/ d = 5 \/ d = 6 \/ d = 7
  \/ d = 8 \/ d = 9.
Proof. lia. Qed.

(** What the tests of [get_trace_fd] answer on a one-digit value. *)
Lemma digit_string_tests (d : Z) :
  0 <= d <= 9 ->
  is_disabling (digit_string d) = (d =? 0)
  /\ is_stderr_word (digit_string d) = (d =? 1)
  /\ is_single_digit (digit_string d) = true
  /\ atoi (digit_string d) = d.
Proof.
  intros H. destruct (digit_string_cases d H) as [-> | [-> | [-> | [-> | [-> |
    [-> | [-> | [-> | [-> | ->]]]]]]]]]; vm_compute; auto.
Qed.

Lemma get_trace_fd_unfold (key : string) (nc : bool) (w : world) (v : string) :
  w_env w !! key = Some v ->
  get_trace_fd key nc w =
    let w1 := set_log (fun l => l ++ [Getenv key]) w in
    if is_disabling v then ((0, nc), w1)
    else if is_stderr_word v then ((STDERR_FILENO, nc), w1)
    else if is_single_digit v then ((atoi v, nc), w1)
    else if is_absolute_path v then
      let (fd, w2) := sys_open v [O_WRONLY; O_APPEND; O_CREAT] 438 w1 in
      if fd =? -1 then
        ((STDERR_FILENO, nc),
         snd (fprintf_stderr
                ("Could not open '" +:+ v +:+ "' for tracing: "
                 +:+ strerror (w_errno w2) +:+ nl
                 +:+ "Defaulting to tracing on stderr..." +:+ nl) w2))
      else ((fd, true), w2)
    else
      ((STDERR_FILENO, nc),
       snd (fprintf_stderr ("Defaulting to tracing on stderr..." +:+ nl)
         (snd (fprintf_stderr
                 ("If you want to trace into a file, then please set " +:+ key
                  +:+ " to an absolute pathname (starting with /)." +:+ nl)
            (snd (fprintf_stderr
                    ("What does '" +:+ v +:+ "' for " +:+ key +:+ " mean?" +:+ nl)
                    w1)))))).
Proof.
  intros Hv. unfold get_trace_fd, is_disabling, is_stderr_word, is_single_digit.
  destruct w; simpl in *. run. simpl. rewrite Hv.
  destruct (_ || _); [reflexivity |].
  destruct (_ || _); [reflexivity |].
  destruct (_ && _); [reflexivity |].
  destruct (is_absolute_path v).
  - destruct (sys_open _ _ _ _) as [fd w2]. destruct (fd =? -1); [| reflexivity].
    by step_fprintf.
  - by repeat step_fprintf.
Qed.

(** What [fprintf(stderr, ...)] does with descriptor 2 a working stream,
    and with descriptor 2 closed. *)
Lemma fprintf_stderr_stream (text : string) (w : world) :
  w_fdt w !! STDERR_FILENO = Some FdStream ->
  o_wfault (w_orc w) !! STDERR_FILENO = None ->
  fprintf_stderr text w
  = (tt, set_out (fun o => o ++ [(STDERR_FILENO, text)])
           (set_log (fun l => l ++ [Fprintf text]) w)).
Proof.
  intros Hfd Hok. unfold fprintf_stderr. destruct w; simpl in *. run. simpl.
  by rewrite Hfd, Hok.
Qed.

Lemma fprintf_stderr_closed (text : string) (w : world) :
  w_fdt w !! STDERR_FILENO = None ->
  fprintf_stderr text w
  = (tt, set_errno (fun _ => EBADF) (set_log (fun l => l ++ [Fprintf text]) w)).
Proof.
  intros Hfd. unfold fprintf_stderr. destruct w; simpl in *. run. simpl.
  by rewrite Hfd.
Qed.

(** Whatever descriptor 2 is, the call is made, and it changes neither the
    environment nor what the operating system will answer. *)
Lemma fprintf_stderr_log (text : string) (w : world) :
  w_log (snd (fprintf_stderr text w)) = w_log w ++ [Fprintf text]
  /\ w_env (snd (fprintf_stderr text w)) = w_env w
  /\ w_orc (snd (fprintf_stderr text w)) = w_orc w.
Proof.
  unfold fprintf_stderr. destruct w; simpl in *. run. simpl.
  destruct (w_fdt0 !! STDERR_FILENO) as [d |]; [| done].
  destruct (o_wfault w_orc0 !! STDERR_FILENO) as [[k e] |]; by destruct d.
Qed.

End Resolution.

Section DigitValues.
Context {P : Platform}.

Lemma set_log_twice (a b : syscall) (w : world) :
  set_log (fun l => l ++ [b]) (set_log (fun l => l ++ [a]) w)
  = set_log (fun l => l ++ [a; b]) w.
Proof. destruct w; simpl. by rewrite <- app_assoc. Qed.

(** Writing to an open stream on which no write fails. *)
Lemma write_or_whine_pipe_stream (fd : Z) (buf msg : string) (w : world) :
  w_fdt w !! fd = Some FdStream ->
  o_wfault (w_orc w) !! fd = None ->
  write_or_whine_pipe fd buf msg w
  = (1, set_out (fun o => o ++ [(fd, buf)])
          (set_log (fun l => l ++ [WriteFd fd buf]) w)).
Proof.
  intros Hfd Hok. unfold write_or_whine_pipe, write_in_full.
  destruct w; simpl in *. run. simpl. rewrite Hfd, Hok. simpl.
  unfold strlen. destruct (Z.ltb_spec (Z.of_nat (String.length buf)) 0); [lia | done].
Qed.

(** C1, as the code has it: a one-digit value names the descriptor to write
    to only from "2" to "9"; "0" switches the key off and "1" stands for
    standard error.  The descriptor is taken as it is (no open, no close),
    and the line is written to it. *)
Theorem get_trace_fd_single_digit (key : string) (nc : bool) (w : world)
    (d : Z) (buf : string) :
  0 <= d <= 9 ->
  w_env w !! key = Some (digit_string d) ->
  let w1 := set_log (fun l => l ++ [Getenv key]) w in
  get_trace_fd key nc w
    = ((if d =? 0 then 0 else if d =? 1 then STDERR_FILENO else d, nc), w1)
  /\ (2 <= d ->
      destination (fst (get_trace_fd key false w)) = InheritedDescriptor d
      /\ do_trace_print key buf w
         = (tt, snd (write_or_whine_pipe d buf err_msg w1))
      /\ (w_fdt w !! d = Some FdStream ->
          o_wfault (w_orc w) !! d = None ->
          do_trace_print key buf w
          = (tt, set_out (fun o => o ++ [(d, buf)])
                   (set_log (fun l => l ++ [Getenv key; WriteFd d buf]) w))))
  /\ (d = 0 ->
      destination (fst (get_trace_fd key false w)) = Disabled
      /\ do_trace_print key buf w = (tt, w1))
  /\ (d = 1 ->
      destination (fst (get_trace_fd key false w))
      = InheritedDescriptor STDERR_FILENO).
Proof.
  intros Hd Hv w1.
  destruct (digit_string_tests d Hd) as (Hdis & Hone & Hdig & Hatoi).
  assert (Hget : forall nc', get_trace_fd key nc' w
            = ((if d =? 0 then 0 else if d =? 1 then STDERR_FILENO else d, nc'), w1)).
  { intros nc'. rewrite (get_trace_fd_unfold key nc' w _ Hv).
    cbv zeta. rewrite Hdis, Hone, Hdig, Hatoi.
    destruct (d =? 0); [done |]. destruct (d =? 1); done. }
  split; [apply Hget |]. split; [| split].
  - intros H2. unfold do_trace_print, bind. rewrite !Hget.
    assert ((d =? 0) = false) as -> by lia. assert ((d =? 1) = false) as -> by lia.
    cbn [fst destination]. assert ((d =? 0) = false) as -> by lia.
    split; [done |]. split.
    + destruct (write_or_whine_pipe d buf err_msg w1); reflexivity.
    + intros Hfd Hok.
      rewrite (write_or_whine_pipe_stream d buf err_msg w1).
      * unfold w1, ret. by rewrite set_log_twice.
      * unfold w1. by destruct w.
      * unfold w1. by destruct w.
  - intros ->. unfold do_trace_print, bind. rewrite !Hget. done.
  - intros ->. rewrite Hget. done.
Qed.

End DigitValues.

Lemma get_trace_fd_single_digit_witness :
  let w := Sample.with_var "GIT_TRACE" "7" in
  0 <= 7 <= 9
  /\ w_env w !! "GIT_TRACE" = Some (digit_string 7)
  /\ destination (fst (get_trace_fd (P := Sample.platform false) "GIT_TRACE" false w))
     = InheritedDescriptor 7.
Proof.
  assert (H1 : 0 <= 7 <= 9) by lia.
  assert (H2 : w_env (Sample.with_var "GIT_TRACE" "7") !! "GIT_TRACE"
               = Some (digit_string 7)) by reflexivity.
  split; [exact H1 |]. split; [exact H2 |].
  apply (get_trace_fd_single_digit (P := Sample.platform false)
           "GIT_TRACE" false _ 7 EmptyString H1 H2).
  lia.
Defined.

(** C1 as it is stated fails at "0" and at "1": neither value resolves to
    the descriptor of that number. *)
Lemma digit_zero_one_counterexample :
  destination (fst (get_trace_fd (P := Sample.platform false) "GIT_TRACE" false
                      (Sample.with_var "GIT_TRACE" "0")))
  <> InheritedDescriptor 0
  /\ destination (fst (get_trace_fd (P := Sample.platform false) "GIT_TRACE" false
                         (Sample.with_var "GIT_TRACE" "1")))
     <> InheritedDescriptor 1.
Proof. split; vm_compute; discriminate. Qed.

Section Malformed.
Context {P : Platform}.

Lemma count_nl_app (a b : string) :
  count_nl (a +:+ b) = (count_nl a + count_nl b)%nat.
Proof. induction a as [| c a IH]; simpl; [done |]. rewrite IH. lia. Qed.

(** The newlines of the three texts: one each, and those of the value and
    of the key, which are printed as they are (the key twice). *)
Lemma malformed_diagnostic_newlines (key v : string) :
  count_nl (written_to STDERR_FILENO
              (map (fun l => (STDERR_FILENO, l)) (malformed_diagnostic key v)))
  = (3 + count_nl v + 2 * count_nl key)%nat.
Proof.
  unfold malformed_diagnostic. cbn [map written_to].
  rewrite Z.eqb_refl.
  repeat (progress (rewrite ?count_nl_app; cbn [count_nl Ascii.eqb Bool.eqb nl LF])).
  simpl. lia.
Qed.

(** C5, as the code has it: for a malformed value [get_trace_fd] makes
    three calls of [fprintf(stderr, ...)] (the question, the advice to use
    an absolute pathname, and the notice of the fallback) and returns
    standard error with [need_close] as it was.  The three texts end in a
    newline each and print the value and the key as they are, so they make
    three lines exactly when neither holds a newline.  With descriptor 2 a
    working stream the three texts reach it and no file or descriptor
    changes; with descriptor 2 closed nothing is written anywhere. *)
Theorem get_trace_fd_malformed (key : string) (nc : bool) (w : world) (v : string) :
  w_env w !! key = Some v ->
  is_disabling v = false ->
  is_stderr_word v = false ->
  is_single_digit v = false ->
  is_absolute_path v = false ->
  let r := get_trace_fd key nc w in
  let texts := malformed_diagnostic key v in
  let lines := count_nl (written_to STDERR_FILENO
                           (map (fun l => (STDERR_FILENO, l)) texts)) in
  fst r = (STDERR_FILENO, nc)
  /\ (nc = false -> destination (fst r) = InheritedDescriptor STDERR_FILENO)
  /\ w_log (snd r) = w_log w ++ Getenv key :: map Fprintf texts
  /\ lines = (3 + count_nl v + 2 * count_nl key)%nat
  /\ (lines = 3%nat <-> count_nl v = 0%nat /\ count_nl key = 0%nat)
  /\ (w_fdt w !! STDERR_FILENO = Some FdStream ->
      o_wfault (w_orc w) !! STDERR_FILENO = None ->
      w_out (snd r) = w_out w ++ map (fun l => (STDERR_FILENO, l)) texts
      /\ w_fdt (snd r) = w_fdt w /\ w_files (snd r) = w_files w)
  /\ (w_fdt w !! STDERR_FILENO = None ->
      w_out (snd r) = w_out w
      /\ w_fdt (snd r) = w_fdt w /\ w_files (snd r) = w_files w).
Proof.
  intros Hv H1 H2 H3 H4 r texts lines.
  assert (Hr : r = ((STDERR_FILENO, nc),
                    snd (fprintf_stderr ("Defaulting to tracing on stderr..." +:+ nl)
                      (snd (fprintf_stderr
                              ("If you want to trace into a file, then please set "
                               +:+ key
                               +:+ " to an absolute pathname (starting with /)." +:+ nl)
                         (snd (fprintf_stderr
                                 ("What does '" +:+ v +:+ "' for " +:+ key
                                  +:+ " mean?" +:+ nl)
                                 (set_log (fun l => l ++ [Getenv key]) w)))))))).
  { unfold r. rewrite (get_trace_fd_unfold key nc w v Hv). cbv zeta.
    by rewrite H1, H2, H3, H4. }
  pose proof (malformed_diagnostic_newlines key v) as Hlines.
  fold texts in Hlines. fold lines in Hlines.
  split; [by rewrite Hr |]. split; [by rewrite Hr; intros -> |].
  split; [| split; [exact Hlines | split; [rewrite Hlines; lia | split]]].
  - rewrite Hr. cbn [snd].
    set (wa := set_log (fun l => l ++ [Getenv key]) w).
    destruct (fprintf_stderr_log
                ("What does '" +:+ v +:+ "' for " +:+ key +:+ " mean?" +:+ nl) wa)
      as (L1 & _).
    set (wb := snd (fprintf_stderr _ wa)) in *.
    destruct (fprintf_stderr_log
                ("If you want to trace into a file, then please set " +:+ key
                 +:+ " to an absolute pathname (starting with /)." +:+ nl) wb)
      as (L2 & _).
    set (wc := snd (fprintf_stderr _ wb)) in *.
    destruct (fprintf_stderr_log ("Defaulting to tracing on stderr..." +:+ nl) wc)
      as (L3 & _).
    rewrite L3, L2, L1. unfold wa, texts, malformed_diagnostic.
    destruct w; simpl. by rewrite <- !app_assoc.
  - intros Hfd Hok. rewrite Hr. cbn [snd].
    rewrite (fprintf_stderr_stream
               ("What does '" +:+ v +:+ "' for " +:+ key +:+ " mean?" +:+ nl))
      by (by destruct w).
    cbn [snd].
    rewrite (fprintf_stderr_stream
               ("If you want to trace into a file, then please set " +:+ key
                +:+ " to an absolute pathname (starting with /)." +:+ nl))
      by (by destruct w).
    cbn [snd].
    rewrite (fprintf_stderr_stream ("Defaulting to tracing on stderr..." +:+ nl))
      by (by destruct w).
    unfold texts, malformed_diagnostic. destruct w; simpl.
    repeat split. by rewrite <- !app_assoc.
  - intros Hfd. rewrite Hr. cbn [snd].
    rewrite (fprintf_stderr_closed
               ("What does '" +:+ v +:+ "' for " +:+ key +:+ " mean?" +:+ nl))
      by (by destruct w).
    cbn [snd].
    rewrite (fprintf_stderr_closed
               ("If you want to trace into a file, then please set " +:+ key
                +:+ " to an absolute pathname (starting with /)." +:+ nl))
      by (by destruct w).
    cbn [snd].
    rewrite (fprintf_stderr_closed ("Defaulting to tracing on stderr..." +:+ nl))
      by (by destruct w).
    by destruct w.
Qed.

End Malformed.

Lemma get_trace_fd_malformed_witness :
  let w := Sample.with_var "GIT_TRACE" "banana" in
  let r := get_trace_fd (P := Sample.platform false) "GIT_TRACE" false w in
  w_env w !! "GIT_TRACE" = Some "banana"
  /\ is_disabling "banana" = false
  /\ is_stderr_word "banana" = false
  /\ is_single_digit "banana" = false
  /\ is_absolute_path (Platform := Sample.platform false) "banana" = false
  /\ fst r = (STDERR_FILENO, false)
  /\ w_log (snd r)
     = w_log w ++ Getenv "GIT_TRACE"
         :: map Fprintf (malformed_diagnostic "GIT_TRACE" "banana")
  /\ count_nl (written_to STDERR_FILENO
                 (map (fun l => (STDERR_FILENO, l))
                    (malformed_diagnostic "GIT_TRACE" "banana")))
     = (3 + count_nl "banana" + 2 * count_nl "GIT_TRACE")%nat.
Proof.
  assert (H0 : w_env (Sample.with_var "GIT_TRACE" "banana") !! "GIT_TRACE"
               = Some "banana") by reflexivity.
  assert (H1 : is_disabling "banana" = false) by reflexivity.
  assert (H2 : is_stderr_word "banana" = false) by reflexivity.
  assert (H3 : is_single_digit "banana" = false) by reflexivity.
  assert (H4 : is_absolute_path (Platform := Sample.platform false) "banana" = false)
    by reflexivity.
  pose proof (get_trace_fd_malformed (P := Sample.platform false)
                "GIT_TRACE" false _ "banana" H0 H1 H2 H3 H4) as H.
  cbv zeta in H. destruct H as (Ha & _ & Hb & Hc & _).
  intros w r.
  split; [exact H0 |]. split; [exact H1 |]. split; [exact H2 |].
  split; [exact H3 |]. split; [exact H4 |].
  split; [exact Ha |]. split; [exact Hb | exact Hc].
Defined.

(** C5 as it is stated fails at "banana": what reaches standard error has
    three lines, not two. *)
Lemma malformed_two_lines_counterexample :
  count_nl (written_to STDERR_FILENO
              (w_out (snd (get_trace_fd (P := Sample.platform false) "GIT_TRACE" false
                             (Sample.with_var "GIT_TRACE" "banana")))))
  <> 2%nat.
Proof. vm_compute. discriminate. Qed.

(** ** Descriptors of the process *)

Section Descriptors.

Lemma lowest_free_ge (t : gmap Z fdesc) (fuel : nat) (n : Z) :
  n <= lowest_free t fuel n.
Proof.
  revert n. induction fuel as [| fuel IH]; intros n; simpl; [lia |].
  destruct (t !! n); [| lia]. specialize (IH (n + 1)). lia.
Qed.

(** With as much fuel as there are descriptors at or above [n] in use, the
    search ends on a free one. *)
Lemma lowest_free_None (fuel : nat) :
  forall (m t : gmap Z fdesc) (n : Z),
    (forall k, is_Some (m !! k) -> n <= k) ->
    (forall k, n <= k -> t !! k = m !! k) ->
    (size m <= fuel)%nat ->
    t !! lowest_free t fuel n = None.
Proof.
  induction fuel as [| fuel IH]; intros m t n Hlow Hagree Hsize; simpl.
  - assert (m = ∅) as -> by (apply map_size_empty_inv; lia).
    rewrite Hagree by lia. apply lookup_empty.
  - destruct (t !! n) as [d |] eqn:Hn; [| exact Hn].
    apply (IH (delete n m)).
    + intros k [x Hk]. apply lookup_delete_Some in Hk as [Hne Hk].
      specialize (Hlow k (ex_intro _ x Hk)). lia.
    + intros k Hk. rewrite lookup_delete_ne by lia. apply Hagree. lia.
    + assert (m !! n = Some d) as Hm by (rewrite <- Hagree by lia; exact Hn).
      pose proof (map_size_delete_Some n m (ex_intro _ d Hm)) as Hs.
      lia.
Qed.

Lemma fresh_fd_free (t : gmap Z fdesc) : t !! fresh_fd t = None.
Proof.
  unfold fresh_fd.
  apply (lowest_free_None (size t) (filter (fun kv => 0 <= kv.1) t)).
  - intros k [x Hk]. apply map_lookup_filter_Some in Hk as [_ Hk]. exact Hk.
  - intros k Hk. destruct (t !! k) as [d |] eqn:Hd.
    + symmetry. apply map_lookup_filter_Some. split; [exact Hd | exact Hk].
    + symmetry. apply map_lookup_filter_None. left. exact Hd.
  - apply map_subseteq_size, map_filter_subseteq.
Qed.

(** The first descriptor handed out is 0 exactly when standard input is
    closed. *)
Lemma fresh_fd_nonzero (t : gmap Z fdesc) :
  is_Some (t !! 0) -> 0 < fresh_fd t.
Proof.
  intros [d Hd]. unfold fresh_fd.
  destruct (size t) as [| k] eqn:Hs.
  - apply map_size_empty_inv in Hs. subst t. by rewrite lookup_empty in Hd.
  - simpl. rewrite Hd. pose proof (lowest_free_ge t k (0 + 1)). lia.
Qed.

Lemma fresh_fd_zero (t : gmap Z fdesc) : t !! 0 = None -> fresh_fd t = 0.
Proof.
  intros H. unfold fresh_fd. destruct (size t); simpl; [done |]. by rewrite H.
Qed.

End Descriptors.

(** ** Tracing into a file *)

Section OwnedFiles.
Context {P : Platform}.

Lemma sys_open_creat (path : string) (flags : list open_flag) (mode : Z) (w : world) :
  o_noopen (w_orc w) !! path = None ->
  O_CREAT ∈ flags ->
  sys_open path flags mode w
  = (fresh_fd (w_fdt w),
     set_fdt <[fresh_fd (w_fdt w) := FdFile path (bool_decide (O_APPEND ∈ flags)) 0]>
       (set_files (fun fs => match fs !! path with
                             | None => <[path := EmptyString]> fs
                             | Some _ => fs
                             end)
          (set_log (fun l => l ++ [OpenFile path flags mode]) w))).
Proof.
  intros Hopen Hcreat. unfold sys_open. destruct w; simpl in *. run. simpl.
  rewrite Hopen. rewrite (bool_decide_eq_true_2 _ Hcreat).
  rewrite andb_false_r. reflexivity.
Qed.

Lemma write_in_full_file (fd : Z) (path : string) (app : bool) (pos : nat)
    (data : string) (w : world) :
  w_fdt w !! fd = Some (FdFile path app pos) ->
  write_in_full fd data w
  = let taken := match o_wfault (w_orc w) !! fd with
                 | Some (k, _) => take_str k data
                 | None => data
                 end in
    let w' := set_fdt <[fd := FdFile path app (pos + String.length taken)]>
                (set_files (fun fs => <[path := file_put app pos
                                           (default EmptyString (fs !! path)) taken]> fs)
                   (set_log (fun l => l ++ [WriteFd fd data]) w)) in
    match o_wfault (w_orc w) !! fd with
    | Some (_, e) => (-1, set_errno (fun _ => e) w')
    | None => (strlen data, w')
    end.
Proof.
  intros Hfd. unfold write_in_full. destruct w; simpl in *. run. simpl.
  rewrite Hfd. destruct (o_wfault w_orc0 !! fd) as [[k e] |]; reflexivity.
Qed.

Lemma created_then_appended (path data : string) (fs : gmap string string) :
  let fs' := match fs !! path with
             | Some _ => fs
             | None => <[path := EmptyString]> fs
             end in
  <[path := default EmptyString (fs' !! path) +:+ data]> fs' = appended path data fs.
Proof.
  unfold appended. destruct (fs !! path) as [old |] eqn:E; cbv zeta.
  - by rewrite E.
  - by rewrite lookup_insert_eq, insert_insert_eq.
Qed.

Lemma closed_again (fd : Z) (a b : fdesc) (t : gmap Z fdesc) :
  t !! fd = None -> delete fd (<[fd := a]> (<[fd := b]> t)) = t.
Proof. intros H. by rewrite insert_insert_eq, delete_insert_id. Qed.

(** A trace call on a key that names a file that opens, standard input
    being open: the file is opened for appending and created if missing,
    the line goes to its end, and the descriptor is closed again, also when
    the write fails (then after the diagnostic). *)
Lemma do_trace_print_owned (key : string) (w : world) (path buf : string) :
  w_env w !! key = Some path ->
  is_disabling path = false ->
  is_stderr_word path = false ->
  is_single_digit path = false ->
  is_absolute_path path = true ->
  o_noopen (w_orc w) !! path = None ->
  is_Some (w_fdt w !! 0) ->
  w_fdt w !! STDERR_FILENO = Some FdStream ->
  o_wfault (w_orc w) !! STDERR_FILENO = None ->
  let fd := fresh_fd (w_fdt w) in
  do_trace_print key buf w
  = (tt,
     match o_wfault (w_orc w) !! fd with
     | None =>
         set_files (appended path buf)
           (set_log (fun l => l ++ [Getenv key; OpenFile path trace_open_flags 438;
                                    WriteFd fd buf; CloseFd fd]) w)
     | Some (k, e) =>
         set_errno (fun _ => e)
           (set_out (fun o => o ++ [(STDERR_FILENO, write_error_text e)])
              (set_files (appended path (take_str k buf))
                 (set_log (fun l => l ++ [Getenv key;
                                          OpenFile path trace_open_flags 438;
                                          WriteFd fd buf;
                                          Fprintf (write_error_text e);
                                          CloseFd fd]) w)))
     end).
Proof.
  intros Hv H1 H2 H3 H4 Hopen H0 Herr Herrok fd.
  pose proof (fresh_fd_free (w_fdt w)) as Hfree.
  pose proof (fresh_fd_nonzero (w_fdt w) H0) as Hpos. fold fd in Hfree, Hpos.
  unfold do_trace_print, bind at 1.
  rewrite (get_trace_fd_unfold key false w path Hv). cbv zeta.
  rewrite H1, H2, H3, H4.
  destruct w; simpl in *.
  rewrite sys_open_creat; [| done | set_solver]. simpl. fold fd.
  assert ((fd =? -1) = false) as -> by lia.
  assert ((fd =? 0) = false) as -> by lia.
  unfold write_or_whine_pipe, bind at 1 2.
  erewrite write_in_full_file; [| simpl; apply lookup_insert_eq].
  simpl. destruct (o_wfault w_orc0 !! fd) as [[k e] |].
  - assert (Hne : fd <> STDERR_FILENO) by congruence.
    run. simpl.
    rewrite fprintf_stderr_stream;
      [| simpl; by rewrite !lookup_insert_ne | done].
    simpl. unfold write_error_text.
    rewrite created_then_appended, closed_again by done.
    by rewrite <- !app_assoc.
  - assert ((strlen buf <? 0) = false) as -> by (apply Z.ltb_ge; unfold strlen; lia).
    run. simpl. rewrite created_then_appended, closed_again by done.
    by rewrite <- !app_assoc.
Qed.

End OwnedFiles.

Section OwnedFilesTwice.
Context {P : Platform}.

Lemma appended_twice (path a b : string) (fs : gmap string string) :
  appended path b (appended path a fs)
  = <[path := (default EmptyString (fs !! path) +:+ a) +:+ b]> fs.
Proof. unfold appended. by rewrite lookup_insert_eq, insert_insert_eq. Qed.

(** The descriptor table after a trace call into a file is the one before
    it, whether the write succeeds or fails. *)
Lemma trace_file_closed (key : string) (w : world) (path buf : string) :
  w_env w !! key = Some path ->
  is_disabling path = false ->
  is_stderr_word path = false ->
  is_single_digit path = false ->
  is_absolute_path path = true ->
  o_noopen (w_orc w) !! path = None ->
  is_Some (w_fdt w !! 0) ->
  w_fdt w !! STDERR_FILENO = Some FdStream ->
  o_wfault (w_orc w) !! STDERR_FILENO = None ->
  w_fdt (snd (do_trace_print key buf w)) = w_fdt w
  /\ last (w_log (snd (do_trace_print key buf w)))
     = Some (CloseFd (fresh_fd (w_fdt w))).
Proof.
  intros Hv H1 H2 H3 H4 Hopen H0 Herr Herrok.
  rewrite (do_trace_print_owned key w path buf Hv H1 H2 H3 H4 Hopen H0 Herr Herrok).
  cbv zeta. destruct w; simpl.
  destruct (o_wfault w_orc0 !! _) as [[k e] |]; simpl;
    (split; [reflexivity |]); by rewrite last_app.
Qed.

(** Two trace calls in a row, both writes succeeding: the file holds what
    it held, then the first line, then the second. *)
Lemma trace_file_appends_in_order (key : string) (w : world)
    (path buf1 buf2 : string) :
  w_env w !! key = Some path ->
  is_disabling path = false ->
  is_stderr_word path = false ->
  is_single_digit path = false ->
  is_absolute_path path = true ->
  o_noopen (w_orc w) !! path = None ->
  is_Some (w_fdt w !! 0) ->
  w_fdt w !! STDERR_FILENO = Some FdStream ->
  o_wfault (w_orc w) !! STDERR_FILENO = None ->
  o_wfault (w_orc w) !! fresh_fd (w_fdt w) = None ->
  let w2 := snd (do_trace_print key buf2 (snd (do_trace_print key buf1 w))) in
  w_files w2
  = <[path := (default EmptyString (w_files w !! path) +:+ buf1) +:+ buf2]> (w_files w)
  /\ w_fdt w2 = w_fdt w.
Proof.
  intros Hv H1 H2 H3 H4 Hopen H0 Herr Herrok Hok.
  rewrite (do_trace_print_owned key w path buf1 Hv H1 H2 H3 H4 Hopen H0 Herr Herrok).
  cbv zeta. rewrite Hok. cbn [snd].
  rewrite (do_trace_print_owned key _ path buf2); try assumption;
    try (by destruct w).
  assert (Hok' : o_wfault (w_orc w) !! fresh_fd (w_fdt w) = None) by exact Hok.
  destruct w; simpl in *. rewrite Hok'. simpl.
  by rewrite appended_twice.
Qed.

End OwnedFilesTwice.

(** On the sample platform a value that starts with a slash passes none of
    the earlier tests of [get_trace_fd]. *)
Lemma absolute_path_tests (v : string) :
  Sample.is_absolute_path v = true ->
  is_disabling v = false /\ is_stderr_word v = false
  /\ is_single_digit v = false.
Proof.
  destruct v as [| c r]; [discriminate |].
  destruct (Ascii.eqb_spec c "/") as [-> | Hne].
  - intros _. unfold is_disabling, is_stderr_word, is_single_digit.
    cbn [strcmp strcasecmp deref]. repeat split; try reflexivity.
    apply andb_false_r.
  - intros H. exfalso. apply Hne. clear Hne. revert H.
    destruct c as [[] [] [] [] [] [] [] []]; simpl; congruence.
Qed.

(** C7 at a process whose standard input is closed: [open] hands out
    descriptor 0, which [do_trace_print] takes for a key that is switched
    off.  The file is created, the line is not written, and the descriptor
    stays open. *)
Theorem trace_file_descriptor_zero_stays_open :
  let w := Sample.start Sample.clocks (<["GIT_TRACE" := "/tmp/t.log"]> ∅)
             no_stdin_fdt in
  let w' := snd (do_trace_print (P := Sample.platform false) "GIT_TRACE"
                   ("hello" +:+ nl) w) in
  w_fdt w !! 0 = None
  /\ w_fdt w' !! 0 = Some (FdFile "/tmp/t.log" true 0)
  /\ w_files w' !! "/tmp/t.log" = Some EmptyString
  /\ w_log w' = [Getenv "GIT_TRACE"; OpenFile "/tmp/t.log" trace_open_flags 438].
Proof. vm_compute. repeat split. Qed.

(** The same call with standard input open: one line in the file and the
    descriptor table as before. *)
Example trace_file_with_stdin_open :
  let w := Sample.with_var "GIT_TRACE" "/tmp/t.log" in
  let w' := snd (do_trace_print (P := Sample.platform false) "GIT_TRACE"
                   ("hello" +:+ nl) w) in
  w_fdt w' = w_fdt w
  /\ w_files w' !! "/tmp/t.log" = Some ("hello" +:+ nl)
  /\ w_log w' = [Getenv "GIT_TRACE"; OpenFile "/tmp/t.log" trace_open_flags 438;
                 WriteFd 3 ("hello" +:+ nl); CloseFd 3].
Proof. vm_compute. repeat split. Qed.

(** ** Keys that are switched off *)

Section Disabled.
Context {P : Platform}.

Lemma strcasecmp_lower (a b : string) :
  lower a = lower b -> strcasecmp a b = 0.
Proof.
  revert b. induction a as [| c a IH]; intros [| d b] H; simpl in *;
    try discriminate; [reflexivity |].
  injection H as Hc Hr. rewrite Hc, Z.eqb_refl. by apply IH.
Qed.




(** What [getnanotime] can change: the log, the count of clock readings and
    the offset, nothing else. *)
Lemma getnanotime_frame (w : world) :
  exists log wn mn off,
    snd (getnanotime w)
    = set_offset (fun _ => off)
        (set_mono_n (fun _ => mn)
           (set_wall_n (fun _ => wn) (set_log (fun _ => log) w))).
Proof.
  unfold getnanotime, highres_nanos, gettimeofday_nanos.
  destruct w; simpl. run. simpl.
  destruct (1 <? g_offset0); [| destruct (g_offset0 =? 1)];
    destruct HAVE_CLOCK_GETTIME; run; simpl;
    try destruct (o_mono w_orc0 w_mono_n0); simpl;
    repeat match goal with
           | |- context [if ?b then _ else _] => destruct b; simpl
           end;
    eauto.
Qed.

End Disabled.

Section DisabledCalls.
Context {P : Platform}.

Lemma getnanotime_keeps (w : world) :
  w_env (snd (getnanotime w)) = w_env w
  /\ w_out (snd (getnanotime w)) = w_out w
  /\ w_files (snd (getnanotime w)) = w_files w
  /\ w_fdt (snd (getnanotime w)) = w_fdt w.
Proof.
  destruct (getnanotime_frame w) as (log & wn & mn & off & ->).
  by destruct w.
Qed.


End DisabledCalls.



(** ** The end of a trace line *)

Section Strings.

Lemma str_app_cons (x : ascii) (a b : string) :
  String x a +:+ b = String x (a +:+ b).
Proof. reflexivity. Qed.

Lemma str_app_nil_l (b : string) : EmptyString +:+ b = b.
Proof. reflexivity. Qed.

Lemma str_app_assoc (a b c : string) : (a +:+ b) +:+ c = a +:+ (b +:+ c).
Proof.
  induction a as [| x a IH]; [done |]. by rewrite !str_app_cons, IH.
Qed.

Lemma str_app_nil_r (a : string) : a +:+ EmptyString = a.
Proof.
  induction a as [| x a IH]; [done |]. by rewrite str_app_cons, IH.
Qed.

Lemma chars_app (a b : string) :
  list_ascii_of_string (a +:+ b)
  = list_ascii_of_string a ++ list_ascii_of_string b.
Proof.
  induction a as [| x a IH]; [done |]. rewrite str_app_cons. simpl.
  by rewrite IH.
Qed.

Lemma str_length_app (a b : string) :
  String.length (a +:+ b) = (String.length a + String.length b)%nat.
Proof.
  induction a as [| x a IH]; [done |]. rewrite str_app_cons. simpl.
  by rewrite IH.
Qed.

Lemma last_char_chars (s : string) : last_char s = last (list_ascii_of_string s).
Proof.
  induction s as [| c s IH]; [done |]. destruct s as [| d s]; [done |].
  simpl in *. exact IH.
Qed.

Lemma last_char_app_one (s : string) (c : ascii) :
  last_char (s +:+ String c EmptyString) = Some c.
Proof. rewrite last_char_chars, chars_app. simpl. apply last_snoc. Qed.

Lemma last_char_app (a b : string) :
  b <> EmptyString -> last_char (a +:+ b) = last_char b.
Proof.
  intros Hb. rewrite !last_char_chars, chars_app, last_app.
  destruct b as [| c b]; [done |]. rewrite <- last_char_chars.
  destruct (last_char (String c b)) eqn:E; [done |].
  exfalso. clear -E. revert c E. induction b as [| d b IH]; intros c E; [done |].
  simpl in E. by apply (IH d).
Qed.

Lemma trailing_nl_last (s : string) :
  (trailing_nl s = 0)%nat <-> last_char s <> Some LF.
Proof.
  unfold trailing_nl. rewrite last_char_chars.
  destruct (list_ascii_of_string s) as [| c l] using rev_ind; [done |].
  rewrite rev_app_distr, last_snoc. simpl.
  destruct (Ascii.eqb_spec c LF) as [-> | Hne]; split; try done.
  intros _ [=]. done.
Qed.

Lemma trailing_nl_snoc_nl (s : string) :
  trailing_nl (s +:+ nl) = S (trailing_nl s).
Proof. unfold trailing_nl. rewrite chars_app, rev_app_distr. reflexivity. Qed.

Lemma trailing_nl_positive (s : string) :
  last_char s = Some LF -> (1 <= trailing_nl s)%nat.
Proof.
  intros H. destruct (trailing_nl s) eqn:E; [| lia].
  apply trailing_nl_last in E. done.
Qed.

(** Behind a prefix that does not end in a newline, the newlines at the end
    are those of the text that follows. *)
Lemma trailing_nl_after_prefix (p m : string) :
  last_char p <> Some LF -> trailing_nl (p +:+ m) = trailing_nl m.
Proof.
  intros Hp. unfold trailing_nl. rewrite chars_app, rev_app_distr.
  rewrite last_char_chars in Hp.
  induction (rev (list_ascii_of_string m)) as [| c l IH]; simpl.
  - destruct (list_ascii_of_string p) as [| x q] using rev_ind; [done |].
    rewrite rev_app_distr. rewrite last_snoc in Hp. simpl.
    destruct (Ascii.eqb_spec x LF) as [-> | Hne]; done.
  - rewrite IH. reflexivity.
Qed.

End Strings.

Section LineEnd.
Context {P : Platform}.

Lemma trace_want_on (key : string) (w : world) (v : string) :
  w_env w !! key = Some v ->
  is_disabling v = false ->
  trace_want key w = (true, set_log (fun l => l ++ [Getenv key]) w).
Proof.
  intros Hv H. unfold trace_want. destruct w; simpl in *. run. simpl.
  rewrite Hv. unfold is_disabling in H. by rewrite H.
Qed.

Lemma prepare_trace_line_on (file : option string) (line : Z) (key : string)
    (w : world) (v : string) :
  w_env w !! key = Some v ->
  is_disabling v = false ->
  prepare_trace_line file line key EmptyString w
  = ((true, line_prefix file line (o_wall (w_orc w) (w_wall_n w))),
     prepared key w).
Proof.
  intros Hv H. unfold prepare_trace_line, bind at 1.
  rewrite (trace_want_on key w v Hv H). cbn [negb].
  unfold line_prefix, location_tag, time_stamp, prepared.
  destruct w; simpl. run. simpl. rewrite <- app_assoc. simpl.
  destruct HAVE_VARIADIC_MACROS; [reflexivity |].
  by rewrite str_app_nil_r.
Qed.

Lemma line_prefix_last (file : option string) (line : Z) (tv : timeval) :
  last_char (line_prefix file line tv) = Some " "%char.
Proof.
  unfold line_prefix, location_tag, time_stamp.
  destruct HAVE_VARIADIC_MACROS.
  - rewrite <- !str_app_assoc. apply last_char_app_one.
  - rewrite str_app_nil_r, <- !str_app_assoc. apply last_char_app_one.
Qed.

Lemma terminate_line_cases (buf : string) :
  buf <> EmptyString ->
  (last_char buf = Some LF /\ terminate_line buf = buf)
  \/ (last_char buf <> Some LF /\ terminate_line buf = buf +:+ nl).
Proof.
  intros Hne. unfold terminate_line.
  assert ((0 <? strlen buf) = true) as ->.
  { apply Z.ltb_lt. unfold strlen. destruct buf; [done | simpl; lia]. }
  destruct (decide (last_char buf = Some LF)) as [H | H].
  - left. by rewrite (bool_decide_eq_true_2 _ H).
  - right. by rewrite (bool_decide_eq_false_2 _ H).
Qed.

Lemma app_nl_differs (buf : string) : buf <> buf +:+ nl.
Proof.
  intros H. apply (f_equal String.length) in H.
  rewrite str_length_app in H. simpl in H. lia.
Qed.

(** C3, as the code has it.  Every active trace call hands the prefix and
    its payload to [print_trace_line], which appends a newline exactly when
    the last byte is not one.  The line therefore always ends in a newline,
    but the newlines a message already ends with are all kept: the line
    ends in as many newlines as the payload, and in one if the payload ends
    in none. *)
Theorem trace_line_ends_in_newline (key : string) (w : world) (v : string)
    (file : option string) (line : Z) :
  w_env w !! key = Some v ->
  is_disabling v = false ->
  let prefix := line_prefix file line (o_wall (w_orc w) (w_wall_n w)) in
  let emit := fun payload =>
    do_trace_print key (terminate_line (prefix +:+ payload)) (prepared key w) in
  (forall format ap,
      trace_vprintf_fl file line key format ap w = emit (strbuf_vaddf format ap))
  /\ (forall data, trace_strbuf_fl file line key data w = emit data)
  /\ (key = "GIT_TRACE" -> forall argv format ap,
        trace_argv_vprintf_fl file line argv format ap w
        = emit (strbuf_vaddf format ap +:+ sq_quote_argv argv))
  /\ (key = GIT_TRACE_PERFORMANCE -> forall nanos format ap,
        trace_performance_vfl file line nanos format ap w
        = emit (performance_payload nanos format ap))
  /\ (forall payload,
        let buf := prefix +:+ payload in
        let out := terminate_line buf in
        last_char out = Some LF
        /\ (last_char buf <> Some LF <-> out = buf +:+ nl)
        /\ (last_char buf = Some LF <-> out = buf)
        /\ trailing_nl out = Nat.max 1 (trailing_nl payload)).
Proof.
  intros Hv Hon prefix emit.
  pose proof (prepare_trace_line_on file line key w v Hv Hon) as Hprep.
  fold prefix in Hprep.
  split; [| split; [| split; [| split]]].
  - intros format ap. unfold trace_vprintf_fl, bind. by rewrite Hprep.
  - intros data. unfold trace_strbuf_fl, bind. by rewrite Hprep.
  - intros -> argv format ap. unfold trace_argv_vprintf_fl, bind.
    by rewrite Hprep.
  - intros -> nanos format ap. unfold trace_performance_vfl, bind.
    rewrite Hprep. cbn [negb]. unfold print_trace_line, emit. f_equal. f_equal.
    unfold performance_payload.
    destruct format as [f |]; [destruct (negb (Ascii.eqb (deref f) NUL)) |];
      by rewrite ?str_app_assoc, ?str_app_nil_r.
  - intros payload buf out.
    assert (Hp : last_char prefix <> Some LF).
    { unfold prefix. rewrite line_prefix_last. discriminate. }
    assert (Hne : buf <> EmptyString).
    { unfold buf. intros H. apply (f_equal String.length) in H.
      rewrite str_length_app in H. simpl in H.
      pose proof (line_prefix_last file line (o_wall (w_orc w) (w_wall_n w))) as Hs.
      fold prefix in Hs. destruct prefix; [done | simpl in H; lia]. }
    assert (Htr : trailing_nl buf = trailing_nl payload)
      by (apply trailing_nl_after_prefix, Hp).
    destruct (terminate_line_cases buf Hne) as [[Hl Ht] | [Hl Ht]];
      fold out in Ht; rewrite Ht.
    + split; [exact Hl |]. split; [| split].
      * split; [done |]. intros H. by apply app_nl_differs in H.
      * done.
      * rewrite Htr. apply trailing_nl_positive in Hl. lia.
    + split; [apply last_char_app_one |]. split; [| split].
      * done.
      * split; [done |]. intros H. symmetry in H. by apply app_nl_differs in H.
      * rewrite trailing_nl_snoc_nl. apply trailing_nl_last in Hl. lia.
Qed.

End LineEnd.

Lemma trace_line_ends_in_newline_witness :
  let w := Sample.with_var "GIT_TRACE" "1" in
  w_env w !! "GIT_TRACE" = Some "1"
  /\ is_disabling "1" = false
  /\ trace_printf (P := Sample.platform false) "hello %d" [ArgInt 5] w
     = do_trace_print (P := Sample.platform false) "GIT_TRACE"
         ("12:00:00.000000 hello 5" +:+ nl)
         (prepared "GIT_TRACE" w).
Proof.
  assert (H1 : w_env (Sample.with_var "GIT_TRACE" "1") !! "GIT_TRACE" = Some "1")
    by reflexivity.
  assert (H2 : is_disabling "1" = false) by reflexivity.
  split; [exact H1 |]. split; [exact H2 |].
  pose proof (trace_line_ends_in_newline (P := Sample.platform false)
                "GIT_TRACE" _ "1" None 0 H1 H2) as T.
  cbv zeta in T. destruct T as (T & _).
  exact (T "hello %d" [ArgInt 5]).
Defined.

(** C3 as it is stated fails for a message that ends in two newlines: both
    reach the descriptor. *)
Lemma two_newlines_counterexample :
  let w := Sample.with_var "GIT_TRACE" "1" in
  let w' := snd (trace_printf (P := Sample.platform false)
                   ("a" +:+ nl +:+ nl) [] w) in
  written_to STDERR_FILENO (w_out w') = "12:00:00.000000 a" +:+ nl +:+ nl
  /\ trailing_nl (written_to STDERR_FILENO (w_out w')) = 2%nat
  /\ trailing_nl (written_to STDERR_FILENO (w_out w')) <> 1%nat.
Proof. vm_compute. repeat split. discriminate. Qed.

(** ** The clock *)

Section Clock.
Context {P : Platform}.

Lemma gettimeofday_nanos_eq (w : world) :
  gettimeofday_nanos w = (next_wall w, tick_wall w).
Proof. unfold gettimeofday_nanos, next_wall, tick_wall. by destruct w. Qed.

Lemma highres_nanos_eq (w : world) :
  highres_nanos w = (next_highres w, tick_mono w).
Proof.
  unfold highres_nanos, next_highres, tick_mono.
  destruct HAVE_CLOCK_GETTIME; [| done].
  destruct w; simpl. run. simpl. by destruct (o_mono w_orc0 w_mono_n0).
Qed.

Lemma tick_wall_keeps (w : world) :
  g_offset (tick_wall w) = g_offset w
  /\ w_mono_n (tick_wall w) = w_mono_n w
  /\ w_orc (tick_wall w) = w_orc w
  /\ w_wall_n (tick_wall w) = S (w_wall_n w).
Proof. by destruct w. Qed.

Lemma tick_mono_keeps (w : world) :
  g_offset (tick_mono w) = g_offset w
  /\ w_wall_n (tick_mono w) = w_wall_n w
  /\ w_orc (tick_mono w) = w_orc w.
Proof. unfold tick_mono. destruct HAVE_CLOCK_GETTIME; by destruct w. Qed.

(** The three branches of [getnanotime]. *)
Lemma getnanotime_calibrated (w : world) :
  1 < g_offset w ->
  getnanotime w = (wrap64 (g_offset w + next_highres w), tick_mono w).
Proof.
  intros H. unfold getnanotime, bind at 1, gets.
  assert ((1 <? g_offset w) = true) as -> by lia.
  unfold bind. by rewrite highres_nanos_eq.
Qed.

Lemma getnanotime_failed (w : world) :
  g_offset w = 1 -> getnanotime w = (next_wall w, tick_wall w).
Proof.
  intros H. unfold getnanotime, bind at 1, gets. rewrite H. simpl.
  apply gettimeofday_nanos_eq.
Qed.

Lemma getnanotime_uninitialized (w : world) :
  g_offset w = 0 ->
  getnanotime w
  = (next_wall w,
     set_offset (fun _ => if next_highres (tick_wall w) =? 0 then 1
                          else wrap64 (next_wall w - next_highres (tick_wall w)))
       (tick_mono (tick_wall w))).
Proof.
  intros H. unfold getnanotime, bind at 1, gets. rewrite H. simpl.
  unfold bind at 1. rewrite gettimeofday_nanos_eq.
  unfold bind at 1. rewrite highres_nanos_eq.
  unfold bind, modify, ret.
  by destruct (next_highres (tick_wall w) =? 0).
Qed.

Lemma next_highres_tick_wall (w : world) :
  next_highres (tick_wall w) = next_highres w.
Proof. unfold next_highres. by destruct w. Qed.

Lemma wrap64_range (z : Z) : 0 <= wrap64 z < 2 ^ 64.
Proof. unfold wrap64. apply Z.mod_pos_bound. lia. Qed.

(** Once calibrated, always calibrated, with the same offset and without
    another look at the wall clock. *)
Lemma calibrated_forever (n : nat) :
  forall w, 1 < g_offset w ->
    g_offset (after_calls n w) = g_offset w
    /\ w_wall_n (after_calls n w) = w_wall_n w
    /\ getnanotime (after_calls n w)
       = (wrap64 (g_offset w + next_highres (after_calls n w)),
          tick_mono (after_calls n w)).
Proof.
  induction n as [| n IH]; intros w H; simpl.
  - split; [done |]. split; [done |]. by apply getnanotime_calibrated.
  - rewrite (getnanotime_calibrated w H). simpl.
    destruct (tick_mono_keeps w) as (Ho & Hw & _).
    destruct (IH (tick_mono w)) as (I1 & I2 & I3); [lia |].
    rewrite I1, I2, I3, Ho, Hw. done.
Qed.

(** Once failed, always failed: every call reads the wall clock and none
    reads the monotonic clock. *)
Lemma failed_forever (n : nat) :
  forall w, g_offset w = 1 ->
    g_offset (after_calls n w) = 1
    /\ w_mono_n (after_calls n w) = w_mono_n w
    /\ getnanotime (after_calls n w)
       = (next_wall (after_calls n w), tick_wall (after_calls n w)).
Proof.
  induction n as [| n IH]; intros w H; simpl.
  - split; [done |]. split; [done |]. by apply getnanotime_failed.
  - rewrite (getnanotime_failed w H). simpl.
    destruct (tick_wall_keeps w) as (Ho & Hm & _).
    destruct (IH (tick_wall w)) as (I1 & I2 & I3); [lia |].
    rewrite I1, I2, I3, Hm. done.
Qed.

End Clock.

Section ClockStates.
Context {P : Platform}.

Lemma first_call (w : world) :
  g_offset w = 0 ->
  let w1 := snd (getnanotime w) in
  fst (getnanotime w) = next_wall w
  /\ w_wall_n w1 = S (w_wall_n w)
  /\ w_log w1 = w_log w ++ Gettimeofday
                  :: (if HAVE_CLOCK_GETTIME then [ClockGettime] else [])
  /\ g_offset w1 = (if next_highres w =? 0 then 1
                    else wrap64 (next_wall w - next_highres w)).
Proof.
  intros H. cbv zeta. rewrite (getnanotime_uninitialized w H).
  rewrite next_highres_tick_wall. cbn [fst snd].
  unfold tick_mono, tick_wall. destruct w; simpl.
  destruct HAVE_CLOCK_GETTIME; simpl; rewrite <- ?app_assoc; done.
Qed.

(** C4, as the code has it.  The first call reads both clocks and returns
    the wall clock; with a monotonic reading other than 0 it stores
    wall - monotonic (modulo 2^64) as the offset.  If that offset is 2 or
    more, every later call returns offset + monotonic and never reads the
    wall clock again.  If the monotonic reading was 0, every later call
    reads the wall clock and never the monotonic clock. *)
Theorem getnanotime_state_machine (w : world) :
  g_offset w = 0 ->
  let now := next_wall w in
  let mono := next_highres w in
  let w1 := snd (getnanotime w) in
  fst (getnanotime w) = now
  /\ w_wall_n w1 = S (w_wall_n w)
  /\ w_log w1 = w_log w ++ Gettimeofday
                  :: (if HAVE_CLOCK_GETTIME then [ClockGettime] else [])
  /\ (mono <> 0 -> g_offset w1 = wrap64 (now - mono))
  /\ (mono <> 0 -> 2 <= wrap64 (now - mono) ->
      forall n,
        let wn := after_calls n w1 in
        clock_state_of wn = Calibrated (wrap64 (now - mono))
        /\ w_wall_n wn = w_wall_n w1
        /\ fst (getnanotime wn) = wrap64 (wrap64 (now - mono) + next_highres wn))
  /\ (mono = 0 ->
      forall n,
        let wn := after_calls n w1 in
        clock_state_of wn = Failed
        /\ w_mono_n wn = w_mono_n w1
        /\ fst (getnanotime wn) = next_wall wn).
Proof.
  intros H now mono w1.
  destruct (first_call w H) as (F1 & F2 & F3 & F4). fold w1 now mono in F1, F2, F3, F4.
  split; [exact F1 |]. split; [exact F2 |]. split; [exact F3 |].
  split; [| split].
  - intros Hm. rewrite F4. by destruct (Z.eqb_spec mono 0).
  - intros Hm Hbig n wn.
    assert (Ho : g_offset w1 = wrap64 (now - mono))
      by (rewrite F4; by destruct (Z.eqb_spec mono 0)).
    destruct (calibrated_forever n w1) as (C1 & C2 & C3); [lia |].
    fold wn in C1, C2, C3. unfold clock_state_of. rewrite C1, C3, Ho.
    assert ((1 <? wrap64 (now - mono)) = true) as -> by lia. done.
  - intros Hm n wn.
    assert (Ho : g_offset w1 = 1) by (rewrite F4, Hm; done).
    destruct (failed_forever n w1 Ho) as (C1 & C2 & C3).
    fold wn in C1, C2, C3. unfold clock_state_of. rewrite C1, C3. done.
Qed.

(** C9, as the code has it.  The state of the clock is the value of the
    offset, 0 standing for "not yet calibrated" and 1 for "failed".  A
    computed offset of 0 leaves the clock uncalibrated: the next call, and
    every later call that still finds the offset at 0, reads the wall clock
    and calibrates again; as soon as one of them stores an offset above 1
    the clock is calibrated and no later call reads the wall clock.  A
    computed offset of 1 makes every later call fall back to the wall
    clock.  The calibrated state is entered exactly when the computed
    offset is at least 2. *)
Theorem getnanotime_sentinel_offsets (w : world) :
  g_offset w = 0 ->
  next_highres w <> 0 ->
  let computed := wrap64 (next_wall w - next_highres w) in
  let w1 := snd (getnanotime w) in
  g_offset w1 = computed
  /\ (computed = 0 ->
      clock_state_of w1 = Uninitialized
      /\ fst (getnanotime w1) = next_wall w1
      /\ w_wall_n (snd (getnanotime w1)) = S (w_wall_n w1)
      /\ g_offset (snd (getnanotime w1))
         = (if next_highres w1 =? 0 then 1
            else wrap64 (next_wall w1 - next_highres w1))
      /\ forall n,
           let wn := after_calls n w1 in
           (g_offset wn = 0 ->
            fst (getnanotime wn) = next_wall wn
            /\ w_wall_n (snd (getnanotime wn)) = S (w_wall_n wn)
            /\ g_offset (snd (getnanotime wn))
               = (if next_highres wn =? 0 then 1
                  else wrap64 (next_wall wn - next_highres wn)))
           /\ (1 < g_offset wn ->
               forall k,
                 let wk := after_calls k wn in
                 clock_state_of wk = Calibrated (g_offset wn)
                 /\ fst (getnanotime wk) = wrap64 (g_offset wn + next_highres wk)
                 /\ w_wall_n (snd (getnanotime wk)) = w_wall_n wn))
  /\ (computed = 1 ->
      forall n,
        let wn := after_calls n w1 in
        clock_state_of wn = Failed
        /\ w_mono_n wn = w_mono_n w1
        /\ fst (getnanotime wn) = next_wall wn)
  /\ ((exists o, clock_state_of w1 = Calibrated o) <-> 2 <= computed)
  /\ (forall w', g_offset w' = 0 ->
                 clock_state_of w' = Uninitialized
                 /\ fst (getnanotime w') = next_wall w'
                 /\ w_wall_n (snd (getnanotime w')) = S (w_wall_n w')
                 /\ g_offset (snd (getnanotime w'))
                    = (if next_highres w' =? 0 then 1
                       else wrap64 (next_wall w' - next_highres w')))
  /\ (forall w', 1 < g_offset w' <->
                 getnanotime w' = (wrap64 (g_offset w' + next_highres w'), tick_mono w')
                 /\ clock_state_of w' = Calibrated (g_offset w')).
Proof.
  intros H Hm computed w1.
  destruct (first_call w H) as (F1 & F2 & F3 & F4). fold w1 in F1, F2, F3, F4.
  assert (Ho : g_offset w1 = computed).
  { rewrite F4. by destruct (Z.eqb_spec (next_highres w) 0). }
  pose proof (wrap64_range (next_wall w - next_highres w)) as Hr.
  fold computed in Hr.
  split; [exact Ho |]. split; [| split; [| split; [| split]]].
  - intros H0. rewrite H0 in Ho.
    destruct (first_call w1 Ho) as (G1 & G2 & _ & G4).
    split; [by unfold clock_state_of; rewrite Ho |].
    split; [done |]. split; [done |]. split; [done |].
    intros n wn. split.
    + intros Hn. destruct (first_call wn Hn) as (N1 & N2 & _ & N4). done.
    + intros Hn k wk.
      destruct (calibrated_forever k wn Hn) as (K1 & K2 & K3). fold wk in K1, K2, K3.
      split; [| split].
      * unfold clock_state_of. rewrite K1.
        assert ((1 <? g_offset wn) = true) as -> by lia. done.
      * by rewrite K3.
      * rewrite K3. cbn [snd].
        destruct (tick_mono_keeps wk) as (_ & -> & _). exact K2.
  - intros H1 n wn. rewrite H1 in Ho.
    destruct (failed_forever n w1 Ho) as (C1 & C2 & C3).
    fold wn in C1, C2, C3. unfold clock_state_of. rewrite C1, C3. done.
  - unfold clock_state_of. rewrite Ho. split.
    + intros [o Hc]. destruct (Z.ltb_spec 1 computed); [lia |].
      by destruct (computed =? 1).
    + intros Hbig. exists computed.
      assert ((1 <? computed) = true) as -> by lia. done.
  - intros w' H0.
    destruct (first_call w' H0) as (G1 & G2 & _ & G4).
    unfold clock_state_of. rewrite H0. done.
  - intros w'. split.
    + intros Hc. split; [by apply getnanotime_calibrated |].
      unfold clock_state_of. assert ((1 <? g_offset w') = true) as -> by lia. done.
    + intros [_ Hc]. unfold clock_state_of in Hc.
      destruct (Z.ltb_spec 1 (g_offset w')); [done |].
      by destruct (g_offset w' =? 1).
Qed.

End ClockStates.

Lemma getnanotime_state_machine_witness :
  let w := Sample.with_var "GIT_TRACE_PERFORMANCE" "1" in
  g_offset w = 0
  /\ fst (getnanotime (P := Sample.platform false) w) = 43200000000000
  /\ g_offset (snd (getnanotime (P := Sample.platform false) w)) = 42200000000000.
Proof.
  assert (H : g_offset (Sample.with_var "GIT_TRACE_PERFORMANCE" "1") = 0)
    by reflexivity.
  split; [exact H |].
  pose proof (getnanotime_state_machine (P := Sample.platform false) _ H) as T.
  cbv zeta in T. destruct T as (T1 & _ & _ & T4 & _).
  split; [exact T1 |]. apply T4. vm_compute. discriminate.
Defined.

Lemma getnanotime_sentinel_offsets_witness :
  let w := Sample.start Drift.clocks_one_apart ∅ Sample.std_fdt in
  g_offset w = 0
  /\ next_highres (P := Sample.platform false) w <> 0
  /\ g_offset (snd (getnanotime (P := Sample.platform false) w)) = 1.
Proof.
  assert (H : g_offset (Sample.start Drift.clocks_one_apart ∅ Sample.std_fdt) = 0)
    by reflexivity.
  assert (Hm : next_highres (P := Sample.platform false)
                 (Sample.start Drift.clocks_one_apart ∅ Sample.std_fdt) <> 0)
    by (vm_compute; discriminate).
  split; [exact H |]. split; [exact Hm |].
  pose proof (getnanotime_sentinel_offsets (P := Sample.platform false) _ H Hm) as T.
  cbv zeta in T. destruct T as (T1 & _). exact T1.
Defined.

(** C4 as it is stated fails on a machine whose two clocks agree at the
    first call: the monotonic reading is usable, yet the second call reads
    the wall clock again and returns it, not offset + monotonic. *)
Lemma recalibration_counterexample :
  let w := Sample.start Drift.clocks ∅ Sample.std_fdt in
  let w1 := snd (getnanotime (P := Sample.platform false) w) in
  next_highres (P := Sample.platform false) w <> 0
  /\ w_wall_n w1 = 1%nat
  /\ w_wall_n (snd (getnanotime (P := Sample.platform false) w1)) = 2%nat
  /\ fst (getnanotime (P := Sample.platform false) w1) = 7000000000
  /\ wrap64 (g_offset w1 + next_highres (P := Sample.platform false) w1) = 6000000000
  /\ fst (getnanotime (P := Sample.platform false) w1)
     <> wrap64 (g_offset w1 + next_highres (P := Sample.platform false) w1).
Proof. vm_compute. repeat split; discriminate. Qed.

(** C9 as it is stated fails on the same machine: the first call computes
    the offset 0, the second call calibrates again and stores 10^9, and the
    third call does not calibrate: it reads no wall clock and returns
    offset + monotonic (8 s), not the wall clock (9 s). *)
Lemma calibration_rerun_stops_counterexample :
  let w := Sample.start Drift.clocks ∅ Sample.std_fdt in
  let w1 := snd (getnanotime (P := Sample.platform false) w) in
  let w2 := snd (getnanotime (P := Sample.platform false) w1) in
  wrap64 (next_wall w - next_highres (P := Sample.platform false) w) = 0
  /\ g_offset w1 = 0
  /\ g_offset w2 = 1000000000
  /\ w_wall_n (snd (getnanotime (P := Sample.platform false) w2)) = w_wall_n w2
  /\ g_offset (snd (getnanotime (P := Sample.platform false) w2)) = g_offset w2
  /\ fst (getnanotime (P := Sample.platform false) w2) = 8000000000
  /\ next_wall w2 = 9000000000
  /\ fst (getnanotime (P := Sample.platform false) w2) <> next_wall w2.
Proof. vm_compute. repeat split; discriminate. Qed.

(** ** The command timer *)

Section CommandTimerFacts.
Context {P : Platform}.

Lemma trace_command_performance_on (argv : list string) (w : world) (v : string) :
  w_env w !! GIT_TRACE_PERFORMANCE = Some v ->
  is_disabling v = false ->
  trace_command_performance argv w
  = (tt, set_command_start_time
           (fun _ => fst (getnanotime (command_line_recorded argv w)))
           (snd (getnanotime (command_line_recorded argv w)))).
Proof.
  intros Hv Hon. unfold trace_command_performance, bind at 1.
  rewrite (trace_want_on _ w v Hv Hon). cbn [negb].
  unfold command_line_recorded. destruct w; simpl. run. simpl.
  destruct (g_command_start_time0 =? 0); simpl; rewrite !str_app_nil_l;
    match goal with |- context [getnanotime ?x] => destruct (getnanotime x) end;
    reflexivity.
Qed.

(** What [getnanotime] leaves alone of the command timer. *)
Lemma getnanotime_keeps_timer (w : world) :
  g_command_line (snd (getnanotime w)) = g_command_line w
  /\ g_atexit (snd (getnanotime w)) = g_atexit w
  /\ g_command_start_time (snd (getnanotime w)) = g_command_start_time w.
Proof.
  destruct (getnanotime_frame w) as (log & wn & mn & off & ->). by destruct w.
Qed.

Lemma trace_command_performance_state (argv : list string) (w : world) (v : string) :
  w_env w !! GIT_TRACE_PERFORMANCE = Some v ->
  is_disabling v = false ->
  let w' := snd (trace_command_performance argv w) in
  w_env w' = w_env w
  /\ g_command_line w' = sq_quote_argv argv
  /\ g_command_start_time w' = fst (getnanotime (command_line_recorded argv w))
  /\ g_atexit w' = g_atexit w
                   ++ (if g_command_start_time w =? 0
                       then [print_command_performance_atexit_hook] else []).
Proof.
  intros Hv Hon. cbv zeta.
  rewrite (trace_command_performance_on argv w v Hv Hon). cbn [snd].
  destruct (getnanotime_keeps_timer (command_line_recorded argv w)) as (K1 & K2 & _).
  destruct (getnanotime_keeps (command_line_recorded argv w)) as (K0 & _).
  destruct (getnanotime (command_line_recorded argv w)) as [t wt]. simpl in *.
  unfold command_line_recorded in *.
  destruct w; simpl in *. destruct wt; simpl in *. subst.
  destruct (g_command_start_time0 =? 0); simpl; rewrite ?app_nil_r; done.
Qed.

(** C2, as the code has it.  Every call with the key active replaces the
    recorded command line and start time, so the last call wins and the
    report at exit is about the last call.  The exit hook is registered by
    a call that finds the start time at 0: once by two calls, unless the
    clock read 0 at the first. *)
Theorem trace_command_performance_twice (w : world) (v : string)
    (argv1 argv2 : list string) :
  w_env w !! GIT_TRACE_PERFORMANCE = Some v ->
  is_disabling v = false ->
  g_command_start_time w = 0 ->
  let hook := print_command_performance_atexit_hook in
  let w1 := snd (trace_command_performance argv1 w) in
  let w2 := snd (trace_command_performance argv2 w1) in
  g_atexit w1 = g_atexit w ++ [hook]
  /\ g_atexit w2
     = g_atexit w ++ hook :: (if g_command_start_time w1 =? 0 then [hook] else [])
  /\ g_command_line w2 = sq_quote_argv argv2
  /\ g_command_start_time w2 = fst (getnanotime (command_line_recorded argv2 w1))
  /\ (g_atexit w = [] -> g_command_start_time w1 <> 0 ->
      process_exit w2
      = (tt, snd (call_trace_performance_since 405
                    (fst (getnanotime (command_line_recorded argv2 w1)))
                    (Some "git command:%s")
                    [ArgStr (Some (sq_quote_argv argv2))] w2))).
Proof.
  intros Hv Hon H0 hook w1 w2.
  destruct (trace_command_performance_state argv1 w v Hv Hon)
    as (E1 & L1 & T1 & A1). fold w1 in E1, L1, T1, A1.
  assert (Hv1 : w_env w1 !! GIT_TRACE_PERFORMANCE = Some v) by (by rewrite E1).
  destruct (trace_command_performance_state argv2 w1 v Hv1 Hon)
    as (E2 & L2 & T2 & A2). fold w2 in E2, L2, T2, A2.
  rewrite H0 in A1. simpl in A1.
  split; [exact A1 |]. split; [| split; [exact L2 | split; [exact T2 |]]].
  - rewrite A2, A1, <- app_assoc. reflexivity.
  - intros Hnil Hne. unfold process_exit, bind, gets.
    rewrite A2, A1, Hnil. destruct (Z.eqb_spec (g_command_start_time w1) 0); [done |].
    simpl. unfold print_command_performance_atexit, bind, gets, ret.
    rewrite L2, T2.
    by destruct (call_trace_performance_since _ _ _ _ w2).
Qed.

End CommandTimerFacts.

Lemma trace_command_performance_twice_witness :
  let w := Sample.with_var "GIT_TRACE_PERFORMANCE" "1" in
  let w1 := snd (trace_command_performance (P := Sample.platform false)
                   ["git"; "status"] w) in
  let w2 := snd (trace_command_performance (P := Sample.platform false)
                   ["git"; "log"] w1) in
  w_env w !! GIT_TRACE_PERFORMANCE = Some "1"
  /\ is_disabling "1" = false
  /\ g_command_start_time w = 0
  /\ g_command_line w2 = " 'git' 'log'".
Proof.
  assert (H1 : w_env (Sample.with_var "GIT_TRACE_PERFORMANCE" "1")
               !! GIT_TRACE_PERFORMANCE = Some "1") by reflexivity.
  assert (H2 : is_disabling "1" = false) by reflexivity.
  assert (H3 : g_command_start_time (Sample.with_var "GIT_TRACE_PERFORMANCE" "1") = 0)
    by reflexivity.
  split; [exact H1 |]. split; [exact H2 |]. split; [exact H3 |].
  pose proof (trace_command_performance_twice (P := Sample.platform false)
                _ "1" ["git"; "status"] ["git"; "log"] H1 H2 H3) as T.
  cbv zeta in T. destruct T as (_ & _ & T & _). exact T.
Defined.

(** C2 as it is stated fails: after two calls the recorded pair is that of
    the second call, and so is the report at exit (one second since the
    second call, not two since the first). *)
Lemma first_call_wins_counterexample :
  let w := Sample.with_var "GIT_TRACE_PERFORMANCE" "1" in
  let w1 := snd (trace_command_performance (P := Sample.platform false)
                   ["git"; "status"] w) in
  let w2 := snd (trace_command_performance (P := Sample.platform false)
                   ["git"; "log"] w1) in
  (g_command_start_time w1, g_command_line w1) = (43200000000000, " 'git' 'status'")
  /\ (g_command_start_time w2, g_command_line w2) = (43201000000000, " 'git' 'log'")
  /\ (g_command_start_time w2, g_command_line w2)
     <> (g_command_start_time w1, g_command_line w1)
  /\ g_atexit w2 = [print_command_performance_atexit_hook]
  /\ written_to STDERR_FILENO
       (w_out (snd (process_exit (P := Sample.platform false) w2)))
     = "12:00:01.000000 performance: 1.000000000 s: git command: 'git' 'log'" +:+ nl.
Proof. vm_compute. repeat split. discriminate. Qed.

(** ** Escaping into the fixed buffer *)

Section Quoting.
Context {P : Platform}.

Lemma store_all_app (cs ds : list ascii) :
  forall buf p1,
    store_all buf p1 (cs ++ ds)
    = match store_all buf p1 cs with
      | Some (b, p) => store_all b p ds
      | None => None
      end.
Proof.
  induction cs as [| c cs IH]; intros buf p1; simpl; [done |].
  destruct (store buf p1 c) as [[b p] |]; [apply IH | done].
Qed.

(** The loop stores the escaped form, byte after byte. *)
Lemma quote_crnl_loop_stores (p2 : string) :
  forall buf p1,
    quote_crnl_loop p2 buf p1
    = store_all buf p1 (list_ascii_of_string (escape p2)).
Proof.
  induction p2 as [| c p2 IH]; intros buf p1; simpl; [done |].
  destruct (Ascii.eqb c NUL); [done |].
  rewrite chars_app, store_all_app. unfold escape_char.
  destruct (Ascii.eqb c BACKSLASH); [| destruct (Ascii.eqb c LF);
    [| destruct (Ascii.eqb c CR)]]; simpl;
    repeat match goal with
           | |- context [store ?b ?p ?x] => destruct (store b p x) as [[? ?] |]
           end; auto.
Qed.

(** Storing from the end of [pre] on: it fits or it overruns. *)
Lemma store_all_fits (cs : list ascii) :
  forall pre rest,
    store_all (pre ++ rest) (length pre) cs
    = if (length cs <=? length rest)%nat
      then Some (pre ++ cs ++ drop (length cs) rest, (length pre + length cs)%nat)
      else None.
Proof.
  induction cs as [| c cs IH]; intros pre rest; simpl.
  - by rewrite Nat.add_0_r, drop_0.
  - unfold store. rewrite length_app.
    destruct rest as [| r rest]; simpl.
    + assert ((length pre <? length pre + 0)%nat = false) as ->
        by (apply Nat.ltb_ge; lia). done.
    + assert ((length pre <? length pre + S (length rest))%nat = true) as ->
        by (apply Nat.ltb_lt; lia).
      rewrite insert_app_r_alt by lia. rewrite Nat.sub_diag. simpl.
      replace (pre ++ c :: rest) with ((pre ++ [c]) ++ rest)
        by (by rewrite <- app_assoc).
      replace (S (length pre)) with (length (pre ++ [c]))
        by (rewrite length_app; simpl; lia).
      rewrite IH. destruct (length cs <=? length rest)%nat; [| done].
      rewrite <- app_assoc. simpl. do 2 f_equal. rewrite length_app. simpl. lia.
Qed.

Lemma escape_no_nul (s : string) :
  Forall (fun c => c <> NUL) (list_ascii_of_string (escape s)).
Proof.
  induction s as [| c s IH]; simpl; [constructor |].
  destruct (Ascii.eqb_spec c NUL) as [| Hc]; [constructor |].
  rewrite chars_app. apply Forall_app. split; [| exact IH].
  unfold escape_char.
  destruct (Ascii.eqb c BACKSLASH); [| destruct (Ascii.eqb c LF);
    [| destruct (Ascii.eqb c CR)]]; simpl; repeat constructor; try done.
Qed.

Lemma cstring_until_nul (cs rest : list ascii) :
  Forall (fun c => c <> NUL) cs ->
  cstring (cs ++ NUL :: rest) = string_of_list_ascii cs.
Proof.
  induction 1 as [| c cs Hc _ IH]; simpl; [done |].
  destruct (Ascii.eqb_spec c NUL); [done |]. by rewrite IH.
Qed.

Lemma escape_char_length (c : ascii) :
  String.length (escape_char c)
  = if Ascii.eqb c BACKSLASH || Ascii.eqb c LF || Ascii.eqb c CR
    then 2%nat else 1%nat.
Proof.
  unfold escape_char.
  destruct (Ascii.eqb c BACKSLASH); [done |].
  destruct (Ascii.eqb c LF); [done |]. by destruct (Ascii.eqb c CR).
Qed.

Lemma chars_length (s : string) :
  length (list_ascii_of_string s) = String.length s.
Proof. induction s as [| c s IH]; simpl; [done | by rewrite IH]. Qed.

(** C10.  [quote_crnl] returns NULL for NULL.  Otherwise it stores the
    escaped form of the path, in which a backslash, a newline and a
    carriage return take two bytes each, into the [PATH_MAX] bytes of
    [new_path] without any check of the bounds: when the escaped form is
    shorter than [PATH_MAX] the buffer ends up holding it, followed by a
    NUL, and when it is not, a store lands outside the buffer. *)
Theorem quote_crnl_fixed_buffer (w : world) (path : string) :
  length (g_new_path w) = PATH_MAX ->
  let quoted := escape path in
  let n := String.length quoted in
  quote_crnl None w = (Done None, w)
  /\ (forall c, String.length (escape_char c)
                = if Ascii.eqb c BACKSLASH || Ascii.eqb c LF || Ascii.eqb c CR
                  then 2%nat else 1%nat)
  /\ ((n < PATH_MAX)%nat ->
      let buf := list_ascii_of_string quoted ++ NUL :: drop (S n) (g_new_path w) in
      quote_crnl (Some path) w = (Done (Some quoted), set_new_path (fun _ => buf) w)
      /\ cstring buf = quoted
      /\ buf !! n = Some NUL
      /\ length buf = PATH_MAX)
  /\ ((PATH_MAX <= n)%nat -> quote_crnl (Some path) w = (Overrun, w)).
Proof.
  intros Hlen quoted n.
  split; [done |]. split; [apply escape_char_length |].
  assert (Hloop : quote_crnl_loop path (g_new_path w) 0
                  = if (n <=? PATH_MAX)%nat
                    then Some (list_ascii_of_string quoted ++ drop n (g_new_path w), n)
                    else None).
  { rewrite quote_crnl_loop_stores. fold quoted.
    pose proof (store_all_fits (list_ascii_of_string quoted) [] (g_new_path w)) as H.
    simpl in H. rewrite H, chars_length, Hlen. done. }
  split.
  - intros Hfit buf. unfold quote_crnl, bind, gets. rewrite Hloop.
    assert ((n <=? PATH_MAX)%nat = true) as -> by (apply Nat.leb_le; lia).
    unfold store. rewrite length_app, length_drop, chars_length, Hlen.
    fold n. assert ((n <? n + (PATH_MAX - n))%nat = true) as ->
      by (apply Nat.ltb_lt; lia).
    assert (Hbuf : <[n := NUL]> (list_ascii_of_string quoted ++ drop n (g_new_path w))
                   = buf).
    { unfold buf. rewrite insert_app_r_alt by (rewrite chars_length; fold n; lia).
      rewrite chars_length. fold n. rewrite Nat.sub_diag.
      destruct (drop n (g_new_path w)) as [| x rest] eqn:Hd.
      - apply (f_equal length) in Hd. rewrite length_drop, Hlen in Hd. simpl in Hd. lia.
      - simpl. do 2 f_equal.
        replace (S n) with (n + 1)%nat by lia. rewrite <- drop_drop, Hd. done. }
    rewrite Hbuf. unfold modify, ret.
    assert (Hc : cstring buf = quoted).
    { unfold buf. rewrite cstring_until_nul by apply escape_no_nul.
      apply string_of_list_ascii_of_string. }
    rewrite Hc. split; [done |]. split; [done |]. split.
    + unfold buf. rewrite lookup_app_r by (rewrite chars_length; fold n; lia).
      rewrite chars_length. fold n. by rewrite Nat.sub_diag.
    + unfold buf. rewrite length_app. simpl.
      rewrite length_drop, chars_length, Hlen. fold n. lia.
  - intros Hover. unfold quote_crnl, bind, gets. rewrite Hloop.
    destruct (Nat.leb_spec n PATH_MAX) as [Hle |]; [| done].
    assert (n = PATH_MAX) as Hn by lia.
    unfold store. rewrite length_app, length_drop, chars_length, Hlen. fold n.
    assert ((n <? n + (PATH_MAX - n))%nat = false) as ->
      by (apply Nat.ltb_ge; lia).
    done.
Qed.

End Quoting.

Lemma quote_crnl_fixed_buffer_witness :
  let w := Sample.with_var "GIT_TRACE_SETUP" "1" in
  let path := "C:" +:+ String BACKSLASH ("dir" +:+ nl) in
  length (g_new_path w) = PATH_MAX (Platform := Sample.platform false)
  /\ (String.length (escape path) < PATH_MAX (Platform := Sample.platform false))%nat
  /\ fst (quote_crnl (Some path) w)
     = Done (Some ("C:" +:+ String BACKSLASH (String BACKSLASH "dir")
                   +:+ String BACKSLASH "n")).
Proof.
  assert (H : length (g_new_path (Sample.with_var "GIT_TRACE_SETUP" "1"))
              = PATH_MAX (Platform := Sample.platform false)) by reflexivity.
  assert (Hn : (String.length (escape ("C:" +:+ String BACKSLASH ("dir" +:+ nl)))
                < PATH_MAX (Platform := Sample.platform false))%nat)
    by (vm_compute; lia).
  split; [exact H |]. split; [exact Hn |].
  pose proof (quote_crnl_fixed_buffer (P := Sample.platform false)
                _ ("C:" +:+ String BACKSLASH ("dir" +:+ nl)) H) as T.
  cbv zeta in T. destruct T as (_ & _ & T & _).
  destruct (T Hn) as (T1 & _). rewrite T1. reflexivity.
Defined.

(** ** The double arithmetic of the performance line *)

Section Binary64.

Lemma digits2_pos_bounds (p : positive) :
  2 ^ (Z.pos (digits2_pos p) - 1) <= Z.pos p < 2 ^ Z.pos (digits2_pos p).
Proof.
  induction p as [p IH | p IH |]; simpl digits2_pos.
  - rewrite Pos2Z.inj_succ.
    replace (Z.succ (Z.pos (digits2_pos p)) - 1) with (Z.succ (Z.pos (digits2_pos p) - 1)) by lia.
    rewrite !Z.pow_succ_r by lia. lia.
  - rewrite Pos2Z.inj_succ.
    replace (Z.succ (Z.pos (digits2_pos p)) - 1) with (Z.succ (Z.pos (digits2_pos p) - 1)) by lia.
    rewrite !Z.pow_succ_r by lia. lia.
  - simpl. lia.
Qed.

Lemma Zdigits2_unique (z d : Z) :
  2 ^ (d - 1) <= z < 2 ^ d -> 0 < d -> Zdigits2 z = d.
Proof.
  intros Hz Hd.
  assert (0 < z) by (pose proof (Z.pow_pos_nonneg 2 (d - 1)); lia).
  destruct z as [| p | p]; try lia. simpl.
  pose proof (digits2_pos_bounds p) as Hp.
  assert (0 < Z.pos (digits2_pos p)) as Hpos by lia.
  set (d' := Z.pos (digits2_pos p)) in *.
  assert (Z.log2 (Z.pos p) = d' - 1) as H1 by (apply Z.log2_unique; [lia | replace (Z.succ (d' - 1)) with d' by lia; lia]).
  assert (Z.log2 (Z.pos p) = d - 1) as H2 by (apply Z.log2_unique; [lia | replace (Z.succ (d - 1)) with d by lia; lia]).
  lia.
Qed.

Lemma pos_iter_xO (p n : positive) :
  Z.pos (Pos.iter xO p n) = Z.pos p * 2 ^ Z.pos n.
Proof.
  induction n as [| n IH] using Pos.peano_ind.
  - simpl. lia.
  - rewrite Pos.iter_succ, Pos2Z.inj_succ, Z.pow_succ_r by lia.
    rewrite Pos2Z.inj_xO, IH. lia.
Qed.

Lemma shr_1_pos (m : Z) (r s : bool) :
  0 < m ->
  shr_1 (Build_shr_record m r s) = Build_shr_record (m / 2) (Z.odd m) (r || s).
Proof.
  intros H. destruct m as [| p | p]; try lia.
  destruct p as [p | p |]; simpl shr_1.
  - f_equal. rewrite Pos2Z.inj_xI. apply (Z.div_unique_pos _ 2 _ 1); lia.
  - f_equal. rewrite Pos2Z.inj_xO. apply (Z.div_unique_pos _ 2 _ 0); lia.
  - reflexivity.
Qed.

Lemma fexp_normal (x : Z) : -1021 <= x -> fexp 53 1024 x = x - 53.
Proof. intros H. unfold fexp, emin. lia. Qed.

Lemma loc_of_record_of_loc (m : Z) (l : location) :
  loc_of_shr_record (shr_record_of_loc m l) = l.
Proof. destruct l as [| []]; reflexivity. Qed.

Lemma shr_m_record_of_loc (m : Z) (l : location) :
  shr_m (shr_record_of_loc m l) = m.
Proof. destruct l as [| []]; reflexivity. Qed.

(** A mantissa of 53 bits needs no shift. *)
Lemma shr_fexp_53 (m e : Z) (l : location) :
  2 ^ 52 <= m < 2 ^ 53 -> -1074 <= e ->
  shr_fexp 53 1024 m e l = (shr_record_of_loc m l, e).
Proof.
  intros Hm He. unfold shr_fexp.
  rewrite (Zdigits2_unique m 53) by lia.
  rewrite fexp_normal by lia.
  replace (53 + e - 53 - e) with 0 by lia. reflexivity.
Qed.

(** A mantissa of 54 bits is shifted by one. *)
Lemma shr_fexp_54 (m e : Z) (l : location) :
  2 ^ 53 <= m < 2 ^ 54 -> -1074 <= e ->
  shr_fexp 53 1024 m e l
  = (Build_shr_record (m / 2) (Z.odd m)
       (match l with loc_Exact => false | _ => true end), e + 1).
Proof.
  intros Hm He. unfold shr_fexp.
  rewrite (Zdigits2_unique m 54) by lia.
  rewrite fexp_normal by lia.
  replace (54 + e - 53 - e) with 1 by lia. unfold shr. simpl iter_pos.
  f_equal. destruct l as [| []]; simpl shr_record_of_loc; rewrite shr_1_pos by lia;
    reflexivity.
Qed.

Lemma round_nearest_even_range (m : Z) (l : location) :
  m <= round_nearest_even m l <= m + 1.
Proof.
  destruct l as [| []]; simpl; try lia. destruct (Z.even m); lia.
Qed.

Lemma finite_of_Z (s : bool) (m e : Z) :
  0 < m -> e <= 971 ->
  match m with
  | 0 => S754_zero s
  | Z.pos p => if e <=? 1024 - 53 then S754_finite s p e else S754_infinity s
  | Z.neg _ => S754_nan
  end = S754_finite s (Z.to_pos m) e.
Proof.
  intros Hm He. destruct m as [| p | p]; try lia.
  assert ((e <=? 1024 - 53) = true) as -> by lia. reflexivity.
Qed.

(** Rounding a quotient of 53 bits. *)
Lemma binary_round_aux_53 (q e : Z) (l : location) :
  2 ^ 52 <= q < 2 ^ 53 -> -1074 <= e <= 970 ->
  binary_round_aux 53 1024 false q e l
  = let m := round_nearest_even q l in
    if m <? 2 ^ 53 then S754_finite false (Z.to_pos m) e
    else S754_finite false (Z.to_pos (2 ^ 52)) (e + 1).
Proof.
  intros Hq He. unfold binary_round_aux.
  rewrite shr_fexp_53 by lia.
  rewrite loc_of_record_of_loc, shr_m_record_of_loc.
  pose proof (round_nearest_even_range q l) as Hm.
  cbv zeta. set (m := round_nearest_even q l) in *.
  destruct (Z.ltb_spec m (2 ^ 53)) as [Hlt | Hge].
  - rewrite shr_fexp_53 by lia. cbn [shr_record_of_loc shr_m].
    apply finite_of_Z; lia.
  - assert (m = 2 ^ 53) as -> by lia.
    rewrite shr_fexp_54 by lia. cbn [shr_m].
    rewrite finite_of_Z by (try lia; reflexivity). reflexivity.
Qed.

(** Rounding a quotient of 54 bits that stays clear of 2^54. *)
Lemma binary_round_aux_54 (q e : Z) (l : location) :
  2 ^ 53 <= q < 2 ^ 54 - 2 -> -1074 <= e <= 970 ->
  binary_round_aux 53 1024 false q e l
  = S754_finite false
      (Z.to_pos (round_nearest_even (q / 2)
                   (loc_of_shr_record
                      (Build_shr_record (q / 2) (Z.odd q)
                         (match l with loc_Exact => false | _ => true end)))))
      (e + 1).
Proof.
  intros Hq He. unfold binary_round_aux.
  rewrite shr_fexp_54 by lia. cbn [shr_m].
  set (l' := loc_of_shr_record _).
  pose proof (round_nearest_even_range (q / 2) l') as Hm.
  set (m := round_nearest_even (q / 2) l') in *.
  assert (2 ^ 52 <= q / 2) by (apply Z.div_le_lower_bound; lia).
  assert (q / 2 < 2 ^ 53 - 1) by (apply Z.div_lt_upper_bound; lia).
  rewrite shr_fexp_53 by lia. cbn [shr_record_of_loc shr_m].
  apply finite_of_Z; lia.
Qed.

(** The quotient and the place of the remainder that [SFdiv] rounds, for
    two mantissas of 53 bits. *)
Lemma SFdiv_core_binary_53 (m1 m2 : positive) (e1 e2 : Z) :
  2 ^ 52 <= Z.pos m1 < 2 ^ 53 ->
  2 ^ 52 <= Z.pos m2 < 2 ^ 53 ->
  -1021 <= e1 - e2 ->
  SFdiv_core_binary 53 1024 (Z.pos m1) e1 (Z.pos m2) e2
  = (Z.pos m1 * 2 ^ 53 / Z.pos m2, e1 - e2 - 53,
     new_location (Z.pos m2) ((Z.pos m1 * 2 ^ 53) mod Z.pos m2)).
Proof.
  intros H1 H2 He. unfold SFdiv_core_binary.
  rewrite (Zdigits2_unique (Z.pos m1) 53), (Zdigits2_unique (Z.pos m2) 53) by lia.
  replace (53 + e1 - (53 + e2)) with (e1 - e2) by lia.
  rewrite fexp_normal by lia.
  rewrite Z.min_l by lia.
  replace (e1 - e2 - (e1 - e2 - 53)) with 53 by lia.
  rewrite Z.shiftl_mul_pow2 by lia.
  unfold Z.div, Z.modulo.
  destruct (Z.div_eucl (Z.pos m1 * 2 ^ 53) (Z.pos m2)) as [q r]. reflexivity.
Qed.

Lemma binary_round_aux_exact (m e : Z) :
  2 ^ 52 <= m < 2 ^ 53 -> -1074 <= e <= 970 ->
  binary_round_aux 53 1024 false m e loc_Exact
  = S754_finite false (Z.to_pos m) e.
Proof.
  intros Hm He. rewrite binary_round_aux_53 by lia. cbn [round_nearest_even].
  cbv zeta. by destruct (Z.ltb_spec m (2 ^ 53)); [| lia].
Qed.

(** An integer below 2^53 converts exactly. *)
Lemma binary64_of_Z_exact (n d : Z) :
  2 ^ (d - 1) <= n < 2 ^ d -> 0 < d <= 53 ->
  binary64_of_Z n = S754_finite false (Z.to_pos (n * 2 ^ (53 - d))) (d - 53).
Proof.
  intros Hn Hd.
  assert (0 < n) by (pose proof (Z.pow_pos_nonneg 2 (d - 1)); lia).
  destruct n as [| p | p]; try lia.
  unfold binary64_of_Z, binary_normalize, binary_round.
  change (Z.pos (digits2_pos p)) with (Zdigits2 (Z.pos p)).
  rewrite (Zdigits2_unique (Z.pos p) d) by lia.
  rewrite Z.add_0_r. rewrite fexp_normal by lia.
  assert (Hm : 2 ^ 52 <= Z.pos p * 2 ^ (53 - d) < 2 ^ 53).
  { assert (E1 : 2 ^ 52 = 2 ^ (d - 1) * 2 ^ (53 - d))
      by (rewrite <- Z.pow_add_r by lia; f_equal; lia).
    assert (E2 : 2 ^ 53 = 2 ^ d * 2 ^ (53 - d))
      by (rewrite <- Z.pow_add_r by lia; f_equal; lia).
    rewrite E1, E2.
    assert (0 < 2 ^ (53 - d)) by (apply Z.pow_pos_nonneg; lia).
    split; [apply Z.mul_le_mono_nonneg_r | apply Z.mul_lt_mono_pos_r]; lia. }
  unfold shl_align.
  destruct (d - 53 - 0) as [| k | k] eqn:Hk; try lia.
  - assert (d = 53) as Hd53 by lia. subst d.
    change (2 ^ (53 - 53)) with 1 in *. rewrite Z.mul_1_r in *.
    rewrite binary_round_aux_exact by lia. reflexivity.
  - pose proof (pos_iter_xO p k) as Hiter.
    assert (Z.pos k = 53 - d) as Hk' by lia. rewrite Hk' in Hiter.
    rewrite binary_round_aux_exact by lia.
    by rewrite Hiter.
Qed.

Lemma binary64_of_ten9 :
  binary64_of_Z 1000000000 = S754_finite false ten9_mantissa (-23).
Proof. reflexivity. Qed.

Lemma round_half_even_near (D E t : Z) :
  0 < E -> 2 * Z.abs t < E -> round_half_even (D * E + t) E = D.
Proof.
  intros HE Ht. unfold round_half_even.
  destruct (Z_lt_le_dec t 0) as [Hneg | Hpos].
  - assert (Hq : (D * E + t) / E = D - 1)
      by (symmetry; apply (Z.div_unique_pos _ E _ (E + t)); lia).
    assert (Hr : (D * E + t) mod E = E + t)
      by (symmetry; apply (Z.mod_unique_pos _ E (D - 1)); lia).
    rewrite Hq, Hr.
    destruct (Z.compare_spec (2 * (E + t)) E); lia.
  - assert (Hq : (D * E + t) / E = D)
      by (symmetry; apply (Z.div_unique_pos _ E _ t); lia).
    assert (Hr : (D * E + t) mod E = t)
      by (symmetry; apply (Z.mod_unique_pos _ E D); lia).
    rewrite Hq, Hr.
    destruct (Z.compare_spec (2 * t) E); lia.
Qed.

(** The quotient [SFdiv] rounds for [nanos / 10^9]: numerator and divisor
    share the factor 2^23. *)
Lemma nanos_to_seconds_unfold (D d : Z) :
  2 ^ (d - 1) <= D < 2 ^ d -> 0 < d <= 53 ->
  let N := D * 2 ^ (83 - d) in
  let q := N / 10 ^ 9 in
  let r := N mod 10 ^ 9 in
  nanos_to_seconds D
  = binary_round_aux 53 1024 false q (d - 83)
      (if r =? 0 then loc_Exact else loc_Inexact (2 * r ?= 10 ^ 9)).
Proof.
  intros HD Hd N q r. unfold nanos_to_seconds.
  rewrite (binary64_of_Z_exact D d HD Hd), binary64_of_ten9.
  assert (E1 : 2 ^ 52 = 2 ^ (d - 1) * 2 ^ (53 - d))
    by (rewrite <- Z.pow_add_r by lia; f_equal; lia).
  assert (E2 : 2 ^ 53 = 2 ^ d * 2 ^ (53 - d))
    by (rewrite <- Z.pow_add_r by lia; f_equal; lia).
  assert (Hpow : 0 < 2 ^ (53 - d)) by (apply Z.pow_pos_nonneg; lia).
  assert (Hm : 2 ^ 52 <= D * 2 ^ (53 - d) < 2 ^ 53).
  { rewrite E1, E2.
    split; [apply Z.mul_le_mono_nonneg_r | apply Z.mul_lt_mono_pos_r]; lia. }
  cbn [SFdiv xorb].
  rewrite SFdiv_core_binary_53; rewrite ?Z2Pos.id by lia; try lia;
    [| unfold ten9_mantissa; lia].
  replace (d - 53 - -23 - 53) with (d - 83) by lia.
  assert (HN : D * 2 ^ (53 - d) * 2 ^ 53 = N * 2 ^ 23).
  { unfold N. replace (83 - d) with ((53 - d) + 30) by lia.
    rewrite Z.pow_add_r by lia. lia. }
  assert (Hden : Z.pos ten9_mantissa = 10 ^ 9 * 2 ^ 23) by reflexivity.
  rewrite HN, Hden.
  rewrite Z.div_mul_cancel_r by lia.
  rewrite Z.mul_mod_distr_r by lia. fold q r.
  f_equal. unfold new_location. 
  assert (Z.even (10 ^ 9 * 2 ^ 23) = true) as -> by reflexivity.
  unfold new_location_even.
  assert (0 <= r < 10 ^ 9) by (apply Z.mod_pos_bound; lia).
  destruct (Z.eqb_spec r 0) as [-> | Hr]; [reflexivity |].
  assert ((r * 2 ^ 23 =? 0) = false) as -> by lia.
  f_equal. replace (2 * (r * 2 ^ 23)) with (2 * r * 2 ^ 23) by lia.
  symmetry. apply Zmult_compare_compat_r. lia.
Qed.

(** Below 2^23 seconds the double nearest to [D / 10^9] still determines
    [D]: rounded to nine decimals it gives [D] billionths back. *)
Theorem billionths_of_seconds (D : Z) :
  0 < D < exact_below ->
  exists m e, nanos_to_seconds D = S754_finite false m e /\ billionths m e = D.
Proof.
  unfold exact_below. intros HD.
  pose proof (Z.log2_spec D ltac:(lia)) as Hlog.
  pose proof (Z.log2_nonneg D) as Hlog0.
  assert (Hlog53 : Z.log2 D < 53) by (apply Z.log2_lt_pow2; lia).
  set (d := Z.log2 D + 1) in *.
  replace (Z.succ (Z.log2 D)) with d in Hlog by lia.
  replace (Z.log2 D) with (d - 1) in Hlog by lia.
  assert (Hd : 0 < d <= 53) by lia.
  rewrite (nanos_to_seconds_unfold D d Hlog Hd). cbv zeta.
  assert (HE : 2 ^ 30 <= 2 ^ (83 - d)) by (apply Z.pow_le_mono_r; lia).
  assert (HN : 2 ^ 82 <= D * 2 ^ (83 - d) < 2 ^ 83).
  { assert (E1 : 2 ^ 82 = 2 ^ (d - 1) * 2 ^ (83 - d))
      by (rewrite <- Z.pow_add_r by lia; f_equal; lia).
    assert (E2 : 2 ^ 83 = 2 ^ d * 2 ^ (83 - d))
      by (rewrite <- Z.pow_add_r by lia; f_equal; lia).
    rewrite E1, E2.
    split; [apply Z.mul_le_mono_nonneg_r | apply Z.mul_lt_mono_pos_r]; lia. }
  set (E := 2 ^ (83 - d)) in *. set (N := D * E) in *.
  pose proof (Z.div_mod N (10 ^ 9) ltac:(lia)) as Hdm.
  pose proof (Z.mod_pos_bound N (10 ^ 9) ltac:(lia)) as Hr.
  set (q := N / 10 ^ 9) in *. set (r := N mod 10 ^ 9) in *.
  assert (Hq : 2 ^ 52 <= q < 2 ^ 54 - 2) by lia.
  destruct (Z_lt_le_dec q (2 ^ 53)) as [Hq53 | Hq54].
  - rewrite binary_round_aux_53 by lia. cbv zeta.
    set (l := if r =? 0 then loc_Exact else loc_Inexact (2 * r ?= 10 ^ 9)).
    pose proof (round_nearest_even_range q l) as Hm.
    assert (Hround : 2 * Z.abs (round_nearest_even q l * 10 ^ 9 - N) <= 10 ^ 9).
    { unfold l. destruct (Z.eqb_spec r 0) as [Hr0 | Hr0]; cbn [round_nearest_even]; [lia |].
      destruct (Z.compare_spec (2 * r) (10 ^ 9)); try lia. destruct (Z.even q); lia. }
    set (m := round_nearest_even q l) in *.
    destruct (Z.ltb_spec m (2 ^ 53)) as [Hlt | Hge].
    + exists (Z.to_pos m), (d - 83). split; [reflexivity |].
      unfold billionths. assert ((0 <=? d - 83) = false) as -> by lia.
      rewrite Z2Pos.id by lia. replace (- (d - 83)) with (83 - d) by lia. fold E.
      replace (m * 10 ^ 9) with (D * E + (m * 10 ^ 9 - N)) by (unfold N; lia).
      apply round_half_even_near; lia.
    + exists (Z.to_pos (2 ^ 52)), (d - 83 + 1). split; [reflexivity |].
      unfold billionths. assert ((0 <=? d - 83 + 1) = false) as -> by lia.
      rewrite Z2Pos.id by lia. replace (- (d - 83 + 1)) with (82 - d) by lia.
      assert (HE' : E = 2 * 2 ^ (82 - d)).
      { unfold E. replace (83 - d) with (Z.succ (82 - d)) by lia.
        rewrite Z.pow_succ_r by lia. reflexivity. }
      set (E' := 2 ^ (82 - d)) in *.
      assert (HN' : N = 2 * (D * E')) by (unfold N; rewrite HE'; lia).
      replace (2 ^ 52 * 10 ^ 9) with (D * E' + (2 ^ 52 * 10 ^ 9 - D * E')) by lia.
      apply round_half_even_near; lia.
  - assert (Hd52 : d <= 52).
    { destruct (Z_le_gt_dec d 52) as [| Hgt]; [done |]. exfalso.
      assert (d = 53) as Hd53 by lia.
      assert (HE30 : E = 2 ^ 30) by (unfold E; rewrite Hd53; reflexivity).
      assert (q < 2 ^ 53); [| lia].
      apply Z.div_lt_upper_bound; [lia |]. unfold N. rewrite HE30. lia. }
    rewrite binary_round_aux_54 by lia.
    set (l' := loc_of_shr_record _).
    pose proof (round_nearest_even_range (q / 2) l') as Hm.
    pose proof (Z.div_mod q 2 ltac:(lia)) as Hq2.
    pose proof (Zmod_odd q) as Hodd.
    assert (Hround : Z.abs (2 * round_nearest_even (q / 2) l' * 10 ^ 9 - N) <= 10 ^ 9).
    { unfold l'. revert Hodd.
      destruct (Z.eqb_spec r 0) as [Hr0 | Hr0]; destruct (Z.odd q); intros Hodd;
        cbn [loc_of_shr_record round_nearest_even]; try lia.
      destruct (Z.even (q / 2)); lia. }
    set (m := round_nearest_even (q / 2) l') in *.
    exists (Z.to_pos m), (d - 83 + 1). split; [reflexivity |].
    unfold billionths. assert ((0 <=? d - 83 + 1) = false) as -> by lia.
    rewrite Z2Pos.id by lia. replace (- (d - 83 + 1)) with (82 - d) by lia.
    assert (HE' : E = 2 * 2 ^ (82 - d)).
    { unfold E. replace (83 - d) with (Z.succ (82 - d)) by lia.
      rewrite Z.pow_succ_r by lia. reflexivity. }
    assert (HE30 : 2 ^ 30 <= 2 ^ (82 - d)) by (apply Z.pow_le_mono_r; lia).
    set (E' := 2 ^ (82 - d)) in *.
    assert (HN' : N = 2 * (D * E')) by (unfold N; rewrite HE'; lia).
    replace (m * 10 ^ 9) with (D * E' + (m * 10 ^ 9 - D * E')) by lia.
    apply round_half_even_near; lia.
Qed.

End Binary64.

(** ** The performance line *)

Section PerformanceLine.
Context {P : Platform}.

Lemma digits_fixed_length (k : nat) (z : Z) :
  String.length (digits_fixed k z) = k.
Proof.
  revert z. induction k as [| k IH]; intros z; [done |].
  cbn [digits_fixed]. rewrite str_length_app, IH. simpl. lia.
Qed.

Lemma digits_fixed_mod (k : nat) (z : Z) :
  digits_fixed k (z mod 10 ^ Z.of_nat k) = digits_fixed k z.
Proof.
  revert z. induction k as [| k IH]; intros z; [done |].
  cbn [digits_fixed].
  rewrite Nat2Z.inj_succ, Z.pow_succ_r by lia.
  assert (Hp : 0 < 10 ^ Z.of_nat k) by (apply Z.pow_pos_nonneg; lia).
  rewrite Z.rem_mul_r by lia.
  pose proof (Z.mod_pos_bound z 10 ltac:(lia)) as Hz.
  assert (Hdiv : (z mod 10 + 10 * ((z / 10) mod 10 ^ Z.of_nat k)) / 10
                 = (z / 10) mod 10 ^ Z.of_nat k).
  { symmetry. apply (Z.div_unique_pos _ 10 _ (z mod 10)); lia. }
  assert (Hmod : (z mod 10 + 10 * ((z / 10) mod 10 ^ Z.of_nat k)) mod 10
                 = z mod 10).
  { symmetry. apply (Z.mod_unique_pos _ 10 ((z / 10) mod 10 ^ Z.of_nat k)); lia. }
  rewrite Hdiv, IH. unfold digit. by rewrite Hmod.
Qed.

(** Below 2^23 seconds, [%.9f] of the double prints the duration exactly. *)
Lemma fmt_9f_exact (D : Z) :
  0 <= D < exact_below -> fmt_9f (nanos_to_seconds D) = seconds_text D.
Proof.
  intros HD. destruct (Z.eq_dec D 0) as [-> | Hne]; [reflexivity |].
  destruct (billionths_of_seconds D ltac:(lia)) as (m & e & -> & Hb).
  unfold fmt_9f, seconds_text. cbv zeta. rewrite Hb.
  change (10 ^ 9) with (10 ^ Z.of_nat 9) at 2.
  by rewrite digits_fixed_mod.
Qed.

(** C8, as the code has it.  The payload of a performance line is
    "performance: ", the seconds as [%.9f] prints the double
    [(double) nanos / 1000000000], " s", and ": " with the message when the
    format is neither NULL nor empty; it is a function of the duration and
    the message alone.  The seconds always carry nine fractional digits, and
    for a duration below 2^23 seconds they are the duration exactly. *)
Theorem performance_line_payload (w : world) (v : string) (file : option string)
    (line : Z) (nanos : Z) (format : option string) (ap : list fmt_arg) :
  w_env w !! GIT_TRACE_PERFORMANCE = Some v ->
  is_disabling v = false ->
  trace_performance_vfl file line nanos format ap w
  = do_trace_print GIT_TRACE_PERFORMANCE
      (terminate_line
         (line_prefix file line (o_wall (w_orc w) (w_wall_n w))
          +:+ performance_payload nanos format ap))
      (prepared GIT_TRACE_PERFORMANCE w)
  /\ performance_payload nanos format ap
     = "performance: " +:+ fmt_9f (nanos_to_seconds nanos) +:+ " s"
       +:+ match format with
           | None => EmptyString
           | Some f => if Ascii.eqb (deref f) NUL then EmptyString
                       else ": " +:+ strbuf_vaddf f ap
           end
  /\ (0 <= nanos < exact_below ->
      fmt_9f (nanos_to_seconds nanos)
      = dec (nanos / 10 ^ 9) +:+ "." +:+ digits_fixed 9 (nanos mod 10 ^ 9))
  /\ String.length (digits_fixed 9 (nanos mod 10 ^ 9)) = 9%nat.
Proof.
  intros Hv Hon. split; [| split; [| split]].
  - unfold trace_performance_vfl, bind.
    rewrite (prepare_trace_line_on file line _ w v Hv Hon).
    cbn [negb]. unfold print_trace_line. f_equal. f_equal.
    unfold performance_payload.
    destruct format as [f |]; [destruct (negb (Ascii.eqb (deref f) NUL)) |];
      by rewrite ?str_app_assoc, ?str_app_nil_r.
  - unfold performance_payload. destruct format as [f |]; [| done].
    by destruct (Ascii.eqb (deref f) NUL).
  - apply fmt_9f_exact.
  - apply digits_fixed_length.
Qed.

End PerformanceLine.

Lemma performance_line_payload_witness :
  let w := Sample.with_var "GIT_TRACE_PERFORMANCE" "1" in
  w_env w !! GIT_TRACE_PERFORMANCE = Some "1"
  /\ is_disabling "1" = false
  /\ 0 <= 1234567891 < exact_below
  /\ fmt_9f (nanos_to_seconds 1234567891) = "1.234567891".
Proof.
  assert (H1 : w_env (Sample.with_var "GIT_TRACE_PERFORMANCE" "1")
               !! GIT_TRACE_PERFORMANCE = Some "1") by reflexivity.
  assert (H2 : is_disabling "1" = false) by reflexivity.
  assert (H3 : 0 <= 1234567891 < exact_below) by (unfold exact_below; lia).
  split; [exact H1 |]. split; [exact H2 |]. split; [exact H3 |].
  pose proof (performance_line_payload (P := Sample.platform false)
                _ "1" None 0 1234567891 None [] H1 H2) as T.
  destruct T as (_ & _ & T & _). rewrite (T H3). reflexivity.
Defined.

(** C8 as it is stated fails one nanosecond above 2^23 seconds: the double
    nearest to the quotient prints as ...002, the duration is ...001. *)
Lemma performance_seconds_counterexample :
  fmt_9f (nanos_to_seconds 8388608000000001) = "8388608.000000002"
  /\ seconds_text 8388608000000001 = "8388608.000000001"
  /\ fmt_9f (nanos_to_seconds 8388608000000001) <> seconds_text 8388608000000001.
Proof. vm_compute. repeat split. discriminate. Qed.

(** ** Sample runs *)

(** A path of [PATH_MAX - 1] bytes fits with its terminator, one of
    [PATH_MAX] bytes does not. *)
Example quote_crnl_at_the_limit :
  let w := Sample.with_var "GIT_TRACE_SETUP" "1" in
  fst (quote_crnl (Some (zeros 4095)) w) = Done (Some (zeros 4095))
  /\ fst (quote_crnl (Some (zeros 4096)) w) = Overrun
  /\ fst (quote_crnl (Some (zeros 4094 +:+ nl)) w) = Overrun.
Proof. vm_compute. repeat split. Qed.

(** The five lines of the setup report, with variadic macros. *)
Example trace_repo_setup_sample :
  let w := Sample.with_var "GIT_TRACE_SETUP" "1" in
  let r := trace_repo_setup (P := Sample.platform true) (Some "sub/") w in
  fst r = Done tt
  /\ written_to STDERR_FILENO (w_out (snd r))
     = "12:00:00.000000 trace.c:301 setup: git_dir: .git" +:+ nl
       +:+ "12:00:01.000000 trace.c:302 setup: git_common_dir: .git" +:+ nl
       +:+ "12:00:02.000000 trace.c:303 setup: worktree: (null)" +:+ nl
       +:+ "12:00:03.000000 trace.c:304 setup: cwd: /work" +:+ nl
       +:+ "12:00:04.000000 trace.c:305 setup: prefix: sub/" +:+ nl.
Proof. vm_compute. repeat split. Qed.

(** A file that cannot be opened: a warning of two lines, then the line on
    standard error. *)
Example trace_file_unopenable :
  let orc := {| o_wall := o_wall Sample.clocks; o_mono := o_mono Sample.clocks;
                o_noopen := <["/nowhere/t.log" := 2]> ∅; o_wfault := ∅;
                o_cwd := None; o_git_dir := None; o_git_common_dir := None;
                o_git_work_tree := None |} in
  let w := Sample.start orc (<["GIT_TRACE" := "/nowhere/t.log"]> ∅) Sample.std_fdt in
  written_to STDERR_FILENO
    (w_out (snd (trace_printf (P := Sample.platform false) "hello" [] w)))
  = "Could not open '/nowhere/t.log' for tracing: No such file or directory" +:+ nl
    +:+ "Defaulting to tracing on stderr..." +:+ nl
    +:+ "12:00:00.000000 hello" +:+ nl.
Proof. vm_compute. reflexivity. Qed.

(** * Further properties of trace.c *)

(** ** Elapsed time *)

Section Elapsed.
Context {P : Platform}.

Lemma wrap64_sub_add (a b c : Z) :
  wrap64 (wrap64 (a + b) - wrap64 (a + c)) = wrap64 (b - c).
Proof.
  unfold wrap64. rewrite Zminus_mod_idemp_l, Zminus_mod_idemp_r.
  f_equal. lia.
Qed.

(** X1.  With the clock calibrated, the time between two calls of
    [getnanotime] is the time between the two monotonic readings (modulo
    2^64), however many calls lie between them and whatever the wall clock
    does: no call reads it. *)
Theorem getnanotime_elapsed_is_monotonic (w : world) (n k : nat) :
  1 < g_offset w ->
  let wa := after_calls n w in
  let wb := after_calls (n + k) w in
  wrap64 (fst (getnanotime wb) - fst (getnanotime wa))
  = wrap64 (next_highres wb - next_highres wa)
  /\ w_wall_n (snd (getnanotime wb)) = w_wall_n w.
Proof.
  intros H wa wb.
  destruct (calibrated_forever n w H) as (_ & _ & Ea).
  destruct (calibrated_forever (n + k) w H) as (_ & Wb & Eb).
  fold wa in Ea. fold wb in Eb, Wb. rewrite Ea, Eb. cbn [fst snd].
  split; [apply wrap64_sub_add |].
  destruct (tick_mono_keeps wb) as (_ & -> & _). exact Wb.
Qed.

(** X2.  The same holds from the calibrating call on: if the first call
    stores an offset of 2 or more, a later call minus the first is the later
    monotonic reading minus the one taken at calibration. *)
Theorem getnanotime_elapsed_since_calibration (w : world) (n : nat) :
  g_offset w = 0 ->
  next_highres w <> 0 ->
  2 <= wrap64 (next_wall w - next_highres w) ->
  let wn := after_calls n (snd (getnanotime w)) in
  wrap64 (fst (getnanotime wn) - fst (getnanotime w))
  = wrap64 (next_highres wn - next_highres w).
Proof.
  intros H0 Hm Hbig wn.
  destruct (first_call w H0) as (F1 & _ & _ & F4).
  assert (Ho : g_offset (snd (getnanotime w)) = wrap64 (next_wall w - next_highres w)).
  { rewrite F4. by destruct (Z.eqb_spec (next_highres w) 0). }
  destruct (calibrated_forever n (snd (getnanotime w))) as (_ & _ & E); [lia |].
  fold wn in E. rewrite E, F1, Ho. cbn [fst].
  pose proof (wrap64_range (next_wall w)) as Hr.
  unfold wrap64. rewrite Zplus_mod_idemp_l, Zminus_mod_idemp_l.
  f_equal. lia.
Qed.

End Elapsed.

(** ** The conversions to nanoseconds *)

Section Conversions.
Context {P : Platform}.

(** X3.  The 64-bit arithmetic of [gettimeofday_nanos] and [highres_nanos]
    does not wrap for a reading of less than 18446744073 seconds (the year
    2554 for the wall clock): the result is the reading in nanoseconds, a
    whole number of microseconds for the wall clock. *)
Theorem nanos_conversions_exact (w : world) :
  let tv := o_wall (w_orc w) (w_wall_n w) in
  (0 <= tv_sec tv < 18446744073 -> 0 <= tv_usec tv < 1000000 ->
   gettimeofday_nanos w
   = (tv_sec tv * 1000000000 + tv_usec tv * 1000, tick_wall w)
   /\ fst (gettimeofday_nanos w) mod 1000 = 0)
  /\ (forall ts,
        HAVE_CLOCK_GETTIME = true ->
        o_mono (w_orc w) (w_mono_n w) = Some ts ->
        0 <= ts_sec ts < 18446744073 -> 0 <= ts_nsec ts < 1000000000 ->
        highres_nanos w = (ts_sec ts * 1000000000 + ts_nsec ts, tick_mono w)).
Proof.
  intros tv. split.
  - intros Hs Hu. rewrite gettimeofday_nanos_eq. unfold next_wall. fold tv.
    assert (E : wrap64 (wrap64 (tv_sec tv) * 1000000000 + tv_usec tv * 1000)
                = tv_sec tv * 1000000000 + tv_usec tv * 1000).
    { unfold wrap64. rewrite (Z.mod_small (tv_sec tv)) by lia.
      apply Z.mod_small. lia. }
    rewrite E. split; [reflexivity |]. cbn [fst].
    replace (tv_sec tv * 1000000000 + tv_usec tv * 1000)
      with ((tv_sec tv * 1000000 + tv_usec tv) * 1000) by lia.
    apply Z.mod_mul. lia.
  - intros ts Hc Hts Hs Hn. rewrite highres_nanos_eq. unfold next_highres.
    rewrite Hc, Hts. f_equal.
    unfold wrap64. rewrite (Z.mod_small (ts_sec ts)) by lia.
    apply Z.mod_small. lia.
Qed.

(** The stored offset stays an unsigned 64-bit number, and what
    [getnanotime] returns is one, in every state of the clock. *)
Lemma getnanotime_stays_in_range (w : world) :
  0 <= g_offset w < 2 ^ 64 ->
  0 <= fst (getnanotime w) < 2 ^ 64
  /\ 0 <= g_offset (snd (getnanotime w)) < 2 ^ 64.
Proof.
  intros H.
  destruct (Z_lt_le_dec 1 (g_offset w)) as [Hc | Hle].
  - rewrite (getnanotime_calibrated w Hc). cbn [fst snd].
    destruct (tick_mono_keeps w) as (-> & _). split; [apply wrap64_range | exact H].
  - destruct (Z.eq_dec (g_offset w) 1) as [H1 | Hn1].
    + rewrite (getnanotime_failed w H1). cbn [fst snd].
      destruct (tick_wall_keeps w) as (-> & _).
      split; [apply wrap64_range | exact H].
    + assert (H0 : g_offset w = 0) by lia.
      destruct (first_call w H0) as (F1 & _ & _ & F4). rewrite F1, F4.
      split; [apply wrap64_range |].
      destruct (next_highres w =? 0); [lia | apply wrap64_range].
Qed.

End Conversions.

(** ** The two resolvers *)

Section Resolvers.
Context {P : Platform}.

Lemma single_digit_value (v : string) :
  is_single_digit v = true -> is_disabling v = false -> 1 <= atoi v <= 9.
Proof.
  unfold is_single_digit. destruct v as [| c [| d r]]; try discriminate.
  - destruct c as [[] [] [] [] [] [] [] []]; vm_compute; intros; split; congruence.
  - intros H. apply andb_true_iff in H as [H _]. apply Z.eqb_eq in H.
    unfold strlen in H. cbn [String.length] in H.
    rewrite !Nat2Z.inj_succ in H.
    pose proof (Nat2Z.is_nonneg (String.length r)). lia.
Qed.

Lemma sys_open_result (path : string) (flags : list open_flag) (mode : Z) (w : world) :
  fst (sys_open path flags mode w) = -1
  \/ fst (sys_open path flags mode w) = fresh_fd (w_fdt w).
Proof.
  unfold sys_open. destruct w; simpl. run. simpl.
  destruct (o_noopen w_orc0 !! path); [by left |].
  destruct (_ && _); [by left | by right].
Qed.

Lemma trace_want_unfold (key : string) (w : world) :
  trace_want key w
  = (match w_env w !! key with
     | None => false
     | Some v => negb (is_disabling v)
     end, set_log (fun l => l ++ [Getenv key]) w).
Proof.
  unfold trace_want, is_disabling. destruct w; simpl. run. simpl.
  destruct (w_env0 !! key) as [v |]; [| reflexivity].
  by destruct (_ || _).
Qed.

Lemma get_trace_fd_unset (key : string) (nc : bool) (w : world) :
  w_env w !! key = None ->
  get_trace_fd key nc w = ((0, nc), set_log (fun l => l ++ [Getenv key]) w).
Proof.
  intros H. unfold get_trace_fd. destruct w; simpl in *. run. simpl. by rewrite H.
Qed.

(** X4.  [trace_want] and [get_trace_fd] agree: a key that [trace_want]
    reports as off resolves to 0 with nothing but the lookup done, and, with
    descriptor 0 in use, a key that it reports as on never resolves to 0. *)
Theorem trace_want_agrees_with_get_trace_fd (key : string) (nc : bool) (w : world) :
  is_Some (w_fdt w !! 0) ->
  (fst (trace_want key w) = false
   -> get_trace_fd key nc w = ((0, nc), set_log (fun l => l ++ [Getenv key]) w))
  /\ (fst (trace_want key w) = true -> fst (fst (get_trace_fd key nc w)) <> 0).
Proof.
  intros H0. rewrite trace_want_unfold. cbn [fst].
  destruct (w_env w !! key) as [v |] eqn:Hv.
  - rewrite (get_trace_fd_unfold key nc w v Hv). cbv zeta.
    destruct (is_disabling v) eqn:Hd; cbn [negb]; (split; [| intros Hon]);
      try done.
    destruct (is_stderr_word v); [done |].
    destruct (is_single_digit v) eqn:Hs.
    { cbn [fst]. pose proof (single_digit_value v Hs Hd). lia. }
    destruct (is_absolute_path v); [| done].
    pose proof (sys_open_result v [O_WRONLY; O_APPEND; O_CREAT] 438
                  (set_log (fun l => l ++ [Getenv key]) w)) as Hopen.
    destruct (sys_open _ _ _ _) as [fd w2]. cbn [fst] in Hopen.
    destruct (Z.eqb_spec fd (-1)) as [| Hne]; [done |]. cbn [fst].
    destruct Hopen as [| ->]; [done |].
    assert (is_Some (w_fdt (set_log (fun l => l ++ [Getenv key]) w) !! 0))
      by (by destruct w).
    pose proof (fresh_fd_nonzero _ H). lia.
  - rewrite (get_trace_fd_unset key nc w Hv). split; done.
Qed.

End Resolvers.

Lemma trace_want_agrees_with_get_trace_fd_witness :
  let w := Sample.with_var "GIT_TRACE" "/tmp/t.log" in
  is_Some (w_fdt w !! 0)
  /\ fst (fst (get_trace_fd (P := Sample.platform false) "GIT_TRACE" false w)) <> 0.
Proof.
  assert (H : is_Some (w_fdt (Sample.with_var "GIT_TRACE" "/tmp/t.log") !! 0))
    by (eexists; reflexivity).
  split; [exact H |].
  apply (trace_want_agrees_with_get_trace_fd (P := Sample.platform false)
           "GIT_TRACE" false _ H).
  reflexivity.
Defined.

(** ** Standard error by name *)

Section StderrWord.
Context {P : Platform}.

Lemma true_word_tests (v : string) :
  lower v = "true" -> is_disabling v = false /\ is_stderr_word v = true.
Proof.
  intros H. split.
  - destruct v as [| c r]; [discriminate |].
    cbn [lower] in H. injection H as Hc _.
    destruct c as [[] [] [] [] [] [] [] []]; try discriminate Hc; reflexivity.
  - unfold is_stderr_word. rewrite (strcasecmp_lower v "true" H).
    apply orb_true_r.
Qed.

(** X5.  The word "true", in any mix of upper and lower case, sends the
    line to standard error: nothing is opened, no diagnostic is printed, and
    the descriptor is not closed. *)
Theorem true_in_any_case_is_stderr (key : string) (w : world) (v buf : string) :
  w_env w !! key = Some v ->
  lower v = "true" ->
  get_trace_fd key false w
  = ((STDERR_FILENO, false), set_log (fun l => l ++ [Getenv key]) w)
  /\ (w_fdt w !! STDERR_FILENO = Some FdStream ->
      o_wfault (w_orc w) !! STDERR_FILENO = None ->
      do_trace_print key buf w
      = (tt, set_out (fun o => o ++ [(STDERR_FILENO, buf)])
               (set_log (fun l => l ++ [Getenv key; WriteFd STDERR_FILENO buf]) w))).
Proof.
  intros Hv Ht. destruct (true_word_tests v Ht) as (Hd & Hs).
  assert (Hget : get_trace_fd key false w
                 = ((STDERR_FILENO, false), set_log (fun l => l ++ [Getenv key]) w)).
  { rewrite (get_trace_fd_unfold key false w v Hv). cbv zeta. by rewrite Hd, Hs. }
  split; [exact Hget |]. intros Hfd Hok.
  unfold do_trace_print, bind. rewrite Hget. cbn.
  rewrite (write_or_whine_pipe_stream STDERR_FILENO buf err_msg
             (set_log (fun l => l ++ [Getenv key]) w))
    by (by destruct w).
  unfold ret. by rewrite set_log_twice.
Qed.

End StderrWord.

Lemma true_in_any_case_is_stderr_witness :
  let w := Sample.with_var "GIT_TRACE" "TrUe" in
  w_env w !! "GIT_TRACE" = Some "TrUe"
  /\ lower "TrUe" = "true"
  /\ fst (get_trace_fd (P := Sample.platform false) "GIT_TRACE" false w)
     = (STDERR_FILENO, false).
Proof.
  assert (H1 : w_env (Sample.with_var "GIT_TRACE" "TrUe") !! "GIT_TRACE"
               = Some "TrUe") by reflexivity.
  assert (H2 : lower "TrUe" = "true") by reflexivity.
  split; [exact H1 |]. split; [exact H2 |].
  destruct (true_in_any_case_is_stderr (P := Sample.platform false)
              "GIT_TRACE" _ "TrUe" EmptyString H1 H2) as (T & _).
  rewrite T. reflexivity.
Defined.

(** ** A trace file that does not open *)

Section OpenFailure.
Context {P : Platform}.



End OpenFailure.

(** ** Descriptors the tracer did not open *)

Section Inherited.
Context {P : Platform}.

Lemma fprintf_stderr_keeps_streams (text : string) (w : world) (k : Z) :
  w_fdt w !! k = Some FdStream ->
  w_fdt (snd (fprintf_stderr text w)) !! k = Some FdStream.
Proof.
  intros Hk. unfold fprintf_stderr. destruct w; simpl in *. run. simpl.
  destruct (w_fdt0 !! STDERR_FILENO) as [d |] eqn:Hfd; simpl; [| exact Hk].
  destruct (o_wfault w_orc0 !! STDERR_FILENO) as [[n e] |]; destruct d; simpl;
    try exact Hk;
    (destruct (decide (STDERR_FILENO = k)) as [<- | Hne];
       [congruence | by rewrite lookup_insert_ne]).
Qed.

Lemma fprintf_stderr_dom (text : string) (w : world) :
  dom (w_fdt (snd (fprintf_stderr text w))) = dom (w_fdt w).
Proof.
  unfold fprintf_stderr. destruct w; simpl in *. run. simpl.
  destruct (w_fdt0 !! STDERR_FILENO) as [d |] eqn:Hfd; simpl; [| done].
  apply elem_of_dom_2 in Hfd.
  destruct (o_wfault w_orc0 !! STDERR_FILENO) as [[n e] |]; destruct d; simpl;
    try done; rewrite dom_insert_L; apply subseteq_union_1_L;
    by apply singleton_subseteq_l.
Qed.

Lemma write_in_full_keeps_streams (fd : Z) (data : string) (w : world) (k : Z) :
  w_fdt w !! k = Some FdStream ->
  w_fdt (snd (write_in_full fd data w)) !! k = Some FdStream.
Proof.
  intros Hk. unfold write_in_full. destruct w; simpl in *. run. simpl.
  destruct (w_fdt0 !! fd) as [d |] eqn:Hfd; simpl; [| exact Hk].
  destruct (o_wfault w_orc0 !! fd) as [[n e] |]; destruct d; simpl;
    try exact Hk;
    (destruct (decide (fd = k)) as [-> | Hne];
       [congruence | by rewrite lookup_insert_ne]).
Qed.

Lemma write_in_full_dom (fd : Z) (data : string) (w : world) :
  dom (w_fdt (snd (write_in_full fd data w))) = dom (w_fdt w).
Proof.
  unfold write_in_full. destruct w; simpl in *. run. simpl.
  destruct (w_fdt0 !! fd) as [d |] eqn:Hfd; simpl; [| done].
  apply elem_of_dom_2 in Hfd.
  destruct (o_wfault w_orc0 !! fd) as [[n e] |]; destruct d; simpl;
    try done; rewrite dom_insert_L; apply subseteq_union_1_L;
    by apply singleton_subseteq_l.
Qed.

Lemma write_or_whine_pipe_keeps_streams (fd : Z) (buf msg : string) (w : world) (k : Z) :
  w_fdt w !! k = Some FdStream ->
  w_fdt (snd (write_or_whine_pipe fd buf msg w)) !! k = Some FdStream.
Proof.
  intros Hk. unfold write_or_whine_pipe, bind.
  pose proof (write_in_full_keeps_streams fd buf w k Hk) as Hw.
  destruct (write_in_full fd buf w) as [r w1]. cbn [snd] in Hw.
  destruct (r <? 0); [| exact Hw]. unfold gets.
  pose proof (fprintf_stderr_keeps_streams
                (msg +:+ ": write error (" +:+ strerror (w_errno w1) +:+ ")" +:+ nl)
                w1 k Hw) as Hf.
  by destruct (fprintf_stderr _ w1).
Qed.

Lemma write_or_whine_pipe_dom (fd : Z) (buf msg : string) (w : world) :
  dom (w_fdt (snd (write_or_whine_pipe fd buf msg w))) = dom (w_fdt w).
Proof.
  unfold write_or_whine_pipe, bind.
  pose proof (write_in_full_dom fd buf w) as Hw.
  destruct (write_in_full fd buf w) as [r w1]. cbn [snd] in Hw.
  destruct (r <? 0); [| exact Hw]. unfold gets.
  pose proof (fprintf_stderr_dom
                (msg +:+ ": write error (" +:+ strerror (w_errno w1) +:+ ")" +:+ nl)
                w1) as Hf.
  destruct (fprintf_stderr _ w1). cbn [snd] in *. by rewrite <- Hw.
Qed.

Lemma sys_open_table (path : string) (flags : list open_flag) (mode : Z) (w : world) :
  (fst (sys_open path flags mode w) = -1
   /\ w_fdt (snd (sys_open path flags mode w)) = w_fdt w)
  \/ (exists d,
        fst (sys_open path flags mode w) = fresh_fd (w_fdt w)
        /\ w_fdt (snd (sys_open path flags mode w))
           = <[fresh_fd (w_fdt w) := d]> (w_fdt w)).
Proof.
  unfold sys_open. destruct w; simpl. run. simpl.
  destruct (o_noopen w_orc0 !! path); [by left |].
  destruct (_ && _); [by left |]. right. by eexists.
Qed.

Lemma print_and_close_keeps_streams (buf : string) (fd : Z) (nc : bool)
    (w : world) (k : Z) :
  w_fdt w !! k = Some FdStream ->
  (nc = true -> fd <> k) ->
  w_fdt (snd ((if fd =? 0 then ret tt
               else bind (write_or_whine_pipe fd buf err_msg)
                      (fun _ => if nc then sys_close fd else ret tt)) w)) !! k
  = Some FdStream.
Proof.
  intros Hk Hne. destruct (fd =? 0); [exact Hk |]. unfold bind.
  pose proof (write_or_whine_pipe_keeps_streams fd buf err_msg w k Hk) as Hw.
  destruct (write_or_whine_pipe fd buf err_msg w) as [r w3]. cbn [snd] in Hw.
  destruct nc; [| exact Hw].
  unfold sys_close. destruct w3; simpl in *. run. simpl.
  rewrite lookup_delete_ne; [exact Hw | by apply Hne].
Qed.

(** X7.  A trace call never closes or replaces a stream it did not open:
    whatever the key holds and whether opening and writing succeed or fail,
    every stream that was open before the call is open after it. *)
Theorem do_trace_print_keeps_streams (key buf : string) (w : world) (k : Z) :
  w_fdt w !! k = Some FdStream ->
  w_fdt (snd (do_trace_print key buf w)) !! k = Some FdStream.
Proof.
  intros Hk. unfold do_trace_print. unfold bind at 1.
  set (w1 := set_log (fun l => l ++ [Getenv key]) w).
  assert (Hk1 : w_fdt w1 !! k = Some FdStream) by (by destruct w).
  destruct (w_env w !! key) as [v |] eqn:Hv.
  2: { rewrite (get_trace_fd_unset key false w Hv). exact Hk1. }
  rewrite (get_trace_fd_unfold key false w v Hv). cbv zeta. fold w1.
  destruct (is_disabling v); [exact Hk1 |].
  destruct (is_stderr_word v);
    [by apply (print_and_close_keeps_streams buf STDERR_FILENO false) |].
  destruct (is_single_digit v);
    [by apply (print_and_close_keeps_streams buf (atoi v) false) |].
  destruct (is_absolute_path v).
  - destruct (sys_open_table v [O_WRONLY; O_APPEND; O_CREAT] 438 w1)
      as [[Hm Ht] | (d & Hf & Ht)];
      destruct (sys_open v [O_WRONLY; O_APPEND; O_CREAT] 438 w1) as [fd w2];
      cbn [fst snd] in *.
    + subst fd. cbn [Z.eqb].
      apply (print_and_close_keeps_streams buf STDERR_FILENO false); [| done].
      apply fprintf_stderr_keeps_streams. by rewrite Ht.
    + assert (Hfree : w_fdt w1 !! fresh_fd (w_fdt w1) = None) by apply fresh_fd_free.
      assert (Hne : fresh_fd (w_fdt w1) <> k) by congruence.
      assert (Hk2 : w_fdt w2 !! k = Some FdStream)
        by (rewrite Ht; by rewrite lookup_insert_ne).
      subst fd.
      destruct (Z.eqb_spec (fresh_fd (w_fdt w1)) (-1)) as [Hm | _].
      * apply (print_and_close_keeps_streams buf STDERR_FILENO false); [| done].
        by apply fprintf_stderr_keeps_streams.
      * by apply (print_and_close_keeps_streams buf (fresh_fd (w_fdt w1)) true).
  - apply (print_and_close_keeps_streams buf STDERR_FILENO false); [| done].
    by do 3 apply fprintf_stderr_keeps_streams.
Qed.

(** X8.  With descriptor 0 in use, a trace call leaves the set of open
    descriptors as it found it: the file it opens for the line is closed
    again, and nothing else is opened or closed. *)
Theorem do_trace_print_leaks_no_descriptor (key buf : string) (w : world) :
  is_Some (w_fdt w !! 0) ->
  dom (w_fdt (snd (do_trace_print key buf w))) = dom (w_fdt w).
Proof.
  intros H0. unfold do_trace_print. unfold bind at 1.
  set (w1 := set_log (fun l => l ++ [Getenv key]) w).
  assert (E1 : w_fdt w1 = w_fdt w) by (by destruct w).
  assert (Hkept : forall fd w2 X,
            dom (w_fdt w2) = X ->
            dom (w_fdt (snd ((if fd =? 0 then ret tt
                              else bind (write_or_whine_pipe fd buf err_msg)
                                     (fun _ => ret tt)) w2))) = X).
  { intros fd w2 X <-. destruct (fd =? 0); [done |]. unfold bind, ret.
    pose proof (write_or_whine_pipe_dom fd buf err_msg w2) as Hw.
    by destruct (write_or_whine_pipe fd buf err_msg w2). }
  destruct (w_env w !! key) as [v |] eqn:Hv.
  2: { rewrite (get_trace_fd_unset key false w Hv). by rewrite <- E1. }
  rewrite (get_trace_fd_unfold key false w v Hv). cbv zeta. fold w1.
  destruct (is_disabling v); [by rewrite <- E1 |].
  destruct (is_stderr_word v); [by apply Hkept; rewrite E1 |].
  destruct (is_single_digit v); [by apply Hkept; rewrite E1 |].
  destruct (is_absolute_path v).
  - destruct (sys_open_table v [O_WRONLY; O_APPEND; O_CREAT] 438 w1)
      as [[Hm Ht] | (d & Hf & Ht)];
      destruct (sys_open v [O_WRONLY; O_APPEND; O_CREAT] 438 w1) as [fd w2];
      cbn [fst snd] in *.
    + subst fd. rewrite Z.eqb_refl. apply Hkept.
      by rewrite fprintf_stderr_dom, Ht, E1.
    + assert (Hfree : w_fdt w1 !! fresh_fd (w_fdt w1) = None) by apply fresh_fd_free.
      assert (Hpos : 0 < fresh_fd (w_fdt w1))
        by (apply fresh_fd_nonzero; by rewrite E1).
      subst fd.
      destruct (Z.eqb_spec (fresh_fd (w_fdt w1)) (-1)) as [Hm | _]; [lia |].
      destruct (Z.eqb_spec (fresh_fd (w_fdt w1)) 0) as [| _]; [lia |].
      unfold bind.
      pose proof (write_or_whine_pipe_dom (fresh_fd (w_fdt w1)) buf err_msg w2) as Hw.
      destruct (write_or_whine_pipe _ buf err_msg w2) as [r w3]. cbn [snd] in Hw.
      apply not_elem_of_dom in Hfree.
      unfold sys_close. destruct w3; simpl in *. run. simpl.
      rewrite dom_delete_L, Hw, Ht, dom_insert_L, <- E1.
      rewrite difference_union_distr_l_L, difference_diag_L, union_empty_l_L.
      apply difference_disjoint_L. by apply disjoint_singleton_r.
  - apply Hkept. by rewrite !fprintf_stderr_dom, E1.
Qed.

End Inherited.

(** ** The end of the buffer *)

(** X9.  The newline rule of [print_trace_line] leaves an empty buffer
    empty, and applying it twice is the same as applying it once. *)
Theorem terminate_line_idempotent (buf : string) :
  terminate_line EmptyString = EmptyString
  /\ terminate_line (terminate_line buf) = terminate_line buf.
Proof.
  split; [reflexivity |].
  destruct buf as [| c r]; [reflexivity |].
  destruct (terminate_line_cases (String c r)) as [[Hl Ht] | [Hl Ht]];
    [done | by rewrite Ht | rewrite Ht].
  unfold terminate_line at 1.
  rewrite (bool_decide_eq_true_2 _ (last_char_app_one (String c r) LF)).
  cbn [negb]. by rewrite andb_false_r.
Qed.


(** ** What quoting keeps and what it removes *)

Section QuotedPaths.

Lemma unescape_escape (s : string) : unescape (escape s) = until_nul s.
Proof.
  induction s as [| c s IH]; [done |]. cbn [escape until_nul].
  destruct (Ascii.eqb_spec c NUL) as [| Hnul]; [done |].
  unfold escape_char.
  destruct (Ascii.eqb_spec c BACKSLASH) as [-> | Hb].
  { rewrite !str_app_cons, str_app_nil_l. cbn. by rewrite IH. }
  destruct (Ascii.eqb_spec c LF) as [-> | Hl].
  { rewrite !str_app_cons, str_app_nil_l. cbn. by rewrite IH. }
  destruct (Ascii.eqb_spec c CR) as [-> | Hr].
  { rewrite !str_app_cons, str_app_nil_l. cbn. by rewrite IH. }
  rewrite str_app_cons, str_app_nil_l. cbn [unescape].
  destruct (Ascii.eqb_spec c BACKSLASH); [done |]. by rewrite IH.
Qed.

Lemma escape_one_line (s : string) :
  Forall (fun c => c <> LF /\ c <> CR) (list_ascii_of_string (escape s)).
Proof.
  induction s as [| c s IH]; cbn [escape]; [constructor |].
  destruct (Ascii.eqb_spec c NUL) as [| Hnul]; [constructor |].
  rewrite chars_app. apply Forall_app. split; [| exact IH].
  unfold escape_char.
  destruct (Ascii.eqb_spec c BACKSLASH) as [-> | Hb]; [by repeat constructor |].
  destruct (Ascii.eqb_spec c LF) as [-> | Hl]; [by repeat constructor |].
  destruct (Ascii.eqb_spec c CR) as [-> | Hr]; [by repeat constructor |].
  by repeat constructor.
Qed.

Lemma escape_plain (s : string) :
  forallb plain (list_ascii_of_string (until_nul s)) = true ->
  escape s = until_nul s.
Proof.
  induction s as [| c s IH]; [done |]. cbn [escape until_nul].
  destruct (Ascii.eqb c NUL); [done |].
  cbn [list_ascii_of_string forallb]. intros [Hc Hs]%andb_true_iff.
  unfold plain in Hc. apply negb_true_iff in Hc.
  apply orb_false_iff in Hc as [Hc Hr]. apply orb_false_iff in Hc as [Hb Hl].
  unfold escape_char. rewrite Hb, Hl, Hr, str_app_cons, str_app_nil_l.
  by rewrite IH.
Qed.

(** The two ways [quote_crnl] ends on a path: the escaped form and its NUL
    fit into [new_path], or a store lands outside. *)
Lemma quote_crnl_cases (w : world) (path : string) :
  let q := escape path in
  let n := String.length q in
  ((n < length (g_new_path w))%nat
   /\ quote_crnl (Some path) w
      = (Done (Some q),
         set_new_path
           (fun _ => list_ascii_of_string q ++ NUL :: drop (S n) (g_new_path w)) w))
  \/ ((length (g_new_path w) <= n)%nat
      /\ quote_crnl (Some path) w = (Overrun, w)).
Proof.
  intros q n. set (L := length (g_new_path w)).
  assert (Hloop : quote_crnl_loop path (g_new_path w) 0
                  = if (n <=? L)%nat
                    then Some (list_ascii_of_string q ++ drop n (g_new_path w), n)
                    else None).
  { rewrite quote_crnl_loop_stores. fold q.
    pose proof (store_all_fits (list_ascii_of_string q) [] (g_new_path w)) as H.
    simpl in H. rewrite H, chars_length. done. }
  unfold quote_crnl, bind, gets. rewrite Hloop.
  destruct (Nat.leb_spec n L) as [Hle | Hgt]; [| right; split; [lia | done]].
  unfold store. rewrite length_app, length_drop, chars_length. fold n L.
  destruct (Nat.ltb_spec n (n + (L - n))) as [Hlt | Hge];
    [left | right; split; [lia | done]].
  split; [lia |]. unfold modify, ret.
  assert (Hbuf : <[n := NUL]> (list_ascii_of_string q ++ drop n (g_new_path w))
                 = list_ascii_of_string q ++ NUL :: drop (S n) (g_new_path w)).
  { rewrite insert_app_r_alt by (rewrite chars_length; fold n; lia).
    rewrite chars_length. fold n. rewrite Nat.sub_diag.
    destruct (drop n (g_new_path w)) as [| x rest] eqn:Hd.
    - apply (f_equal length) in Hd. rewrite length_drop in Hd. fold L in Hd.
      simpl in Hd. lia.
    - simpl. do 2 f_equal.
      replace (S n) with (n + 1)%nat by lia. rewrite <- drop_drop, Hd. done. }
  rewrite Hbuf.
  rewrite cstring_until_nul by apply escape_no_nul.
  by rewrite string_of_list_ascii_of_string.
Qed.

Lemma quote_crnl_done (w : world) (path q : string) :
  fst (quote_crnl (Some path) w) = Done (Some q) -> q = escape path.
Proof.
  destruct (quote_crnl_cases w path) as [[_ ->] | [_ ->]]; cbn [fst]; congruence.
Qed.

(** X10.  A quoted path is one line: whatever the path, the string
    [quote_crnl] returns holds no newline and no carriage return. *)
Theorem quote_crnl_result_is_one_line (w : world) (path q : string) :
  fst (quote_crnl (Some path) w) = Done (Some q) ->
  Forall (fun c => c <> LF /\ c <> CR) (list_ascii_of_string q).
Proof. intros ->%quote_crnl_done. apply escape_one_line. Qed.

(** X11.  Quoting loses nothing: two paths that [quote_crnl] turns into the
    same string are the same C string. *)
Theorem quote_crnl_is_injective (w w' : world) (a b q : string) :
  fst (quote_crnl (Some a) w) = Done (Some q) ->
  fst (quote_crnl (Some b) w') = Done (Some q) ->
  until_nul a = until_nul b.
Proof.
  intros Ha%quote_crnl_done Hb%quote_crnl_done.
  rewrite <- (unescape_escape a), <- (unescape_escape b). congruence.
Qed.

(** X12.  A path without backslash, newline and carriage return that fits
    into [new_path] with its NUL is returned as it is. *)
Theorem quote_crnl_plain_path_unchanged (w : world) (path : string) :
  forallb plain (list_ascii_of_string (until_nul path)) = true ->
  (String.length (until_nul path) < length (g_new_path w))%nat ->
  fst (quote_crnl (Some path) w) = Done (Some (until_nul path)).
Proof.
  intros Hplain Hfit. pose proof (escape_plain path Hplain) as He.
  destruct (quote_crnl_cases w path) as [[_ ->] | [Hover _]]; cbn [fst].
  - by rewrite He.
  - rewrite He in Hover. lia.
Qed.

(** X13.  The result lives in the one static buffer: after a second call
    the buffer, and with it the string the first call returned, reads as the
    quoted second path; the size of the buffer never changes. *)
Theorem quote_crnl_result_is_overwritten (w : world) (a b : string) :
  (String.length (escape a) < length (g_new_path w))%nat ->
  (String.length (escape b) < length (g_new_path w))%nat ->
  let w1 := snd (quote_crnl (Some a) w) in
  let w2 := snd (quote_crnl (Some b) w1) in
  fst (quote_crnl (Some a) w) = Done (Some (escape a))
  /\ cstring (g_new_path w1) = escape a
  /\ fst (quote_crnl (Some b) w1) = Done (Some (escape b))
  /\ cstring (g_new_path w2) = escape b
  /\ length (g_new_path w2) = length (g_new_path w).
Proof.
  intros Ha Hb w1 w2.
  assert (Hstep : forall w0 p,
            (String.length (escape p) < length (g_new_path w0))%nat ->
            fst (quote_crnl (Some p) w0) = Done (Some (escape p))
            /\ cstring (g_new_path (snd (quote_crnl (Some p) w0))) = escape p
            /\ length (g_new_path (snd (quote_crnl (Some p) w0)))
               = length (g_new_path w0)).
  { intros w0 p Hp.
    destruct (quote_crnl_cases w0 p) as [[_ ->] | [Hover _]]; [| lia].
    cbn [fst snd]. split; [done |].
    assert (Hg : forall f, g_new_path (set_new_path f w0) = f (g_new_path w0))
      by (by destruct w0).
    rewrite Hg. split.
    - rewrite cstring_until_nul by apply escape_no_nul.
      apply string_of_list_ascii_of_string.
    - rewrite length_app. cbn [length]. rewrite length_drop, chars_length. lia. }
  destruct (Hstep w a Ha) as (A1 & A2 & A3). fold w1 in A2, A3.
  assert (Hb1 : (String.length (escape b) < length (g_new_path w1))%nat)
    by (by rewrite A3).
  destruct (Hstep w1 b Hb1) as (B1 & B2 & B3). fold w2 in B2, B3.
  repeat split; try done. by rewrite B3.
Qed.

End QuotedPaths.


(** ** The report of the repository setup *)

Section SetupReportFacts.
Context {P : Platform}.






(** X15.  Without a working directory, or with one that does not fit into
    [PATH_MAX] bytes with its NUL, an active [trace_repo_setup] ends the
    process with "Unable to get current working directory" before it has
    printed anything. *)
Theorem trace_repo_setup_dies_without_cwd (prefix : option string) (w : world)
    (v : string) :
  w_env w !! "GIT_TRACE_SETUP" = Some v ->
  is_disabling v = false ->
  (o_cwd (w_orc w) = None
   \/ exists d, o_cwd (w_orc w) = Some d /\ (PATH_MAX <= String.length d)%nat) ->
  trace_repo_setup prefix w
  = (Died "Unable to get current working directory",
     set_log (fun l => l ++ [Getenv "GIT_TRACE_SETUP"; Getcwd]) w).
Proof.
  intros Hv Hd Hcwd. unfold trace_repo_setup. unfold bind at 1.
  rewrite (trace_want_on _ w v Hv Hd). cbn [negb].
  unfold getcwd. destruct w; simpl in *. run. simpl.
  destruct Hcwd as [-> | (d & -> & Hlen)]; simpl.
  - by rewrite <- app_assoc.
  - apply Nat.ltb_ge in Hlen. rewrite Hlen. simpl. by rewrite <- app_assoc.
Qed.

End SetupReportFacts.


(** ** The seconds of a long duration *)

Section LongDurations.

Lemma round_half_even_within (D E t : Z) :
  0 < E -> Z.abs t <= E -> Z.abs (round_half_even (D * E + t) E - D) <= 1.
Proof.
  intros HE Ht. unfold round_half_even.
  destruct (Z_lt_le_dec t 0) as [Hneg | Hpos].
  - assert (Hq : (D * E + t) / E = D - 1)
      by (symmetry; apply (Z.div_unique_pos _ E _ (E + t)); lia).
    assert (Hr : (D * E + t) mod E = E + t)
      by (symmetry; apply (Z.mod_unique_pos _ E (D - 1)); lia).
    rewrite Hq, Hr.
    destruct (Z.compare_spec (2 * (E + t)) E); try lia.
    destruct (Z.even (D - 1)); lia.
  - destruct (Z.eq_dec t E) as [-> | Hne].
    + assert (Hq : (D * E + E) / E = D + 1)
        by (symmetry; apply (Z.div_unique_pos _ E _ 0); lia).
      assert (Hr : (D * E + E) mod E = 0)
        by (symmetry; apply (Z.mod_unique_pos _ E (D + 1)); lia).
      rewrite Hq, Hr.
      destruct (Z.compare_spec (2 * 0) E); lia.
    + assert (Hq : (D * E + t) / E = D)
        by (symmetry; apply (Z.div_unique_pos _ E _ t); lia).
      assert (Hr : (D * E + t) mod E = t)
        by (symmetry; apply (Z.mod_unique_pos _ E D); lia).
      rewrite Hq, Hr.
      destruct (Z.compare_spec (2 * t) E); try lia.
      destruct (Z.even D); lia.
Qed.

(** Below 2^53 nanoseconds the double nearest to [D / 10^9], rounded to nine
    decimals, is at most one billionth away from [D]. *)
Lemma billionths_within_one (D : Z) :
  0 < D < 2 ^ 53 ->
  exists m e, nanos_to_seconds D = S754_finite false m e
              /\ Z.abs (billionths m e - D) <= 1.
Proof.
  intros HD.
  pose proof (Z.log2_spec D ltac:(lia)) as Hlog.
  pose proof (Z.log2_nonneg D) as Hlog0.
  assert (Hlog53 : Z.log2 D < 53) by (apply Z.log2_lt_pow2; lia).
  set (d := Z.log2 D + 1) in *.
  replace (Z.succ (Z.log2 D)) with d in Hlog by lia.
  replace (Z.log2 D) with (d - 1) in Hlog by lia.
  assert (Hd : 0 < d <= 53) by lia.
  rewrite (nanos_to_seconds_unfold D d Hlog Hd). cbv zeta.
  assert (HE : 2 ^ 30 <= 2 ^ (83 - d)) by (apply Z.pow_le_mono_r; lia).
  assert (HE29 : 2 ^ 29 <= 2 ^ (82 - d)) by (apply Z.pow_le_mono_r; lia).
  assert (HE' : 2 ^ (83 - d) = 2 * 2 ^ (82 - d)).
  { replace (83 - d) with (Z.succ (82 - d)) by lia.
    rewrite Z.pow_succ_r by lia. reflexivity. }
  assert (HN : 2 ^ 82 <= D * 2 ^ (83 - d) < 2 ^ 83).
  { assert (E1 : 2 ^ 82 = 2 ^ (d - 1) * 2 ^ (83 - d))
      by (rewrite <- Z.pow_add_r by lia; f_equal; lia).
    assert (E2 : 2 ^ 83 = 2 ^ d * 2 ^ (83 - d))
      by (rewrite <- Z.pow_add_r by lia; f_equal; lia).
    rewrite E1, E2.
    split; [apply Z.mul_le_mono_nonneg_r | apply Z.mul_lt_mono_pos_r]; lia. }
  set (E := 2 ^ (83 - d)) in *. set (E' := 2 ^ (82 - d)) in *.
  set (N := D * E) in *.
  assert (HN' : N = 2 * (D * E')) by (unfold N; rewrite HE'; lia).
  pose proof (Z.div_mod N (10 ^ 9) ltac:(lia)) as Hdm.
  pose proof (Z.mod_pos_bound N (10 ^ 9) ltac:(lia)) as Hr.
  set (q := N / 10 ^ 9) in *. set (r := N mod 10 ^ 9) in *.
  assert (Hq : 2 ^ 52 <= q < 2 ^ 54 - 2) by lia.
  destruct (Z_lt_le_dec q (2 ^ 53)) as [Hq53 | Hq54].
  - rewrite binary_round_aux_53 by lia. cbv zeta.
    set (l := if r =? 0 then loc_Exact else loc_Inexact (2 * r ?= 10 ^ 9)).
    pose proof (round_nearest_even_range q l) as Hm.
    assert (Hround : 2 * Z.abs (round_nearest_even q l * 10 ^ 9 - N) <= 10 ^ 9).
    { unfold l. destruct (Z.eqb_spec r 0) as [Hr0 | Hr0]; cbn [round_nearest_even]; [lia |].
      destruct (Z.compare_spec (2 * r) (10 ^ 9)); try lia. destruct (Z.even q); lia. }
    set (m := round_nearest_even q l) in *.
    destruct (Z.ltb_spec m (2 ^ 53)) as [Hlt | Hge].
    + exists (Z.to_pos m), (d - 83). split; [reflexivity |].
      unfold billionths. assert ((0 <=? d - 83) = false) as -> by lia.
      rewrite Z2Pos.id by lia. replace (- (d - 83)) with (83 - d) by lia. fold E.
      replace (m * 10 ^ 9) with (D * E + (m * 10 ^ 9 - N)) by (unfold N; lia).
      apply round_half_even_within; lia.
    + exists (Z.to_pos (2 ^ 52)), (d - 83 + 1). split; [reflexivity |].
      unfold billionths. assert ((0 <=? d - 83 + 1) = false) as -> by lia.
      rewrite Z2Pos.id by lia. replace (- (d - 83 + 1)) with (82 - d) by lia.
      fold E'.
      replace (2 ^ 52 * 10 ^ 9) with (D * E' + (2 ^ 52 * 10 ^ 9 - D * E')) by lia.
      apply round_half_even_within; lia.
  - rewrite binary_round_aux_54 by lia.
    set (l' := loc_of_shr_record _).
    pose proof (round_nearest_even_range (q / 2) l') as Hm.
    pose proof (Z.div_mod q 2 ltac:(lia)) as Hq2.
    pose proof (Zmod_odd q) as Hodd.
    assert (Hround : Z.abs (2 * round_nearest_even (q / 2) l' * 10 ^ 9 - N) <= 10 ^ 9).
    { unfold l'. revert Hodd.
      destruct (Z.eqb_spec r 0) as [Hr0 | Hr0]; destruct (Z.odd q); intros Hodd;
        cbn [loc_of_shr_record round_nearest_even]; try lia.
      destruct (Z.even (q / 2)); lia. }
    set (m := round_nearest_even (q / 2) l') in *.
    exists (Z.to_pos m), (d - 83 + 1). split; [reflexivity |].
    unfold billionths. assert ((0 <=? d - 83 + 1) = false) as -> by lia.
    rewrite Z2Pos.id by lia. replace (- (d - 83 + 1)) with (82 - d) by lia.
    fold E'.
    replace (m * 10 ^ 9) with (D * E' + (m * 10 ^ 9 - D * E')) by lia.
    apply round_half_even_within; lia.
Qed.

(** X16.  For a duration below 2^53 nanoseconds (104 days) the seconds of
    the performance line are those of the duration or of a duration one
    nanosecond away: the division in doubles costs at most the last digit. *)
Theorem performance_seconds_within_one_nanosecond (D : Z) :
  0 <= D < 2 ^ 53 ->
  exists D', Z.abs (D' - D) <= 1
             /\ fmt_9f (nanos_to_seconds D) = seconds_text D'.
Proof.
  intros HD. destruct (Z.eq_dec D 0) as [-> | Hne].
  { exists 0. split; [lia | reflexivity]. }
  destruct (billionths_within_one D ltac:(lia)) as (m & e & -> & Hb).
  exists (billionths m e). split; [exact Hb |].
  unfold fmt_9f, seconds_text. cbv zeta.
  change (10 ^ 9) with (10 ^ Z.of_nat 9) at 3.
  by rewrite digits_fixed_mod.
Qed.

End LongDurations.

Lemma performance_seconds_within_one_nanosecond_witness :
  0 <= 8388608000000001 < 2 ^ 53
  /\ exists D', Z.abs (D' - 8388608000000001) <= 1
                /\ fmt_9f (nanos_to_seconds 8388608000000001) = seconds_text D'.
Proof.
  split; [lia |].
  apply (performance_seconds_within_one_nanosecond 8388608000000001). lia.
Defined.

(** ** The clock of native Windows *)

Section WindowsClock.
Import Windows.

Lemma scale_down_spec (fuel : nat) :
  forall s sc,
    0 <= s < 2 ^ (32 + Z.of_nat fuel) ->
    exists k, 0 <= k <= Z.of_nat fuel
              /\ scale_down fuel s sc = Some (s / 2 ^ k, sc - k)
              /\ 0 <= s / 2 ^ k < 2 ^ 32
              /\ (0 < k -> 2 ^ 31 <= s / 2 ^ k).
Proof.
  induction fuel as [| fuel IH]; intros s sc Hs.
  - exists 0. simpl in *. rewrite Z.div_1_r.
    assert ((4294967296 <=? s) = false) as -> by lia.
    repeat split; try lia. by rewrite Z.sub_0_r.
  - cbn [scale_down].
    destruct (Z.leb_spec 4294967296 s) as [Hbig | Hsmall].
    + rewrite Z.shiftr_div_pow2 by lia. change (2 ^ 1) with 2.
      assert (Hhalf : 0 <= s / 2 < 2 ^ (32 + Z.of_nat fuel)).
      { split; [apply Z.div_pos; lia |].
        apply Z.div_lt_upper_bound; [lia |].
        replace (32 + Z.of_nat (S fuel)) with (Z.succ (32 + Z.of_nat fuel)) in Hs by lia.
        rewrite Z.pow_succ_r in Hs by lia. lia. }
      destruct (IH (s / 2) (sc - 1) Hhalf) as (k & Hk & -> & Hr & Hmax).
      exists (k + 1).
      assert (Hdiv : s / 2 / 2 ^ k = s / 2 ^ (k + 1)).
      { rewrite Z.div_div by (try lia; apply Z.pow_pos_nonneg; lia).
        f_equal. rewrite Z.pow_add_r by lia. lia. }
      rewrite <- Hdiv.
      split; [lia |]. split; [f_equal; f_equal; lia |]. split; [exact Hr |].
      intros _. destruct (Z.eq_dec k 0) as [-> | Hk0]; [| apply Hmax; lia].
      rewrite Z.div_1_r. apply Z.div_le_lower_bound; lia.
    + exists 0. rewrite Z.div_1_r. repeat split; try lia. by rewrite Z.sub_0_r.
Qed.

(** The statics a successful first call leaves, for the frequency [F]. *)
Lemma first_call_calibrates (f cnt : Z) :
  wrap64 f <> 0 ->
  exists st,
    highres_nanos (Some f) cnt zeroed = Returns (scaled_count st cnt, st)
    /\ high_ns st = 1000000000 * 2 ^ 32 / wrap64 f
    /\ 2 <= scale st <= 32
    /\ scaled_low_ns st = high_ns st / 2 ^ (32 - scale st)
    /\ 0 <= scaled_low_ns st < 2 ^ 32
    /\ (scale st < 32 -> 2 ^ 31 <= scaled_low_ns st).
Proof.
  intros Hf. pose proof (wrap64_range f) as HF.
  unfold highres_nanos. cbn [scale zeroed Z.eqb].
  destruct (Z.eqb_spec (wrap64 f) 0) as [| _]; [done |].
  rewrite Z.shiftl_mul_pow2 by lia.
  set (H := 1000000000 * 2 ^ 32 / wrap64 f).
  assert (HH : 0 <= H < 2 ^ 62).
  { unfold H. split; [apply Z.div_pos; lia |].
    apply Z.div_lt_upper_bound; lia. }
  destruct (scale_down_spec 64 H 32 ltac:(lia)) as (k & Hk & -> & Hr & Hmax).
  assert (Hk30 : k <= 30).
  { destruct (Z_le_gt_dec k 30) as [| Hgt]; [done |]. exfalso.
    specialize (Hmax ltac:(lia)).
    assert (H / 2 ^ k < 2 ^ 31); [| lia].
    apply Z.div_lt_upper_bound; [apply Z.pow_pos_nonneg; lia |].
    assert (2 ^ 31 <= 2 ^ k) by (apply Z.pow_le_mono_r; lia). nia. }
  eexists. split; [reflexivity |]. cbn [high_ns scale scaled_low_ns].
  split; [done |]. split; [lia |].
  split; [by replace (32 - (32 - k)) with k by lia |].
  split; [exact Hr |]. intros Hlt. apply Hmax. lia.
Qed.


(** What a call computes once the statics are set: no product and no sum
    wraps, the result is never ahead of the exact number of nanoseconds and
    behind it by less than the high part of the count plus the bits
    dropped from [scaled_low_ns]. *)
Lemma scaled_count_bounds (st : statics) (F cnt : Z) :
  0 < F ->
  high_ns st = 1000000000 * 2 ^ 32 / F ->
  2 <= scale st <= 32 ->
  scaled_low_ns st = high_ns st / 2 ^ (32 - scale st) ->
  0 <= scaled_low_ns st < 2 ^ 32 ->
  0 <= cnt < 2 ^ 63 ->
  cnt * 1000000000 / F < 2 ^ 64 ->
  scaled_count st cnt
  = high_ns st * HighPart cnt + scaled_low_ns st * LowPart cnt / 2 ^ scale st
  /\ scaled_count st cnt <= cnt * 1000000000 / F
  /\ cnt * 1000000000 / F - scaled_count st cnt
     <= HighPart cnt + 2 ^ (32 - scale st).
Proof.
  intros HF HH Hsc HS HS32 Hc HT.
  destruct st as [H S sc]. cbn [high_ns scaled_low_ns scale] in *.
  unfold scaled_count. cbn [high_ns scaled_low_ns scale].
  set (hp := HighPart cnt). set (lp := LowPart cnt).
  assert (Hhp : 0 <= hp < 2 ^ 31).
  { unfold hp, HighPart. split; [apply Z.div_pos; lia |].
    apply Z.div_lt_upper_bound; lia. }
  assert (Hlp : 0 <= lp < 2 ^ 32) by (apply Z.mod_pos_bound; lia).
  assert (Hcnt : cnt = 2 ^ 32 * hp + lp) by (apply Z.div_mod; lia).
  set (k := 32 - sc) in *.
  assert (HK : 0 < 2 ^ k) by (apply Z.pow_pos_nonneg; lia).
  assert (HP : 0 < 2 ^ sc) by (apply Z.pow_pos_nonneg; lia).
  assert (HB : 2 ^ sc * 2 ^ k = 2 ^ 32)
    by (rewrite <- Z.pow_add_r by lia; f_equal; lia).
  set (K := 2 ^ k) in *. set (Q := 2 ^ sc) in *.
  set (X := 1000000000 * 2 ^ 32) in *.
  assert (H0 : 0 <= H) by (rewrite HH; apply Z.div_pos; lia).
  pose proof (Z.mul_div_le X F HF) as Fa1. rewrite <- HH in Fa1.
  pose proof (Z.mul_succ_div_gt X F HF) as Fa2. rewrite <- HH in Fa2.
  pose proof (Z.mul_div_le H K HK) as Fb1. rewrite <- HS in Fb1.
  pose proof (Z.mul_succ_div_gt H K HK) as Fb2. rewrite <- HS in Fb2.
  set (L := S * lp / Q).
  pose proof (Z.mul_div_le (S * lp) Q HP) as Fc1. fold L in Fc1.
  pose proof (Z.mul_succ_div_gt (S * lp) Q HP) as Fc2. fold L in Fc2.
  assert (HL0 : 0 <= L)
    by (apply Z.div_pos; [apply Z.mul_nonneg_nonneg |]; lia).
  (* the exact count is not below the result *)
  assert (Hup : F * (H * hp + L) <= cnt * 1000000000).
  { assert (U1 : F * H * hp <= X * hp) by (apply Z.mul_le_mono_nonneg_r; lia).
    assert (U2 : Q * L * K <= S * lp * K) by (apply Z.mul_le_mono_nonneg_r; lia).
    assert (U3 : K * S * lp <= H * lp) by (apply Z.mul_le_mono_nonneg_r; lia).
    assert (U4 : F * H * lp <= X * lp) by (apply Z.mul_le_mono_nonneg_r; lia).
    assert (U5 : 2 ^ 32 * L <= H * lp).
    { rewrite <- HB. replace (Q * K * L) with (Q * L * K) by ring.
      replace (S * lp * K) with (K * S * lp) in U2 by ring. lia. }
    assert (U6 : F * (2 ^ 32 * L) <= F * (H * lp))
      by (apply Z.mul_le_mono_nonneg_l; lia).
    assert (U7 : 2 ^ 32 * (F * L) <= 2 ^ 32 * (1000000000 * lp)) by (unfold X in U4; lia).
    apply Z.mul_le_mono_pos_l in U7; [| lia]. unfold X in U1. lia. }
  assert (Hle : H * hp + L <= cnt * 1000000000 / F)
    by (apply Z.div_le_lower_bound; lia).
  (* and above it by less than hp + K + 1 *)
  assert (Hlow : cnt * 1000000000 < F * (H * hp + L + hp + K + 1)).
  { assert (V1 : X * hp <= (F * H + F) * hp)
      by (apply Z.mul_le_mono_nonneg_r; lia).
    assert (V2 : X * lp <= (F * H + F) * lp)
      by (apply Z.mul_le_mono_nonneg_r; lia).
    assert (V3 : H + 1 <= K * (S + 1)) by lia.
    assert (V4 : (H + 1) * lp <= K * (S + 1) * lp)
      by (apply Z.mul_le_mono_nonneg_r; lia).
    assert (V5 : S * lp + 1 <= Q * (L + 1)) by lia.
    assert (V6 : K * (S * lp + lp) <= K * (Q * (L + 1) - 1 + (2 ^ 32 - 1)))
      by (apply Z.mul_le_mono_nonneg_l; lia).
    assert (V6' : K * (Q * (L + 1) - 1 + (2 ^ 32 - 1))
                  = Q * K * (L + 1) + K * (2 ^ 32 - 2)) by ring.
    rewrite HB in V6'.
    assert (V7 : K * (S * lp + lp) < 2 ^ 32 * (L + 1 + K)) by lia.
    assert (V8 : (H + 1) * lp < 2 ^ 32 * (L + 1 + K)) by lia.
    assert (V9 : F * ((H + 1) * lp) < F * (2 ^ 32 * (L + 1 + K)))
      by (apply Z.mul_lt_mono_pos_l; lia).
    assert (V10 : 2 ^ 32 * (1000000000 * lp) < 2 ^ 32 * (F * (L + 1 + K)))
      by (unfold X in V2; lia).
    apply Z.mul_lt_mono_pos_l in V10; [| lia]. unfold X in V1. lia. }
  assert (Hgt : cnt * 1000000000 / F < H * hp + L + hp + K + 1)
    by (apply Z.div_lt_upper_bound; lia).
  (* nothing wraps *)
  assert (Hhp0 : 0 <= H * hp) by (apply Z.mul_nonneg_nonneg; lia).
  assert (W1 : wrap64 hp = hp) by (apply Z.mod_small; lia).
  assert (W2 : wrap64 (H * hp) = H * hp) by (apply Z.mod_small; lia).
  assert (HSlp : 0 <= S * lp <= (2 ^ 32 - 1) * (2 ^ 32 - 1))
    by (split; [apply Z.mul_nonneg_nonneg | apply Z.mul_le_mono_nonneg]; lia).
  assert (W3 : wrap64 (S * lp) = S * lp) by (apply Z.mod_small; lia).
  rewrite W1, W2, W3, Z.shiftr_div_pow2 by lia. fold Q L.
  assert (W4 : wrap64 (H * hp + L) = H * hp + L) by (apply Z.mod_small; lia).
  rewrite W4. repeat split; lia.
Qed.


(** X17.  The first call that finds the frequency sets the statics for
    good: the factor for the low part "just fits within 32 bit" (below 2^32,
    and at least 2^31 whenever bits were dropped), so its product with the
    low part never wraps, and the scale stays between 2 and 32, so no later
    call asks for the frequency again.  A call that cannot get the
    frequency returns 0 and leaves the statics zero. *)
Theorem windows_timer_calibrates_once (f cnt : Z) :
  wrap64 f <> 0 ->
  exists st,
    highres_nanos (Some f) cnt zeroed = Returns (scaled_count st cnt, st)
    /\ 2 <= scale st <= 32
    /\ 0 <= scaled_low_ns st < 2 ^ 32
    /\ (scale st < 32 -> 2 ^ 31 <= scaled_low_ns st)
    /\ (forall c, 0 <= scaled_low_ns st * LowPart c < 2 ^ 64)
    /\ (forall f' c, highres_nanos f' c st = Returns (scaled_count st c, st))
    /\ highres_nanos None cnt zeroed = Returns (0, zeroed).
Proof.
  intros Hf.
  destruct (first_call_calibrates f cnt Hf) as (st & E & _ & Hsc & _ & HS & Hmax).
  exists st. split; [exact E |]. split; [exact Hsc |]. split; [exact HS |].
  split; [exact Hmax |]. split; [| split; [| reflexivity]].
  - intros c. assert (Hlp : 0 <= LowPart c < 2 ^ 32) by (apply Z.mod_pos_bound; lia).
    assert (scaled_low_ns st * LowPart c <= (2 ^ 32 - 1) * (2 ^ 32 - 1))
      by (apply Z.mul_le_mono_nonneg; lia).
    split; [apply Z.mul_nonneg_nonneg |]; lia.
  - intros f' c. unfold highres_nanos.
    destruct (Z.eqb_spec (scale st) 0) as [H0 | _]; [lia | reflexivity].
Qed.

(** X18.  Two calls in a row, for a frequency and counts in the range of a
    [LONGLONG] and a time that fits into 64 bits: the second result is not
    below the first, never ahead of the exact [cnt * 10^9 / frequency], and
    behind it by no more than the high part of the count plus the bits
    dropped from the factor of the low part. *)
Theorem windows_highres_nanos_is_monotonic (f c1 c2 : Z) :
  0 < f < 2 ^ 63 ->
  0 <= c1 <= c2 ->
  c2 < 2 ^ 63 ->
  c2 * 1000000000 / f < 2 ^ 64 ->
  exists st r1 r2,
    highres_nanos (Some f) c1 zeroed = Returns (r1, st)
    /\ highres_nanos None c2 st = Returns (r2, st)
    /\ r1 <= r2
    /\ r2 <= c2 * 1000000000 / f
    /\ c2 * 1000000000 / f - r2 <= HighPart c2 + 2 ^ (32 - scale st).
Proof.
  intros Hf Hc Hc2 HT.
  assert (Hw : wrap64 f = f) by (apply Z.mod_small; lia).
  destruct (first_call_calibrates f c1 ltac:(lia)) as (st & E & HH & Hsc & HS & HS32 & _).
  rewrite Hw in HH.
  exists st, (scaled_count st c1), (scaled_count st c2).
  split; [exact E |]. split.
  { unfold highres_nanos.
    destruct (Z.eqb_spec (scale st) 0) as [H0 | _]; [lia | reflexivity]. }
  assert (HT1 : c1 * 1000000000 / f < 2 ^ 64).
  { assert (c1 * 1000000000 / f <= c2 * 1000000000 / f); [| lia].
    apply Z.div_le_mono; lia. }
  destruct (scaled_count_bounds st f c1 ltac:(lia) HH Hsc HS HS32 ltac:(lia) HT1)
    as (E1 & _ & _).
  destruct (scaled_count_bounds st f c2 ltac:(lia) HH Hsc HS HS32 ltac:(lia) HT)
    as (E2 & Hup & Hlow).
  split; [| split; [exact Hup | exact Hlow]].
  rewrite E1, E2.
  set (H := high_ns st) in *. set (S := scaled_low_ns st) in *.
  set (k := 32 - scale st) in *.
  assert (HQ : 0 < 2 ^ scale st) by (apply Z.pow_pos_nonneg; lia).
  assert (HK : 0 < 2 ^ k) by (apply Z.pow_pos_nonneg; lia).
  assert (HB : 2 ^ scale st * 2 ^ k = 2 ^ 32)
    by (rewrite <- Z.pow_add_r by lia; f_equal; lia).
  set (Q := 2 ^ scale st) in *. set (K := 2 ^ k) in *.
  assert (H0 : 0 <= H) by (rewrite HH; apply Z.div_pos; lia).
  pose proof (Z.mul_div_le H K HK) as Fb. rewrite <- HS in Fb.
  assert (Hlp1 : 0 <= LowPart c1 < 2 ^ 32) by (apply Z.mod_pos_bound; lia).
  assert (Hlp2 : 0 <= LowPart c2 < 2 ^ 32) by (apply Z.mod_pos_bound; lia).
  assert (Hd1 : c1 = 2 ^ 32 * HighPart c1 + LowPart c1) by (apply Z.div_mod; lia).
  assert (Hd2 : c2 = 2 ^ 32 * HighPart c2 + LowPart c2) by (apply Z.div_mod; lia).
  assert (Hhp : HighPart c1 <= HighPart c2) by (apply Z.div_le_mono; lia).
  assert (Hhp1 : 0 <= HighPart c1) by (apply Z.div_pos; lia).
  set (h1 := HighPart c1) in *. set (h2 := HighPart c2) in *.
  set (l1 := LowPart c1) in *. set (l2 := LowPart c2) in *.
  assert (HL2 : 0 <= S * l2 / Q)
    by (apply Z.div_pos; [apply Z.mul_nonneg_nonneg |]; lia).
  destruct (Z.eq_dec h1 h2) as [Heq | Hne].
  - rewrite Heq. apply Z.add_le_mono_l. apply Z.div_le_mono; [lia |].
    apply Z.mul_le_mono_nonneg_l; lia.
  - assert (HL1 : S * l1 / Q <= H).
    { apply Z.div_le_upper_bound; [lia |].
      assert (S * l1 <= S * 2 ^ 32) by (apply Z.mul_le_mono_nonneg_l; lia).
      assert (Q * (K * S) <= Q * H) by (apply Z.mul_le_mono_nonneg_l; lia).
      replace (Q * (K * S)) with (S * (Q * K)) in * by ring.
      rewrite HB in *. lia. }
    assert (H * (h1 + 1) <= H * h2) by (apply Z.mul_le_mono_nonneg_l; lia).
    lia.
Qed.

End WindowsClock.

Lemma windows_timer_calibrates_once_witness :
  wrap64 10000000 <> 0
  /\ exists st,
       Windows.highres_nanos (Some 10000000) 123456789012 Windows.zeroed
       = Windows.Returns (Windows.scaled_count st 123456789012, st).
Proof.
  assert (H : wrap64 10000000 <> 0) by (vm_compute; discriminate).
  split; [exact H |].
  destruct (windows_timer_calibrates_once 10000000 123456789012 H) as (st & E & _).
  exists st. exact E.
Defined.

Lemma windows_highres_nanos_is_monotonic_witness :
  0 < 10000000 < 2 ^ 63
  /\ 0 <= 123456789012 <= 123456789999
  /\ 123456789999 < 2 ^ 63
  /\ 123456789999 * 1000000000 / 10000000 < 2 ^ 64
  /\ exists st r1 r2,
       Windows.highres_nanos (Some 10000000) 123456789012 Windows.zeroed
       = Windows.Returns (r1, st)
       /\ Windows.highres_nanos None 123456789999 st = Windows.Returns (r2, st)
       /\ r1 <= r2.
Proof.
  assert (H1 : 0 < 10000000 < 2 ^ 63) by lia.
  assert (H2 : 0 <= 123456789012 <= 123456789999) by lia.
  assert (H3 : 123456789999 < 2 ^ 63) by lia.
  assert (H4 : 123456789999 * 1000000000 / 10000000 < 2 ^ 64) by (vm_compute; reflexivity).
  split; [exact H1 |]. split; [exact H2 |]. split; [exact H3 |]. split; [exact H4 |].
  destruct (windows_highres_nanos_is_monotonic 10000000 123456789012 123456789999
              H1 H2 H3 H4) as (st & r1 & r2 & E1 & E2 & Hle & _).
  exists st, r1, r2. repeat split; assumption.
Defined.


(** ** The further properties at sample inputs *)

Lemma getnanotime_elapsed_is_monotonic_witness :
  let w := snd (getnanotime (P := Sample.platform false)
                  (Sample.with_var "GIT_TRACE_PERFORMANCE" "1")) in
  1 < g_offset w
  /\ w_wall_n (snd (getnanotime (P := Sample.platform false)
                      (after_calls (P := Sample.platform false) (1 + 2) w)))
     = w_wall_n w.
Proof.
  intros w. assert (H : 1 < g_offset w) by (vm_compute; reflexivity).
  split; [exact H |].
  pose proof (getnanotime_elapsed_is_monotonic (P := Sample.platform false) w 1 2 H) as T.
  cbv zeta in T. destruct T as (_ & T). exact T.
Defined.

Lemma getnanotime_elapsed_since_calibration_witness :
  let w := Sample.with_var "GIT_TRACE_PERFORMANCE" "1" in
  let wn := after_calls (P := Sample.platform false) 2
              (snd (getnanotime (P := Sample.platform false) w)) in
  g_offset w = 0
  /\ next_highres (P := Sample.platform false) w <> 0
  /\ 2 <= wrap64 (next_wall w - next_highres (P := Sample.platform false) w)
  /\ wrap64 (fst (getnanotime (P := Sample.platform false) wn)
             - fst (getnanotime (P := Sample.platform false) w))
     = wrap64 (next_highres (P := Sample.platform false) wn
               - next_highres (P := Sample.platform false) w).
Proof.
  intros w wn.
  assert (H1 : g_offset w = 0) by reflexivity.
  assert (H2 : next_highres (P := Sample.platform false) w <> 0)
    by (vm_compute; discriminate).
  assert (H3 : 2 <= wrap64 (next_wall w - next_highres (P := Sample.platform false) w))
    by (vm_compute; discriminate).
  split; [exact H1 |]. split; [exact H2 |]. split; [exact H3 |].
  exact (getnanotime_elapsed_since_calibration (P := Sample.platform false)
           w 2 H1 H2 H3).
Defined.

Lemma nanos_conversions_exact_witness :
  let w := Sample.with_var "GIT_TRACE_PERFORMANCE" "1" in
  0 <= 43200 < 18446744073
  /\ 0 <= 0 < 1000000
  /\ fst (gettimeofday_nanos w) mod 1000 = 0.
Proof.
  intros w. assert (H1 : 0 <= 43200 < 18446744073) by lia.
  assert (H2 : 0 <= 0 < 1000000) by lia.
  split; [exact H1 |]. split; [exact H2 |].
  pose proof (nanos_conversions_exact (P := Sample.platform false) w) as T.
  cbv zeta in T. destruct T as (T & _). destruct (T H1 H2) as (_ & T2). exact T2.
Defined.


Lemma do_trace_print_keeps_streams_witness :
  let w := Sample.with_var "GIT_TRACE" "/tmp/t.log" in
  w_fdt w !! 1 = Some FdStream
  /\ w_fdt (snd (do_trace_print (P := Sample.platform false) "GIT_TRACE" "hello" w))
     !! 1 = Some FdStream.
Proof.
  intros w. assert (H : w_fdt w !! 1 = Some FdStream) by reflexivity.
  split; [exact H |].
  exact (do_trace_print_keeps_streams (P := Sample.platform false)
           "GIT_TRACE" "hello" w 1 H).
Defined.

Lemma do_trace_print_leaks_no_descriptor_witness :
  let w := Sample.with_var "GIT_TRACE" "/tmp/t.log" in
  is_Some (w_fdt w !! 0)
  /\ dom (w_fdt (snd (do_trace_print (P := Sample.platform false)
                        "GIT_TRACE" "hello" w)))
     = dom (w_fdt w).
Proof.
  intros w. assert (H : is_Some (w_fdt w !! 0)) by (eexists; reflexivity).
  split; [exact H |].
  exact (do_trace_print_leaks_no_descriptor (P := Sample.platform false)
           "GIT_TRACE" "hello" w H).
Defined.

Lemma quote_crnl_result_is_one_line_witness :
  let w := Sample.with_var "GIT_TRACE_SETUP" "1" in
  let q := "a" +:+ String BACKSLASH "nb" in
  fst (quote_crnl (Some ("a" +:+ nl +:+ "b")) w) = Done (Some q)
  /\ Forall (fun c => c <> LF /\ c <> CR) (list_ascii_of_string q).
Proof.
  intros w q.
  assert (H : fst (quote_crnl (Some ("a" +:+ nl +:+ "b")) w) = Done (Some q))
    by reflexivity.
  split; [exact H |].
  exact (quote_crnl_result_is_one_line w ("a" +:+ nl +:+ "b") q H).
Defined.

Lemma quote_crnl_is_injective_witness :
  let w := Sample.with_var "GIT_TRACE_SETUP" "1" in
  let a := "a" +:+ nl in
  let b := "a" +:+ nl +:+ String NUL "rest" in
  let q := "a" +:+ String BACKSLASH "n" in
  fst (quote_crnl (Some a) w) = Done (Some q)
  /\ fst (quote_crnl (Some b) w) = Done (Some q)
  /\ until_nul a = until_nul b.
Proof.
  intros w a b q.
  assert (H1 : fst (quote_crnl (Some a) w) = Done (Some q)) by reflexivity.
  assert (H2 : fst (quote_crnl (Some b) w) = Done (Some q)) by reflexivity.
  split; [exact H1 |]. split; [exact H2 |].
  exact (quote_crnl_is_injective w w a b q H1 H2).
Defined.

Lemma quote_crnl_plain_path_unchanged_witness :
  let w := Sample.with_var "GIT_TRACE_SETUP" "1" in
  forallb plain (list_ascii_of_string (until_nul "/work")) = true
  /\ (String.length (until_nul "/work") < length (g_new_path w))%nat
  /\ fst (quote_crnl (Some "/work") w) = Done (Some (until_nul "/work")).
Proof.
  intros w.
  assert (H1 : forallb plain (list_ascii_of_string (until_nul "/work")) = true)
    by reflexivity.
  assert (H2 : (String.length (until_nul "/work") < length (g_new_path w))%nat)
    by (vm_compute; lia).
  split; [exact H1 |]. split; [exact H2 |].
  exact (quote_crnl_plain_path_unchanged w "/work" H1 H2).
Defined.

Lemma quote_crnl_result_is_overwritten_witness :
  let w := Sample.with_var "GIT_TRACE_SETUP" "1" in
  let w1 := snd (quote_crnl (Some ".git") w) in
  let w2 := snd (quote_crnl (Some "/work") w1) in
  (String.length (escape ".git") < length (g_new_path w))%nat
  /\ (String.length (escape "/work") < length (g_new_path w))%nat
  /\ cstring (g_new_path w1) = escape ".git"
  /\ cstring (g_new_path w2) = escape "/work".
Proof.
  intros w w1 w2.
  assert (H1 : (String.length (escape ".git") < length (g_new_path w))%nat)
    by (vm_compute; lia).
  assert (H2 : (String.length (escape "/work") < length (g_new_path w))%nat)
    by (vm_compute; lia).
  split; [exact H1 |]. split; [exact H2 |].
  pose proof (quote_crnl_result_is_overwritten w ".git" "/work" H1 H2) as T.
  cbv zeta in T. destruct T as (_ & T1 & _ & T2 & _). split; [exact T1 | exact T2].
Defined.


Lemma trace_repo_setup_dies_without_cwd_witness :
  let w := Unwritable.with_var "GIT_TRACE_SETUP" "1" in
  w_env w !! "GIT_TRACE_SETUP" = Some "1"
  /\ is_disabling "1" = false
  /\ o_cwd (w_orc w) = None
  /\ fst (trace_repo_setup (P := Sample.platform true) None w)
     = Died "Unable to get current working directory".
Proof.
  intros w.
  assert (H1 : w_env w !! "GIT_TRACE_SETUP" = Some "1") by reflexivity.
  assert (H2 : is_disabling "1" = false) by reflexivity.
  assert (H3 : o_cwd (w_orc w) = None) by reflexivity.
  repeat (split; [assumption |]).
  rewrite (trace_repo_setup_dies_without_cwd (P := Sample.platform true)
             None w "1" H1 H2 (or_introl H3)).
  reflexivity.
Defined.


(** Standard error redirected into a file: the diagnostic for a malformed
    value lands in that file, and nothing reaches a stream. *)
Example malformed_diagnostic_with_stderr_redirected :
  let fdt := <[0 := FdStream]> (<[1 := FdStream]>
               (<[2 := FdFile "/tmp/err" true 0]> ∅)) in
  let w := set_files (fun _ => <["/tmp/err" := EmptyString]> ∅)
             (Sample.start Sample.clocks (<["GIT_TRACE" := "banana"]> ∅) fdt) in
  let r := get_trace_fd (P := Sample.platform false) "GIT_TRACE" false w in
  fst r = (STDERR_FILENO, false)
  /\ w_out (snd r) = []
  /\ w_files (snd r) !! "/tmp/err"
     = Some ("What does 'banana' for GIT_TRACE mean?" +:+ nl
             +:+ "If you want to trace into a file, then please set GIT_TRACE"
             +:+ " to an absolute pathname (starting with /)." +:+ nl
             +:+ "Defaulting to tracing on stderr..." +:+ nl).
Proof. vm_compute. repeat split. Qed.
